(** * sqltocsv: database rows to CSV

    A shallow embedding of [sqltocsv.go] and of the parts of the Go standard
    library it drives, with the properties of the converter proved over it.

    Conventions.  A Go [string] is a sequence of bytes: it is a [string] here
    (one [ascii] per byte).  A [[]byte] is a [list byte].  A [rune] and the
    fixed-width integers are [Z].  An [error] is [option error], [None] being
    Go's [nil].  A pointer receiver or an object reached through an interface
    is a state that the operation takes and gives back. *)

From Stdlib Require Import ZArith NArith Bool String Ascii List Lia.
From Stdlib.Strings Require Import Byte.
Import ListNotations.

Local Open Scope list_scope.
Local Open Scope string_scope.

(** ** Errors *)

(** [errors.New(msg)] and the value [fmt.Errorf] builds for a [%w] verb: the
    formatted message together with the wrapped error. *)
Inductive error : Type :=
| errorString (s : string)
| wrapError (msg : string) (err : error).

Definition Error (e : error) : string :=
  match e with
  | errorString s => s
  | wrapError msg _ => msg
  end.

Definition Unwrap (e : error) : option error :=
  match e with
  | errorString _ => None
  | wrapError _ err => Some err
  end.

Inductive result (A : Type) : Type :=
| Ok (a : A)
| Err (e : error).
Arguments Ok {A} a.
Arguments Err {A} e.

(** What a call does: it returns, or it panics. *)
Inductive outcome (A : Type) : Type :=
| Returns (a : A)
| Panics (reason : string).
Arguments Returns {A} a.
Arguments Panics {A} reason.

Definition isNil {A : Type} (e : option A) : bool :=
  match e with
  | None => true
  | Some _ => false
  end.

(** ** Bytes, characters and strings *)

Definition dquote : ascii := "034"%char.
Definition LF : ascii := "010"%char.
Definition CR : ascii := "013"%char.

Definition byte_of_N (n : N) : byte :=
  match Byte.of_N (n mod 256) with
  | Some b => b
  | None => x00
  end.

Definition char_of_N (n : N) : ascii := ascii_of_N (n mod 256).

(** [s[i]] for an index known to be in range (the alphabets below). *)
Definition char_at (s : string) (i : N) : ascii :=
  match String.get (N.to_nat i) s with
  | Some ch => ch
  | None => zero
  end.

Fixpoint index_of (ch : ascii) (s : string) : option N :=
  match s with
  | EmptyString => None
  | String x s' =>
      if Ascii.eqb x ch then Some 0%N
      else match index_of ch s' with
           | Some i => Some (N.succ i)
           | None => None
           end
  end.

Fixpoint take (n : nat) (s : string) : string :=
  match n, s with
  | S n', String ch s' => String ch (take n' s')
  | _, _ => EmptyString
  end.

Fixpoint drop (n : nat) (s : string) : string :=
  match n, s with
  | S n', String _ s' => drop n' s'
  | _, _ => s
  end.

Fixpoint contains_byte (s : string) (ch : ascii) : bool :=
  match s with
  | EmptyString => false
  | String x s' => Ascii.eqb x ch || contains_byte s' ch
  end.

Fixpoint has_prefix (s p : string) : bool :=
  match p, s with
  | EmptyString, _ => true
  | String a p', String b s' => Ascii.eqb a b && has_prefix s' p'
  | String _ _, EmptyString => false
  end.

Fixpoint contains_sub (s sub : string) : bool :=
  has_prefix s sub ||
  match s with
  | EmptyString => false
  | String _ s' => contains_sub s' sub
  end.

(** A floating-point number, by what the two library formatters return on it:
    IEEE 754 and the formatters of strconv and fmt are not modelled.
    [formatFloat fmt prec bitSize] is [strconv.FormatFloat] on the number,
    [sprintf format] is [fmt.Sprintf(format, val)]. *)
Record float : Type := {
  formatFloat : ascii -> Z -> Z -> string;
  sprintf : string -> string
}.

(** ** Package strconv *)

Module strconv.

Definition FormatBool (b : bool) : string :=
  if b then "true" else "false".

Definition digits : string := "0123456789abcdefghijklmnopqrstuvwxyz".

(** The digits of [u] in [base], most significant first, in front of
    [acc].  A 64-bit number has at most 64 digits, which bounds [n]. *)
Fixpoint formatBits (n : nat) (u base : N) (acc : string) : string :=
  match n with
  | O => acc
  | S n' =>
      let acc' := String (char_at digits (u mod base)) acc in
      if (u / base =? 0)%N then acc' else formatBits n' (u / base) base acc'
  end.

(** [FormatUint(i, base)] for a base from 2 to 36 (Go panics on another
    base; this program passes 10). *)
Definition FormatUint (i : Z) (base : Z) : string :=
  formatBits 64 (Z.to_N i) (Z.to_N base) EmptyString.

Definition FormatInt (i : Z) (base : Z) : string :=
  if (i <? 0)%Z then String "-" (FormatUint (- i)%Z base) else FormatUint i base.

Definition Itoa (i : Z) : string := FormatInt i 10%Z.

Definition FormatFloat (f : float) (fmt : ascii) (prec bitSize : Z) : string :=
  formatFloat f fmt prec bitSize.

(** The same functions with the panics of Go: the integer formatters panic
    on a base below 2 or above 36, [FormatFloat] on a bit size other than 32
    and 64. *)
Definition FormatUintOrPanic (i : Z) (base : Z) : outcome string :=
  if ((base <? 2) || (36 <? base))%Z
  then Panics "strconv: illegal AppendInt/FormatInt base"
  else Returns (FormatUint i base).

Definition FormatIntOrPanic (i : Z) (base : Z) : outcome string :=
  if ((base <? 2) || (36 <? base))%Z
  then Panics "strconv: illegal AppendInt/FormatInt base"
  else Returns (FormatInt i base).

Definition ItoaOrPanic (i : Z) : outcome string := FormatIntOrPanic i 10%Z.

Definition FormatFloatOrPanic (f : float) (fmt : ascii) (prec bitSize : Z)
  : outcome string :=
  if ((bitSize =? 32) || (bitSize =? 64))%Z
  then Returns (FormatFloat f fmt prec bitSize)
  else Panics "strconv: illegal AppendFloat/FormatFloat bitSize".

End strconv.

(** The values of Go's sized integer types, as the [Z] they denote: a [Z]
    stands for the [w]-bit integer it wraps to.  [int] and [uint] are taken
    64 bits wide. *)
Definition sint (w : Z) (z : Z) : Z :=
  ((z + 2 ^ (w - 1)) mod 2 ^ w - 2 ^ (w - 1))%Z.
Definition uint (w : Z) (z : Z) : Z := (z mod 2 ^ w)%Z.

(** ** Package strings *)

Module strings.

Fixpoint trimLeftByte (s : string) (c : ascii) : string :=
  match s with
  | EmptyString => EmptyString
  | String ch s' => if Ascii.eqb ch c then trimLeftByte s' c else s
  end.

(** [for len(s) > 0 && s[len(s)-1] == c { s = s[:len(s)-1] }] *)
Fixpoint trimRightByte (s : string) (c : ascii) : string :=
  match s with
  | EmptyString => EmptyString
  | String ch s' =>
      match trimRightByte s' c with
      | EmptyString => if Ascii.eqb ch c then EmptyString else String ch EmptyString
      | t => String ch t
      end
  end.

Fixpoint trimLeftSet (s cutset : string) : string :=
  match s with
  | EmptyString => EmptyString
  | String ch s' => if contains_byte cutset ch then trimLeftSet s' cutset else s
  end.

Fixpoint trimRightSet (s cutset : string) : string :=
  match s with
  | EmptyString => EmptyString
  | String ch s' =>
      match trimRightSet s' cutset with
      | EmptyString =>
          if contains_byte cutset ch then EmptyString else String ch EmptyString
      | t => String ch t
      end
  end.

(** [strings.Trim(s, cutset)].  A cutset of one ASCII byte, the only one
    this program passes, takes Go's byte path; a longer cutset is read as a
    set of bytes, which is Go's behaviour for an ASCII cutset. *)
Definition Trim (s cutset : string) : string :=
  match s, cutset with
  | EmptyString, _ => s
  | _, EmptyString => s
  | _, String c EmptyString =>
      if (N_of_ascii c <? 128)%N
      then trimLeftByte (trimRightByte s c) c
      else trimLeftSet (trimRightSet s cutset) cutset
  | _, _ => trimLeftSet (trimRightSet s cutset) cutset
  end.

End strings.

(** ** Package encoding/base64 *)

Module base64.

(** [NoPadding] is [padChar = None]. *)
Record Encoding : Type := {
  encode : string;
  padChar : option ascii
}.

Definition encodeStd : string :=
  "ABCDEFGHIJKLMNOPQRSTUVWXYZabcdefghijklmnopqrstuvwxyz0123456789+/".
Definition encodeURL : string :=
  "ABCDEFGHIJKLMNOPQRSTUVWXYZabcdefghijklmnopqrstuvwxyz0123456789-_".
Definition StdPadding : ascii := "="%char.

Definition StdEncoding : Encoding :=
  {| encode := encodeStd; padChar := Some StdPadding |}.
Definition URLEncoding : Encoding :=
  {| encode := encodeURL; padChar := Some StdPadding |}.
Definition RawStdEncoding : Encoding :=
  {| encode := encodeStd; padChar := None |}.
Definition RawURLEncoding : Encoding :=
  {| encode := encodeURL; padChar := None |}.

Definition pad (enc : Encoding) (rest : string) : string :=
  match padChar enc with
  | Some p => String p rest
  | None => rest
  end.

(** The 24-bit group of up to three source bytes. *)
Definition group (a b c : N) : N :=
  N.lor (N.lor (N.shiftl a 16) (N.shiftl b 8)) c.

Definition sextet (val : N) (shift : N) : N :=
  N.land (N.shiftr val shift) 63.

Fixpoint EncodeToString (enc : Encoding) (src : list byte) : string :=
  let e := char_at (encode enc) in
  match src with
  | [] => EmptyString
  | [a] =>
      let val := N.shiftl (Byte.to_N a) 16 in
      String (e (sextet val 18)) (String (e (sextet val 12))
        (pad enc (pad enc EmptyString)))
  | [a; b] =>
      let val := N.lor (N.shiftl (Byte.to_N a) 16) (N.shiftl (Byte.to_N b) 8) in
      String (e (sextet val 18)) (String (e (sextet val 12))
        (String (e (sextet val 6)) (pad enc EmptyString)))
  | a :: b :: c :: rest =>
      let val := group (Byte.to_N a) (Byte.to_N b) (Byte.to_N c) in
      String (e (sextet val 18)) (String (e (sextet val 12))
        (String (e (sextet val 6)) (String (e (sextet val 0))
          (EncodeToString enc rest))))
  end.

Definition CorruptInputError : error := errorString "illegal base64 data".

(** [decodeMap[in]]: [None] is the table's 0xFF. *)
Definition decodeMap (enc : Encoding) (ch : ascii) : option N :=
  index_of ch (encode enc).

Definition isNewline (ch : ascii) : bool := Ascii.eqb ch LF || Ascii.eqb ch CR.

Definition isPad (enc : Encoding) (ch : ascii) : bool :=
  match padChar enc with
  | Some p => Ascii.eqb ch p
  | None => false
  end.

Fixpoint skipNewlines (s : string) : string :=
  match s with
  | String ch s' => if isNewline ch then skipNewlines s' else s
  | EmptyString => EmptyString
  end.

(** The bytes of a quantum of [dlen] sextets ([dlen - 1] bytes come out;
    the decoders of the four encodings are not strict, so bits left over
    in the last sextet are dropped). *)
Definition quantum (d0 d1 d2 d3 : N) (dlen : nat) : list byte :=
  let val := N.lor (N.lor (N.lor (N.shiftl d0 18) (N.shiftl d1 12))
                          (N.shiftl d2 6)) d3 in
  firstn (dlen - 1)
    [byte_of_N (N.shiftr val 16); byte_of_N (N.shiftr val 8); byte_of_N val].

Definition after (bs : list byte) (r : result (list byte)) : result (list byte) :=
  match r with
  | Ok rest => Ok (bs ++ rest)%list
  | Err e => Err e
  end.

(** [Decode], the loop over [decodeQuantum]: [j] sextets of the current
    quantum are in [d0], [d1], [d2].  Line breaks are skipped wherever they
    stand; padding ends the input. *)
Fixpoint decodeFrom (enc : Encoding) (s : string) (j : nat) (d0 d1 d2 : N)
  : result (list byte) :=
  match s with
  | EmptyString =>
      match j with
      | 0%nat => Ok []
      | 1%nat => Err CorruptInputError
      | _ => if isNil (padChar enc) then Ok (quantum d0 d1 d2 0 j)
             else Err CorruptInputError
      end
  | String ch s' =>
      match decodeMap enc ch with
      | Some out =>
          match j with
          | 0%nat => decodeFrom enc s' 1 out 0 0
          | 1%nat => decodeFrom enc s' 2 d0 out 0
          | 2%nat => decodeFrom enc s' 3 d0 d1 out
          | _ => after (quantum d0 d1 d2 out 4) (decodeFrom enc s' 0 0 0 0)
          end
      | None =>
          if isNewline ch then decodeFrom enc s' j d0 d1 d2
          else if negb (isPad enc ch) then Err CorruptInputError
          else match j with
               | 0%nat | 1%nat => Err CorruptInputError
               | 2%nat =>
                   match skipNewlines s' with
                   | String p t =>
                       if isPad enc p then
                         match skipNewlines t with
                         | EmptyString => Ok (quantum d0 d1 d2 0 2)
                         | _ => Err CorruptInputError
                         end
                       else Err CorruptInputError
                   | EmptyString => Err CorruptInputError
                   end
               | _ =>
                   match skipNewlines s' with
                   | EmptyString => Ok (quantum d0 d1 d2 0 3)
                   | _ => Err CorruptInputError
                   end
               end
      end
  end.

Definition DecodeString (enc : Encoding) (s : string) : result (list byte) :=
  decodeFrom enc s 0 0 0 0.

End base64.

(** ** Package encoding/hex *)

Module hex.

Definition hextable : string := "0123456789abcdef".

Fixpoint EncodeToString (src : list byte) : string :=
  match src with
  | [] => EmptyString
  | v :: rest =>
      String (char_at hextable (N.shiftr (Byte.to_N v) 4))
        (String (char_at hextable (N.land (Byte.to_N v) 15))
           (EncodeToString rest))
  end.

Definition ErrLength : error := errorString "encoding/hex: odd length hex string".
Definition InvalidByteError (ch : ascii) : error :=
  errorString ("encoding/hex: invalid byte: " ++ String ch EmptyString).

(** [reverseHexTable]: digits, and the letters a-f in either case. *)
Definition fromHexChar (ch : ascii) : option N :=
  let n := N_of_ascii ch in
  if ((48 <=? n) && (n <=? 57))%N then Some (n - 48)%N
  else if ((97 <=? n) && (n <=? 102))%N then Some (n - 97 + 10)%N
  else if ((65 <=? n) && (n <=? 70))%N then Some (n - 65 + 10)%N
  else None.

Fixpoint DecodeString (s : string) : result (list byte) :=
  match s with
  | EmptyString => Ok []
  | String p EmptyString =>
      match fromHexChar p with
      | None => Err (InvalidByteError p)
      | Some _ => Err ErrLength
      end
  | String p (String q rest) =>
      match fromHexChar p, fromHexChar q with
      | None, _ => Err (InvalidByteError p)
      | _, None => Err (InvalidByteError q)
      | Some a, Some b =>
          match DecodeString rest with
          | Ok bs => Ok (byte_of_N (N.lor (N.shiftl a 4) b) :: bs)
          | Err e => Err e
          end
      end
  end.

End hex.

(** ** Packages unicode/utf8 and unicode *)

Module utf8.

Definition RuneError : Z := 65533%Z.
Definition RuneSelf : Z := 128%Z.
Definition UTFMax : nat := 4.

Definition ValidRune (r : Z) : bool :=
  ((0 <=? r) && (r <? 55296) || (57343 <? r) && (r <=? 1114111))%Z.

Definition cont (r : Z) (shift : Z) : ascii :=
  char_of_N (Z.to_N (Z.lor 128%Z (Z.land (Z.shiftr r shift) 63%Z))).

(** [EncodeRune]: the UTF-8 bytes of [r], those of [RuneError] for a rune
    out of range or a surrogate half. *)
Definition EncodeRune (r : Z) : string :=
  let lead (tag shift : Z) := char_of_N (Z.to_N (Z.lor tag (Z.shiftr r shift))) in
  if ((0 <=? r) && (r <? 128))%Z then String (char_of_N (Z.to_N r)) EmptyString
  else if ((128 <=? r) && (r <? 2048))%Z then
    String (lead 192%Z 6%Z) (String (cont r 0) EmptyString)
  else if negb (ValidRune r) then
    String (char_of_N 239) (String (char_of_N 191) (String (char_of_N 189) EmptyString))
  else if (r <? 65536)%Z then
    String (lead 224%Z 12%Z) (String (cont r 6) (String (cont r 0) EmptyString))
  else
    String (lead 240%Z 18%Z)
      (String (cont r 12) (String (cont r 6) (String (cont r 0) EmptyString))).

Definition between (lo hi : N) (ch : ascii) : bool :=
  ((lo <=? N_of_ascii ch) && (N_of_ascii ch <=? hi))%N.

Definition low6 (ch : ascii) : Z := Z.land (Z.of_N (N_of_ascii ch)) 63%Z.

(** [DecodeRuneInString], the rune only: [RuneError] for an empty string
    and for a first sequence that is not well-formed UTF-8. *)
Definition DecodeRuneInString (s : string) : Z :=
  match s with
  | EmptyString => RuneError
  | String p0 s1 =>
      let x := Z.of_N (N_of_ascii p0) in
      if (x <? 128)%Z then x
      else if between 194 223 p0 then
        match s1 with
        | String p1 _ =>
            if between 128 191 p1
            then Z.lor (Z.shiftl (Z.land x 31%Z) 6%Z) (low6 p1)
            else RuneError
        | _ => RuneError
        end
      else if between 224 239 p0 then
        match s1 with
        | String p1 (String p2 _) =>
            let lo := if (x =? 224)%Z then 160%N else 128%N in
            let hi := if (x =? 237)%Z then 159%N else 191%N in
            if between lo hi p1 && between 128 191 p2
            then Z.lor (Z.lor (Z.shiftl (Z.land x 15%Z) 12%Z) (Z.shiftl (low6 p1) 6%Z))
                       (low6 p2)
            else RuneError
        | _ => RuneError
        end
      else if between 240 244 p0 then
        match s1 with
        | String p1 (String p2 (String p3 _)) =>
            let lo := if (x =? 240)%Z then 144%N else 128%N in
            let hi := if (x =? 244)%Z then 143%N else 191%N in
            if between lo hi p1 && between 128 191 p2 && between 128 191 p3
            then Z.lor (Z.lor (Z.lor (Z.shiftl (Z.land x 7%Z) 18%Z)
                                     (Z.shiftl (low6 p1) 12%Z))
                              (Z.shiftl (low6 p2) 6%Z))
                       (low6 p3)
            else RuneError
        | _ => RuneError
        end
      else RuneError
  end.

End utf8.

Module unicode.

(** [IsSpace]: the White_Space property. *)
Definition IsSpace (r : Z) : bool :=
  ((9 <=? r) && (r <=? 13) || (r =? 32) || (r =? 133) || (r =? 160)
   || (r =? 5760) || (8192 <=? r) && (r <=? 8202) || (r =? 8232) || (r =? 8233)
   || (r =? 8239) || (r =? 8287) || (r =? 12288))%Z.

End unicode.

(** ** Package io, and the two writers this package creates *)

Module io.

(** An [io.Writer].  [Write w p] gives the writer after the call and [None]
    when all of [p] was written, or [Some (n, err)] when the call returned
    the error [err] after [n] bytes: by the interface's contract a call
    that writes less than [len(p)] returns an error.  [StringWriter] tells
    whether the writer also has a [WriteString] method (which then writes
    the bytes of the string as [Write] does). *)
Class Writer (W : Type) : Type := {
  Write : W -> string -> W * option (nat * error);
  StringWriter : bool
}.

End io.

Module bytes.

(** A [bytes.Buffer], by its contents; a write appends and does not fail. *)
Definition Buffer : Type := string.

Definition empty : Buffer := EmptyString.
Definition String (b : Buffer) : string := b.

#[export] Instance Buffer_Writer : io.Writer Buffer := {
  io.Write b p := (b ++ p, None);
  io.StringWriter := true
}.

End bytes.
Export (hints) bytes.

Module os.

(** An open file: what has reached it, whether the handle was closed, and
    how the system will answer: [room] is the number of bytes it still
    takes before a write fails ([None]: no limit) and [closeErr] what
    closing the handle reports. *)
Record File : Type := {
  name : string;
  data : string;
  closed : bool;
  room : option nat;
  closeErr : option error
}.

Definition ErrClosed : error := errorString "file already closed".
Definition ENOSPC : error := errorString "no space left on device".

Definition Write (f : File) (p : string) : File * option (nat * error) :=
  if closed f then (f, Some (0%nat, ErrClosed))
  else match room f with
       | None =>
           ({| name := name f; data := data f ++ p; closed := false;
               room := None; closeErr := closeErr f |}, None)
       | Some r =>
           if (String.length p <=? r)%nat then
             ({| name := name f; data := data f ++ p; closed := false;
                 room := Some (r - String.length p)%nat;
                 closeErr := closeErr f |}, None)
           else
             ({| name := name f; data := data f ++ take r p; closed := false;
                 room := Some 0%nat; closeErr := closeErr f |},
              Some (r, ENOSPC))
       end.

#[export] Instance File_Writer : io.Writer File := {
  io.Write := Write;
  io.StringWriter := true
}.

Definition Close (f : File) : File * option error :=
  if closed f then (f, Some ErrClosed)
  else ({| name := name f; data := data f; closed := true;
           room := room f; closeErr := closeErr f |}, closeErr f).

(** The file system, as far as [os.Create] shows it: for each name, the
    error it reports or the file it opens.  [os.Create] truncates the file
    and returns an open handle. *)
Definition FileSystem : Type := string -> result File.

Definition Create (fs : FileSystem) (name : string) : result File :=
  match fs name with
  | Err e => Err e
  | Ok f =>
      Ok {| name := name; data := EmptyString; closed := false;
            room := room f; closeErr := closeErr f |}
  end.

End os.
Export (hints) os.

(** ** Package bufio *)

Module bufio.

Definition defaultBufSize : nat := 4096.

(** A [bufio.Writer] of the default size: the sticky error, the bytes held
    back ([buf[0:n]]) and the writer underneath. *)
Record Writer (W : Type) : Type := {
  err : option error;
  buf : string;
  wr : W
}.
Arguments err {W} _.
Arguments buf {W} _.
Arguments wr {W} _.

Section Methods.
Context {W : Type} `{io.Writer W}.

(** [NewWriter(w)] for a [w] that is not itself a [*bufio.Writer] with a
    buffer of [defaultBufSize] bytes or more: a new writer with an empty
    buffer.  (Go returns such a [w] as it is; the writers of this
    development are of other types.) *)
Definition NewWriter (w : W) : Writer W :=
  {| err := None; buf := EmptyString; wr := w |}.

Definition Buffered (b : Writer W) : nat := String.length (buf b).
Definition Available (b : Writer W) : nat := defaultBufSize - Buffered b.

Definition Flush (b : Writer W) : Writer W * option error :=
  match err b with
  | Some e => (b, Some e)
  | None =>
      if (Buffered b =? 0)%nat then (b, None)
      else match io.Write (wr b) (buf b) with
           | (w', Some (n, e)) =>
               ({| err := Some e; buf := drop n (buf b); wr := w' |}, Some e)
           | (w', None) =>
               ({| err := None; buf := EmptyString; wr := w' |}, None)
           end
  end.

(** The loop of [WriteString]:
    [for len(s) > b.Available() && b.err == nil].  It gives the writer
    and what is left of [s] when the loop is left, [None] when [fuel]
    turns do not reach that point. *)
Fixpoint writeStringLoop (fuel : nat) (b : Writer W) (s : string)
  : option (Writer W * string) :=
  if (Available b <? String.length s)%nat && isNil (err b) then
    match fuel with
    | O => None
    | S fuel' =>
        if (Buffered b =? 0)%nat && io.StringWriter then
          match io.Write (wr b) s with
          | (w', None) =>
              writeStringLoop fuel' {| err := None; buf := buf b; wr := w' |}
                EmptyString
          | (w', Some (n, e)) =>
              writeStringLoop fuel' {| err := Some e; buf := buf b; wr := w' |}
                (drop n s)
          end
        else
          let n := Available b in
          let b1 := {| err := err b; buf := buf b ++ take n s; wr := wr b |} in
          writeStringLoop fuel' (fst (Flush b1)) (drop n s)
    end
  else Some (b, s).

Definition WriteString (b : Writer W) (s : string) : Writer W * option error :=
  match writeStringLoop (2 + String.length s) b s with
  | Some (b', s') =>
      match err b' with
      | Some e => (b', Some e)
      | None => ({| err := None; buf := buf b' ++ s'; wr := wr b' |}, None)
      end
  | None => (b, err b)
  end.

Definition WriteByte (b : Writer W) (c : ascii) : Writer W * option error :=
  match err b with
  | Some e => (b, Some e)
  | None =>
      let b1 := if (Available b <=? 0)%nat then fst (Flush b) else b in
      match err b1 with
      | Some e => (b1, Some e)
      | None =>
          ({| err := None; buf := buf b1 ++ String c EmptyString; wr := wr b1 |},
           None)
      end
  end.

Definition WriteRune (b : Writer W) (r : Z) : Writer W * option error :=
  if ((0 <=? r) && (r <? utf8.RuneSelf))%Z then WriteByte b (char_of_N (Z.to_N r))
  else
    match err b with
    | Some e => (b, Some e)
    | None =>
        let put (b : Writer W) :=
          ({| err := None; buf := buf b ++ utf8.EncodeRune r; wr := wr b |}, None) in
        if (Available b <? utf8.UTFMax)%nat then
          let b1 := fst (Flush b) in
          match err b1 with
          | Some e => (b1, Some e)
          | None =>
              if (Available b1 <? utf8.UTFMax)%nat
              then WriteString b1 (utf8.EncodeRune r)
              else put b1
          end
        else put b
    end.

End Methods.

End bufio.

(** ** Package encoding/csv *)

Module csv.

(** A [csv.Writer].  [records] is a history, not a field of the Go type:
    the records handed to [Write] so far, oldest first.  No operation
    reads it. *)
Record Writer (W : Type) : Type := {
  Comma : Z;
  UseCRLF : bool;
  w : bufio.Writer W;
  records : list (list string)
}.
Arguments Comma {W} _.
Arguments UseCRLF {W} _.
Arguments w {W} _.
Arguments records {W} _.

Definition errInvalidDelim : error :=
  errorString "csv: invalid field or comment delimiter".

Definition validDelim (r : Z) : bool :=
  (negb (r =? 0) && negb (r =? 34) && negb (r =? 13) && negb (r =? 10)
   && utf8.ValidRune r && negb (r =? utf8.RuneError))%Z.

Definition isQuoteOrBreak (ch : ascii) : bool :=
  Ascii.eqb ch dquote || Ascii.eqb ch CR || Ascii.eqb ch LF.

Fixpoint anyByte (p : ascii -> bool) (s : string) : bool :=
  match s with
  | EmptyString => false
  | String ch s' => p ch || anyByte p s'
  end.

Definition fieldNeedsQuotes (comma : Z) (field : string) : bool :=
  match field with
  | EmptyString => false
  | _ =>
      if String.eqb field "\." then true
      else if
        (if (comma <? utf8.RuneSelf)%Z
         then anyByte (fun c => isQuoteOrBreak c
                                || Ascii.eqb c (char_of_N (Z.to_N (comma mod 256))))
                      field
         else contains_sub field (utf8.EncodeRune comma)
              || anyByte isQuoteOrBreak field)
      then true
      else unicode.IsSpace (utf8.DecodeRuneInString field)
  end.

Section Methods.
Context {W : Type} `{io.Writer W}.

Definition NewWriter (writer : W) : Writer W :=
  {| Comma := 44; UseCRLF := false; w := bufio.NewWriter writer; records := [] |}.

Definition withComma (cw : Writer W) (r : Z) : Writer W :=
  {| Comma := r; UseCRLF := UseCRLF cw; w := w cw; records := records cw |}.

(** A step on the buffered writer, and steps in sequence: the first
    error ends the sequence and is its result. *)
Definition step : Type := bufio.Writer W -> bufio.Writer W * option error.

Definition done : step := fun b => (b, None).

Definition andThen (m1 m2 : step) : step :=
  fun b =>
    match m1 b with
    | (b1, Some e) => (b1, Some e)
    | (b1, None) => m2 b1
    end.

Local Notation "m1 ;; m2" := (andThen m1 m2) (at level 61, right associativity).

Definition WriteString (s : string) : step := fun b => bufio.WriteString b s.
Definition WriteByte (c : ascii) : step := fun b => bufio.WriteByte b c.
Definition WriteRune (r : Z) : step := fun b => bufio.WriteRune b r.

Definition writeSpecial (useCRLF : bool) (ch : ascii) : step :=
  if Ascii.eqb ch dquote then WriteString (String dquote (String dquote EmptyString))
  else if Ascii.eqb ch CR then (if useCRLF then done else WriteByte CR)
  else if useCRLF then WriteString (String CR (String LF EmptyString))
  else WriteByte LF.

(** The body of a quoted field, [for len(field) > 0 { ... }]: [run] is
    the stretch without a quote or a line break read so far in the
    current turn; it is written when the stretch ends. *)
Fixpoint writeQuoted (useCRLF : bool) (run field : string) : step :=
  match field with
  | EmptyString =>
      match run with
      | EmptyString => done
      | _ => WriteString run
      end
  | String ch rest =>
      if isQuoteOrBreak ch
      then WriteString run ;; writeSpecial useCRLF ch ;;
           writeQuoted useCRLF EmptyString rest
      else writeQuoted useCRLF (run ++ String ch EmptyString) rest
  end.

Definition writeField (comma : Z) (useCRLF : bool) (field : string) : step :=
  if negb (fieldNeedsQuotes comma field) then WriteString field
  else WriteByte dquote ;; writeQuoted useCRLF EmptyString field ;; WriteByte dquote.

Fixpoint writeFields (comma : Z) (useCRLF : bool) (first : bool)
  (record : list string) : step :=
  match record with
  | [] => done
  | field :: rest =>
      (if first then done else WriteRune comma) ;;
      writeField comma useCRLF field ;;
      writeFields comma useCRLF false rest
  end.

Definition Write (cw : Writer W) (record : list string) : Writer W * option error :=
  let log := (records cw ++ [record])%list in
  if negb (validDelim (Comma cw)) then
    ({| Comma := Comma cw; UseCRLF := UseCRLF cw; w := w cw; records := log |},
     Some errInvalidDelim)
  else
    let '(b, e) :=
      (writeFields (Comma cw) (UseCRLF cw) true record ;;
       (if UseCRLF cw then WriteString (String CR (String LF EmptyString))
        else WriteByte LF)) (w cw) in
    ({| Comma := Comma cw; UseCRLF := UseCRLF cw; w := b; records := log |}, e).

Definition Flush (cw : Writer W) : Writer W :=
  {| Comma := Comma cw; UseCRLF := UseCRLF cw; w := fst (bufio.Flush (w cw));
     records := records cw |}.

End Methods.

End csv.

(** ** The values a row holds *)

Module time.

(** A [time.Time], by what its two formatting methods return: the layout
    language of package time is not modelled. *)
Record Time : Type := {
  Format : string -> string;
  String : string
}.

End time.

(** A value of any other dynamic type, by what the capabilities [toString]
    looks for return on it.  [MarshalJSON] and [Stringer] are [None] when the
    type does not implement [json.Marshaler], respectively [fmt.Stringer];
    [marshal] is what [json.Marshal] returns on the value and [sprint] what
    [fmt.Sprintf] prints for it under the verb v. *)
Record other : Type := {
  MarshalJSON : option (result (list byte));
  Stringer : option string;
  marshal : result (list byte);
  sprint : string
}.

(** The same capabilities as calls, which may panic: the code of a foreign
    type runs in [MarshalJSON] and in [String], and [json.Marshal] lets a
    panic of that code through.  [fmt.Sprintf] recovers from such a panic
    and returns in any case, so [sprint] stands as it is. *)
Record foreign : Type := {
  callMarshalJSON : option (outcome (result (list byte)));
  callString : option (outcome string);
  callMarshal : outcome (result (list byte))
}.

(** The calls on a value none of whose methods panics. *)
Definition returning (val : other) : foreign :=
  {| callMarshalJSON :=
       match MarshalJSON val with
       | Some r => Some (Returns r)
       | None => None
       end;
     callString :=
       match Stringer val with
       | Some s => Some (Returns s)
       | None => None
       end;
     callMarshal := Returns (marshal val) |}.

(** The [any] that [rows.Scan] fills in: [nil], one of the types of the type
    switch of [toString], or another type. *)
Inductive any : Type :=
| VNil
| VString (val : string)
| VBytes (val : list byte)
| VBool (val : bool)
| VInt (val : Z)
| VInt8 (val : Z)
| VInt16 (val : Z)
| VInt32 (val : Z)
| VInt64 (val : Z)
| VUint (val : Z)
| VUint8 (val : Z)
| VUint16 (val : Z)
| VUint32 (val : Z)
| VUint64 (val : Z)
| VTime (val : time.Time)
| VFloat32 (val : float)
| VFloat64 (val : float)
| VOther (val : other).

Definition int64 (z : Z) : Z := sint 64 z.
Definition uint64 (z : Z) : Z := uint 64 z.
Definition float64 (f : float) : float := f.

Module fmt.

(** [fmt.Sprintf(format, val)] for a float, and [fmt.Sprintf("%v", v)]. *)
Definition Sprintf (format : string) (val : float) : string :=
  sprintf val format.

Definition Sprint (v : other) : string := sprint v.

(** [fmt.Errorf(prefix + "%w", err)]. *)
Definition Errorf (prefix : string) (err : error) : error :=
  wrapError (prefix ++ Error err) err.

End fmt.

Module json.
Definition Marshal (v : other) : result (list byte) := marshal v.
End json.

(** ** Package database/sql *)

Module sql.

(** A [*sql.Rows]: the answer of [Columns], the rows still to come, each
    with what [Scan] will find in it (the driver's values, or the error
    that makes [Scan] fail), and the error [Err] reports once [Next] has
    returned false. *)
Record Rows : Type := {
  columns : result (list string);
  pending : list (result (list any));
  lasterr : option error
}.

Definition Columns (rs : Rows) : result (list string) := columns rs.

(** [rows.Scan(dest...)] on the current row, with [ndest] destinations of
    type [*any]: every value is stored as it is, unless the number of
    destinations is not the number of columns of the row. *)
Definition Scan (lastcols : result (list any)) (ndest : nat) : result (list any) :=
  match lastcols with
  | Err e => Err e
  | Ok vals =>
      if (List.length vals =? ndest)%nat then Ok vals
      else Err (errorString
                  ("sql: expected "
                   ++ strconv.Itoa (Z.of_nat (List.length vals))
                   ++ " destination arguments in Scan, not "
                   ++ strconv.Itoa (Z.of_nat ndest)))
  end.

Definition Err (rs : Rows) : option error := lasterr rs.

End sql.

(** ** The converter *)

(** [CsvPreProcessorFunc]: the row and the column names to whether the row is
    written and the row to write. *)
Definition CsvPreProcessorFunc : Type :=
  list string -> list string -> bool * list string.

(** The constants of [ByteArrayConverter] ([String_] is Go's [String]). *)
Definition String_ : Z := 0.
Definition StdBase64 : Z := 1.
Definition URLBase64 : Z := 2.
Definition RawStdBase64 : Z := 3.
Definition RawURLBase64 : Z := 4.
Definition Hex : Z := 5.

Record Converter : Type := {
  Headers : list string;
  WriteHeaders : bool;
  TimeFormat : string;
  FloatFormat : string;
  Delimiter : Z;
  ByteArrayConverter : Z;
  rows : sql.Rows;
  rowPreProcessor : option CsvPreProcessorFunc
}.

Definition New (rows : sql.Rows) : Converter :=
  {| Headers := []; WriteHeaders := true; TimeFormat := ""; FloatFormat := "";
     Delimiter := 44; ByteArrayConverter := 0; rows := rows;
     rowPreProcessor := None |}.

(** The methods of [Converter]. *)
Module Converter.

Definition SetRowPreProcessor (c : Converter) (processor : CsvPreProcessorFunc)
  : Converter :=
  {| Headers := Headers c; WriteHeaders := WriteHeaders c;
     TimeFormat := TimeFormat c; FloatFormat := FloatFormat c;
     Delimiter := Delimiter c; ByteArrayConverter := ByteArrayConverter c;
     rows := rows c; rowPreProcessor := Some processor |}.

Definition quoteCutset : string := String dquote EmptyString.

(** [toString]: the type switch, then the three fallbacks. *)
Definition toString (c : Converter) (v : any) : string :=
  match v with
  | VNil => ""
  | VString val => val
  | VBytes val =>
      if (ByteArrayConverter c =? String_)%Z then string_of_list_byte val
      else if (ByteArrayConverter c =? StdBase64)%Z
      then base64.EncodeToString base64.StdEncoding val
      else if (ByteArrayConverter c =? URLBase64)%Z
      then base64.EncodeToString base64.URLEncoding val
      else if (ByteArrayConverter c =? RawStdBase64)%Z
      then base64.EncodeToString base64.RawStdEncoding val
      else if (ByteArrayConverter c =? RawURLBase64)%Z
      then base64.EncodeToString base64.RawURLEncoding val
      else if (ByteArrayConverter c =? Hex)%Z then hex.EncodeToString val
      else string_of_list_byte val
  | VBool val => strconv.FormatBool val
  | VInt val => strconv.Itoa (sint 64 val)
  | VInt8 val => strconv.FormatInt (int64 (sint 8 val)) 10
  | VInt16 val => strconv.FormatInt (int64 (sint 16 val)) 10
  | VInt32 val => strconv.FormatInt (int64 (sint 32 val)) 10
  | VInt64 val => strconv.FormatInt (sint 64 val) 10
  | VUint val => strconv.FormatUint (uint64 (uint 64 val)) 10
  | VUint8 val => strconv.FormatUint (uint64 (uint 8 val)) 10
  | VUint16 val => strconv.FormatUint (uint64 (uint 16 val)) 10
  | VUint32 val => strconv.FormatUint (uint64 (uint 32 val)) 10
  | VUint64 val => strconv.FormatUint (uint 64 val) 10
  | VTime val =>
      if negb (String.eqb (TimeFormat c) "") then time.Format val (TimeFormat c)
      else time.String val
  | VFloat32 val =>
      if negb (String.eqb (FloatFormat c) "") then fmt.Sprintf (FloatFormat c) val
      else strconv.FormatFloat (float64 val) "f" (-1) 32
  | VFloat64 val =>
      if negb (String.eqb (FloatFormat c) "") then fmt.Sprintf (FloatFormat c) val
      else strconv.FormatFloat val "f" (-1) 64
  | VOther val =>
      let generic :=
        match json.Marshal val with
        | Ok jsonData => strings.Trim (string_of_list_byte jsonData) quoteCutset
        | Err _ => fmt.Sprint val
        end in
      let described :=
        match Stringer val with
        | Some s => s
        | None => generic
        end in
      match MarshalJSON val with
      | Some (Ok jsonData) => strings.Trim (string_of_list_byte jsonData) quoteCutset
      | Some (Err _) => described
      | None => described
      end
  end.

(** [toString] with the panics of Go written out.  The calls that can panic
    are those of strconv and those that run the methods of a value of
    another type, which [methods] gives for each such value.  The type
    switch, the assertions [v.(T)] with two results, the conversions, the
    encoders, the methods of [time.Time], [strings.Trim] and [fmt.Sprintf]
    do not panic. *)
Definition toStringOrPanic (methods : other -> foreign) (c : Converter) (v : any)
  : outcome string :=
  match v with
  | VNil => Returns ""
  | VString val => Returns val
  | VBytes val =>
      Returns
        (if (ByteArrayConverter c =? String_)%Z then string_of_list_byte val
         else if (ByteArrayConverter c =? StdBase64)%Z
         then base64.EncodeToString base64.StdEncoding val
         else if (ByteArrayConverter c =? URLBase64)%Z
         then base64.EncodeToString base64.URLEncoding val
         else if (ByteArrayConverter c =? RawStdBase64)%Z
         then base64.EncodeToString base64.RawStdEncoding val
         else if (ByteArrayConverter c =? RawURLBase64)%Z
         then base64.EncodeToString base64.RawURLEncoding val
         else if (ByteArrayConverter c =? Hex)%Z then hex.EncodeToString val
         else string_of_list_byte val)
  | VBool val => Returns (strconv.FormatBool val)
  | VInt val => strconv.ItoaOrPanic (sint 64 val)
  | VInt8 val => strconv.FormatIntOrPanic (int64 (sint 8 val)) 10
  | VInt16 val => strconv.FormatIntOrPanic (int64 (sint 16 val)) 10
  | VInt32 val => strconv.FormatIntOrPanic (int64 (sint 32 val)) 10
  | VInt64 val => strconv.FormatIntOrPanic (sint 64 val) 10
  | VUint val => strconv.FormatUintOrPanic (uint64 (uint 64 val)) 10
  | VUint8 val => strconv.FormatUintOrPanic (uint64 (uint 8 val)) 10
  | VUint16 val => strconv.FormatUintOrPanic (uint64 (uint 16 val)) 10
  | VUint32 val => strconv.FormatUintOrPanic (uint64 (uint 32 val)) 10
  | VUint64 val => strconv.FormatUintOrPanic (uint 64 val) 10
  | VTime val =>
      Returns
        (if negb (String.eqb (TimeFormat c) "") then time.Format val (TimeFormat c)
         else time.String val)
  | VFloat32 val =>
      if negb (String.eqb (FloatFormat c) "")
      then Returns (fmt.Sprintf (FloatFormat c) val)
      else strconv.FormatFloatOrPanic (float64 val) "f" (-1) 32
  | VFloat64 val =>
      if negb (String.eqb (FloatFormat c) "")
      then Returns (fmt.Sprintf (FloatFormat c) val)
      else strconv.FormatFloatOrPanic val "f" (-1) 64
  | VOther val =>
      let generic :=
        match callMarshal (methods val) with
        | Panics reason => Panics reason
        | Returns (Ok jsonData) =>
            Returns (strings.Trim (string_of_list_byte jsonData) quoteCutset)
        | Returns (Err _) => Returns (fmt.Sprint val)
        end in
      let described :=
        match callString (methods val) with
        | Some (Panics reason) => Panics reason
        | Some (Returns s) => Returns s
        | None => generic
        end in
      match callMarshalJSON (methods val) with
      | Some (Panics reason) => Panics reason
      | Some (Returns (Ok jsonData)) =>
          Returns (strings.Trim (string_of_list_byte jsonData) quoteCutset)
      | Some (Returns (Err _)) => described
      | None => described
      end
  end.

(** [row := make([]string, count); for i := range columnNames
    { row[i] = c.toString(values[i]) }], [values] holding [count] values. *)
Definition formatRow (c : Converter) (values : list any) : list string :=
  map (toString c) values.

Section Write.
Context {W : Type} `{io.Writer W}.

(** The loop [for rows.Next() { ... }] of [Write], over the rows still to
    come: [rows.Next()] is true as long as there is one.  [rows.Scan] stores
    the values of the row in [values] through [valuePtrs], all of them or,
    on an error, none that is used.  The loop gives the rows left when it is
    left, the csv writer, and the error of a [return] inside the loop
    ([None] when the loop ran to the end of the rows). *)
Fixpoint writeRows (c : Converter) (columnNames : list string) (count : nat)
  (csvWriter : csv.Writer W) (pending : list (result (list any)))
  : list (result (list any)) * csv.Writer W * option error :=
  match pending with
  | [] => ([], csvWriter, None)
  | lastcols :: pending' =>
      match sql.Scan lastcols count with
      | Err err => (pending', csvWriter, Some err)
      | Ok values =>
          let row := formatRow c values in
          let '(writeRow, row) :=
            match rowPreProcessor c with
            | Some processor => processor row columnNames
            | None => (true, row)
            end in
          if writeRow then
            match csv.Write csvWriter row with
            | (csvWriter, Some err) =>
                (pending', csvWriter,
                 Some (fmt.Errorf "failed to write data row to csv " err))
            | (csvWriter, None) =>
                writeRows c columnNames count csvWriter pending'
            end
          else writeRows c columnNames count csvWriter pending'
      end
  end.

(** [Write].  Besides the error the Go function returns, the result holds
    the state it leaves behind: the rows not read and the local
    [csvWriter], with [writer] under it. *)
Definition Write (c : Converter) (writer : W)
  : list (result (list any)) * csv.Writer W * option error :=
  let rows := rows c in
  let csvWriter := csv.NewWriter writer in
  let csvWriter :=
    if negb (Delimiter c =? 0)%Z then csv.withComma csvWriter (Delimiter c)
    else csvWriter in
  match sql.Columns rows with
  | Err err => (sql.pending rows, csvWriter, Some err)
  | Ok columnNames =>
      let '(csvWriter, err) :=
        if WriteHeaders c then
          let headers :=
            if (0 <? List.length (Headers c))%nat then Headers c else columnNames in
          csv.Write csvWriter headers
        else (csvWriter, None) in
      match err with
      | Some err =>
          (sql.pending rows, csvWriter,
           Some (fmt.Errorf "failed to write headers: " err))
      | None =>
          let count := List.length columnNames in
          match writeRows c columnNames count csvWriter (sql.pending rows) with
          | (pending, csvWriter, Some err) => (pending, csvWriter, Some err)
          | (pending, csvWriter, None) =>
              let err := sql.Err rows in
              let csvWriter := csv.Flush csvWriter in
              (pending, csvWriter, err)
          end
      end
  end.

(** The writer handed to [Write], as the call leaves it. *)
Definition writerOf (st : list (result (list any)) * csv.Writer W * option error)
  : W :=
  bufio.wr (csv.w (snd (fst st))).

Definition errorOf (st : list (result (list any)) * csv.Writer W * option error)
  : option error :=
  snd st.

End Write.

(** [WriteString] *)
Definition WriteString (c : Converter) : string * option error :=
  let buffer := bytes.empty in
  let st := Write c buffer in
  (bytes.String (writerOf st), errorOf st).

(** [WriteFile].  The result is the file, when [os.Create] opened one, as the
    call leaves it, and the error returned. *)
Definition WriteFile (fs : os.FileSystem) (c : Converter) (csvFileName : string)
  : option os.File * option error :=
  match os.Create fs csvFileName with
  | Err err => (None, Some err)
  | Ok f =>
      let st := Write c f in
      let f := writerOf st in
      match errorOf st with
      | Some err =>
          let '(f, _) := os.Close f in
          (Some f, Some err)
      | None =>
          let '(f, err) := os.Close f in
          (Some f, err)
      end
  end.

(** [String] *)
Definition String (c : Converter) : string :=
  let '(csv, err) := WriteString c in
  match err with
  | Some _ => ""
  | None => csv
  end.

End Converter.

(** The functions of the package: each converts with the settings of [New]. *)

Definition WriteFile (fs : os.FileSystem) (csvFileName : string) (rows : sql.Rows)
  : option os.File * option error :=
  Converter.WriteFile fs (New rows) csvFileName.

Definition WriteString (rows : sql.Rows) : string * option error :=
  Converter.WriteString (New rows).

Definition Write {W : Type} `{io.Writer W} (writer : W) (rows : sql.Rows)
  : list (result (list any)) * csv.Writer W * option error :=
  Converter.Write (New rows) writer.


(** * What is proved

    The definitions from here on serve the statements: the words of the
    specification written as functions, to compare with the code above, and
    the inputs of the examples. *)

Local Open Scope list_scope.

(** ** Strings *)

Fixpoint allBytes (p : ascii -> bool) (s : string) : bool :=
  match s with
  | EmptyString => true
  | String ch s' => p ch && allBytes p s'
  end.

Definition lowerHexDigit (ch : ascii) : bool := contains_byte "0123456789abcdef" ch.

(** [n] times the byte [c]. *)
Fixpoint replicate (n : nat) (c : ascii) : string :=
  match n with
  | O => EmptyString
  | S n' => String c (replicate n' c)
  end.

Definition firstByte (s : string) : option ascii :=
  match s with
  | EmptyString => None
  | String ch _ => Some ch
  end.

Fixpoint lastByte (s : string) : option ascii :=
  match s with
  | EmptyString => None
  | String ch EmptyString => Some ch
  | String _ s' => lastByte s'
  end.

Definition line (s : string) : string := (s ++ String LF EmptyString)%string.

Definition quoted (s : string) : string :=
  String dquote (s ++ String dquote EmptyString)%string.

Definition backslash : ascii := "092"%char.

(** ** Alphabets *)

(** Every sextet is found again under the character that encodes it. *)
Definition alphabet_ok (enc : base64.Encoding) : bool :=
  forallb (fun n =>
             match base64.decodeMap enc (char_at (base64.encode enc) (N.of_nat n)) with
             | Some i => N.eqb i (N.of_nat n)
             | None => false
             end) (seq 0 64).

(** The padding character is no character of the alphabet and no line break. *)
Definition padding_ok (enc : base64.Encoding) : bool :=
  match base64.padChar enc with
  | Some p => isNil (base64.decodeMap enc p) && negb (base64.isNewline p)
  | None => true
  end.

(** ** The buffered writer *)

(** The number of turns the loop of [bufio.WriteString] still needs. *)
Definition turns {W : Type} (b : bufio.Writer W) (s : string) : nat :=
  (String.length s + if (bufio.Buffered b =? 0)%nat then 0 else 1)%nat.

(** [cw] with another history. *)
Definition withRecords {W : Type} (cw : csv.Writer W) (log : list (list string))
  : csv.Writer W :=
  {| csv.Comma := csv.Comma cw; csv.UseCRLF := csv.UseCRLF cw; csv.w := csv.w cw;
     csv.records := log |}.

(** The writer under a csv writer. *)
Definition under {W : Type} (cw : csv.Writer W) : W := bufio.wr (csv.w cw).

(** A step leaves a property of the writer underneath as it is. *)
Definition keeps {W : Type} (P : W -> Prop) (m : @csv.step W) : Prop :=
  forall b : bufio.Writer W, P (bufio.wr b) -> P (bufio.wr (fst (m b))).

(** All the bytes a buffered writer over a [bytes.Buffer] has taken: those
    that reached the buffer underneath and those it holds back. *)
Definition stream (b : bufio.Writer bytes.Buffer) : string :=
  (bufio.wr b ++ bufio.buf b)%string.

Definition csvStream (cw : csv.Writer bytes.Buffer) : string := stream (csv.w cw).

(** A step, on a writer without error, succeeds and adds [text]. *)
Definition appends (m : @csv.step bytes.Buffer) (text : string) : Prop :=
  forall b : bufio.Writer bytes.Buffer,
    bufio.err b = None ->
    snd (m b) = None /\ bufio.err (fst (m b)) = None
    /\ stream (fst (m b)) = (stream b ++ text)%string.

(** ** The text of a record

    The grammar of encoding/csv as a function from a record to its line: a
    field that needs quotes stands in quotes with each quote in it doubled,
    fields are separated by the delimiter, a line break ends the record. *)

Definition encodeSpecial (useCRLF : bool) (ch : ascii) : string :=
  if Ascii.eqb ch dquote then String dquote (String dquote EmptyString)
  else if Ascii.eqb ch CR then (if useCRLF then EmptyString else String CR EmptyString)
  else if useCRLF then String CR (String LF EmptyString)
  else String LF EmptyString.

Fixpoint encodeQuoted (useCRLF : bool) (field : string) : string :=
  match field with
  | EmptyString => EmptyString
  | String ch rest =>
      ((if csv.isQuoteOrBreak ch then encodeSpecial useCRLF ch
        else String ch EmptyString)
       ++ encodeQuoted useCRLF rest)%string
  end.

Definition encodeField (comma : Z) (useCRLF : bool) (field : string) : string :=
  if csv.fieldNeedsQuotes comma field
  then String dquote (encodeQuoted useCRLF field ++ String dquote EmptyString)%string
  else field.

Fixpoint encodeFields (comma : Z) (useCRLF : bool) (first : bool)
  (record : list string) : string :=
  match record with
  | [] => EmptyString
  | field :: rest =>
      ((if first then EmptyString else utf8.EncodeRune comma)
       ++ encodeField comma useCRLF field
       ++ encodeFields comma useCRLF false rest)%string
  end.

Definition encodeRecord (comma : Z) (useCRLF : bool) (record : list string) : string :=
  (encodeFields comma useCRLF true record
   ++ (if useCRLF then String CR (String LF EmptyString) else String LF EmptyString))%string.

Fixpoint encodeRecords (comma : Z) (useCRLF : bool) (records : list (list string))
  : string :=
  match records with
  | [] => EmptyString
  | record :: rest =>
      (encodeRecord comma useCRLF record ++ encodeRecords comma useCRLF rest)%string
  end.

(** The csv writer over a buffer in memory, with the delimiter [comma], has
    met no error and has taken, flushed or not, the text of the records
    handed to it. *)
Definition faithful (comma : Z) (cw : csv.Writer bytes.Buffer) : Prop :=
  csv.Comma cw = comma /\ csv.UseCRLF cw = false
  /\ bufio.err (csv.w cw) = None
  /\ csvStream cw = encodeRecords comma false (csv.records cw).

(** ** The rows of a conversion, in the words of the specification *)

(** The header row: the configured headers when there are any, the column
    names otherwise. *)
Definition headerRow (c : Converter) (columnNames : list string) : list string :=
  match Headers c with
  | [] => columnNames
  | _ :: _ => Headers c
  end.

(** The header rows of a conversion: one when headers are asked for, none
    otherwise. *)
Definition headerRows (c : Converter) (columnNames : list string)
  : list (list string) :=
  if WriteHeaders c then [headerRow c columnNames] else [].

(** The row written for the values of one row: each cell formatted, then the
    pre-processor, which may replace the row or drop it. *)
Definition dataRow (c : Converter) (columnNames : list string) (values : list any)
  : option (list string) :=
  let row := map (Converter.toString c) values in
  match rowPreProcessor c with
  | None => Some row
  | Some f => if fst (f row columnNames) then Some (snd (f row columnNames)) else None
  end.

(** The data rows: row after row, until the rows end or one cannot be
    decoded. *)
Fixpoint dataRows (c : Converter) (columnNames : list string)
  (pending : list (result (list any))) : list (list string) :=
  match pending with
  | [] => []
  | lastcols :: pending' =>
      match sql.Scan lastcols (List.length columnNames) with
      | Err _ => []
      | Ok values =>
          match dataRow c columnNames values with
          | Some row => row :: dataRows c columnNames pending'
          | None => dataRows c columnNames pending'
          end
      end
  end.

Definition isPrefix {A : Type} (l1 l2 : list A) : Prop := exists l, l2 = l1 ++ l.

(** The row can be decoded into [count] values. *)
Definition decodes (count : nat) (lastcols : result (list any)) : Prop :=
  exists values, sql.Scan lastcols count = Ok values.

(** The delimiter in force: the comma, unless the converter names another. *)
Definition delimiter (c : Converter) : Z :=
  if (Delimiter c =? 0)%Z then 44%Z else Delimiter c.

(** [c.ByteArrayConverter = k] *)
Definition withByteArrayConverter (c : Converter) (k : Z) : Converter :=
  {| Headers := Headers c; WriteHeaders := WriteHeaders c;
     TimeFormat := TimeFormat c; FloatFormat := FloatFormat c;
     Delimiter := Delimiter c; ByteArrayConverter := k;
     rows := rows c; rowPreProcessor := rowPreProcessor c |}.

(** ** Inputs of the examples *)

Definition noRows : sql.Rows :=
  {| sql.columns := Ok ["id"; "name"]; sql.pending := []; sql.lasterr := None |}.

Definition twoRows : sql.Rows :=
  {| sql.columns := Ok ["id"; "name"];
     sql.pending := [Ok [VInt64 1; VString "Alice"]; Ok [VInt64 2; VString "Bob"]];
     sql.lasterr := None |}.

(** What [Scan] returns on rows that were closed after [Next]. *)
Definition decodeError : error := errorString "sql: Rows are closed".

(** The second of three rows cannot be decoded. *)
Definition rowsDecodeFailure : sql.Rows :=
  {| sql.columns := Ok ["id"; "name"];
     sql.pending := [Ok [VInt64 1; VString "Alice"]; Err decodeError;
                     Ok [VInt64 3; VString "Carol"]];
     sql.lasterr := None |}.

Definition connectionLost : error := errorString "driver: bad connection".

(** The rows end after the first one with an error of the connection. *)
Definition rowsCutShort : sql.Rows :=
  {| sql.columns := Ok ["id"; "name"];
     sql.pending := [Ok [VInt64 1; VString "Alice"]];
     sql.lasterr := Some connectionLost |}.

(** A value whose [MarshalJSON] returns the text abc inside two pairs of
    quotes; [json.Marshal] refuses such a text. *)
Definition doublyQuoted : other :=
  {| MarshalJSON := Some (Ok (list_byte_of_string (quoted (quoted "abc"))));
     Stringer := None;
     marshal := Err (errorString "json: error calling MarshalJSON");
     sprint := "{abc}" |}.

(** A value of a string type other than [string] that holds abc and a quote:
    [json.Marshal] gives the string in quotes with the quote in it escaped. *)
Definition endsInQuote : other :=
  {| MarshalJSON := None;
     Stringer := None;
     marshal := Ok (list_byte_of_string
                      (quoted ("abc" ++ String backslash (String dquote EmptyString))%string));
     sprint := ("abc" ++ String dquote EmptyString)%string |}.

Definition skipAll : CsvPreProcessorFunc := fun row _ => (false, row).

(** A file system with one full disk: the file opens and takes no byte;
    closing it reports an error. *)
Definition quotaExceeded : error := errorString "close: disk quota exceeded".

Definition fullDisk : os.FileSystem :=
  fun name =>
    Ok {| os.name := name; os.data := "stale"; os.closed := true;
          os.room := Some 0%nat; os.closeErr := Some quotaExceeded |}.

(** ** Steps on the buffered writer *)

(** A step keeps a property of the buffered writer. *)
Definition preserves {W : Type} (I : bufio.Writer W -> Prop) (m : @csv.step W)
  : Prop :=
  forall b : bufio.Writer W, I b -> I (fst (m b)).

(** The bytes held back fit the buffer. *)
Definition withinBuffer {W : Type} (b : bufio.Writer W) : Prop :=
  (bufio.Buffered b <= bufio.defaultBufSize)%nat.

(** The buffer still takes [text] and one more rune of any length. *)
Definition roomFor {W : Type} (b : bufio.Writer W) (text : string) : Prop :=
  (bufio.Buffered b + String.length text + utf8.UTFMax <= bufio.defaultBufSize)%nat.

(** A step, on a writer without error whose buffer has the room, succeeds,
    adds [text] to the bytes held back and leaves the writer underneath
    alone. *)
Definition buffers {W : Type} (m : @csv.step W) (text : string) : Prop :=
  forall b : bufio.Writer W,
    bufio.err b = None -> roomFor b text ->
    snd (m b) = None /\ bufio.err (fst (m b)) = None
    /\ bufio.wr (fst (m b)) = bufio.wr b
    /\ bufio.buf (fst (m b)) = (bufio.buf b ++ text)%string.

(** ** Two writers side by side *)

(** Two buffered writers in the same state over writers that [R] relates. *)
Definition alike {W1 W2 : Type} (R : W1 -> W2 -> Prop)
  (b1 : bufio.Writer W1) (b2 : bufio.Writer W2) : Prop :=
  bufio.err b1 = bufio.err b2 /\ bufio.buf b1 = bufio.buf b2
  /\ R (bufio.wr b1) (bufio.wr b2).

(** Two steps that take writers alike to writers alike, with the same
    result. *)
Definition similar {W1 W2 : Type} (R : W1 -> W2 -> Prop)
  (m1 : @csv.step W1) (m2 : @csv.step W2) : Prop :=
  forall b1 b2, alike R b1 b2 ->
    alike R (fst (m1 b1)) (fst (m2 b2)) /\ snd (m1 b1) = snd (m2 b2).

Definition alikeCsv {W1 W2 : Type} (R : W1 -> W2 -> Prop)
  (cw1 : csv.Writer W1) (cw2 : csv.Writer W2) : Prop :=
  csv.Comma cw1 = csv.Comma cw2 /\ csv.UseCRLF cw1 = csv.UseCRLF cw2
  /\ csv.records cw1 = csv.records cw2 /\ alike R (csv.w cw1) (csv.w cw2).

(** What a file that takes every write and a buffer in memory have in
    common: the bytes.  [closeErr] is what closing the file will report. *)
Definition fileHolds (closeErr : option error) (f : os.File) (s : bytes.Buffer)
  : Prop :=
  os.data f = s /\ os.closed f = false /\ os.room f = None
  /\ os.closeErr f = closeErr.

(** ** Decimal numbers, read back *)

Definition digitValue (ch : ascii) : option N :=
  let n := N_of_ascii ch in
  if ((48 <=? n) && (n <=? 57))%N then Some (n - 48)%N else None.

(** The number a string of decimal digits stands for, with the weight of the
    position in front of the string (ten to the length). *)
Fixpoint decimal (s : string) : option (N * N) :=
  match s with
  | EmptyString => Some (0%N, 1%N)
  | String ch s' =>
      match digitValue ch, decimal s' with
      | Some d, Some (v, w) => Some (d * w + v, 10 * w)%N
      | _, _ => None
      end
  end.

(** One decimal digit or more, and nothing else. *)
Definition readUint (s : string) : option Z :=
  match s with
  | EmptyString => None
  | _ =>
      match decimal s with
      | Some (v, _) => Some (Z.of_N v)
      | None => None
      end
  end.

(** An unsigned number, or a minus sign and an unsigned number. *)
Definition readInt (s : string) : option Z :=
  match s with
  | String "-"%char s' =>
      match readUint s' with
      | Some v => Some (- v)%Z
      | None => None
      end
  | _ => readUint s
  end.

(** ** Fields that stand as they are *)

(** Letters, digits and the five signs the encodings and the numbers use. *)
Definition plainByte (ch : ascii) : bool :=
  contains_byte
    "ABCDEFGHIJKLMNOPQRSTUVWXYZabcdefghijklmnopqrstuvwxyz0123456789+/-_=" ch.

(** Every character of the alphabet is plain and is not the padding. *)
Definition alphabet_plain (enc : base64.Encoding) : bool :=
  forallb (fun n =>
             let ch := char_at (base64.encode enc) (N.of_nat n) in
             plainByte ch && negb (Ascii.eqb ch base64.StdPadding)) (seq 0 64).

Definition digits_plain : bool :=
  forallb (fun n =>
             let ch := char_at strconv.digits (N.of_nat n) in
             plainByte ch
             && match digitValue ch with
                | Some d => N.eqb d (N.of_nat n)
                | None => false
                end) (seq 0 10).

(** What a plain byte is not: a quote, a line break, the comma, a backslash,
    a byte beyond ASCII or white space. *)
Definition harmless (ch : ascii) : bool :=
  negb (csv.isQuoteOrBreak ch) && negb (Ascii.eqb ch ","%char)
  && negb (Ascii.eqb ch "092"%char) && (N_of_ascii ch <? 128)%N
  && negb (unicode.IsSpace (Z.of_N (N_of_ascii ch))).

(** The values [toString] renders in plain bytes: [nil], the booleans, the
    integers, and byte arrays under a base64 or the hex setting. *)
Definition plainValue (c : Converter) (v : any) : bool :=
  match v with
  | VNil | VBool _ => true
  | VInt _ | VInt8 _ | VInt16 _ | VInt32 _ | VInt64 _ => true
  | VUint _ | VUint8 _ | VUint16 _ | VUint32 _ | VUint64 _ => true
  | VBytes _ => ((StdBase64 <=? ByteArrayConverter c) && (ByteArrayConverter c <=? Hex))%Z
  | _ => false
  end.

(** The padding of a base64 text of [n] bytes. *)
Definition paddingOf (n : nat) : nat := ((3 - n mod 3) mod 3)%nat.

(** ** More inputs *)

Definition withDelimiter (c : Converter) (r : Z) : Converter :=
  {| Headers := Headers c; WriteHeaders := WriteHeaders c;
     TimeFormat := TimeFormat c; FloatFormat := FloatFormat c;
     Delimiter := r; ByteArrayConverter := ByteArrayConverter c;
     rows := rows c; rowPreProcessor := rowPreProcessor c |}.

Definition withoutHeaders (c : Converter) : Converter :=
  {| Headers := Headers c; WriteHeaders := false;
     TimeFormat := TimeFormat c; FloatFormat := FloatFormat c;
     Delimiter := Delimiter c; ByteArrayConverter := ByteArrayConverter c;
     rows := rows c; rowPreProcessor := rowPreProcessor c |}.

Definition columnsUnknown : error := errorString "sql: Rows are closed".

(** Rows that were closed before the conversion: [Columns] fails. *)
Definition closedRows : sql.Rows :=
  {| sql.columns := Err columnsUnknown; sql.pending := []; sql.lasterr := None |}.

(** A disk with no room left, where closing a file reports nothing. *)
Definition noRoom : os.FileSystem :=
  fun name =>
    Ok {| os.name := name; os.data := "stale"; os.closed := true;
          os.room := Some 0%nat; os.closeErr := None |}.

(** A disk that takes every write. *)
Definition roomy : os.FileSystem :=
  fun name =>
    Ok {| os.name := name; os.data := "stale"; os.closed := true;
          os.room := None; os.closeErr := None |}.

(** ** Values and panics *)

(** The types of the type switch of [toString], and [nil]. *)
Definition supported (v : any) : bool :=
  match v with
  | VOther _ => false
  | _ => true
  end.

(** A value with a [String] method that panics (a nil pointer behind the
    interface, say), and the calls on it. *)
Definition brokenStringer : other :=
  {| MarshalJSON := None;
     Stringer := Some "never returned";
     marshal := Err (errorString "json: unsupported type");
     sprint := "<nil>" |}.

Definition nilDereference : string :=
  "runtime error: invalid memory address or nil pointer dereference".

Definition panicking (val : other) : foreign :=
  {| callMarshalJSON := None;
     callString := Some (Panics nilDereference);
     callMarshal := Returns (marshal val) |}.

(** ** A writer that keeps its calls *)

(** A writer of the caller's own that is no [*bufio.Writer] and has no
    [WriteString] method: it keeps the bytes of every call of its [Write],
    oldest first, and answers a call as [answer] tells from the calls before
    it and the bytes handed over ([None]: all written, no error). *)
Record Probe : Type := {
  calls : list string;
  answer : list string -> string -> option (nat * error)
}.

#[export] Instance Probe_Writer : io.Writer Probe := {
  io.Write w p :=
    ({| calls := calls w ++ [p]; answer := answer w |}, answer w (calls w) p);
  io.StringWriter := false
}.

(** ** All the rows *)

(** The rows written for the values of the rows, every one of them: each
    row formatted, then the pre-processor, which may replace it or drop
    it. *)
Fixpoint keptRows (c : Converter) (columnNames : list string)
  (values : list (list any)) : list (list string) :=
  match values with
  | [] => []
  | vs :: rest =>
      match dataRow c columnNames vs with
      | Some row => row :: keptRows c columnNames rest
      | None => keptRows c columnNames rest
      end
  end.

(** Linear arithmetic with division and remainder by constants. *)
Ltac divmod := zify; Z.to_euclidean_division_equations; lia.

(** * Lemmas *)

(** ** Strings *)

Lemma append_assoc (a b c : string) : ((a ++ b) ++ c = a ++ (b ++ c))%string.
Proof. induction a as [|x a IH]; [reflexivity | cbn; now rewrite IH]. Qed.

Lemma append_nil_r (a : string) : (a ++ "")%string = a.
Proof. induction a as [|x a IH]; [reflexivity | cbn; now rewrite IH]. Qed.

Lemma length_append (a b : string) :
  String.length (a ++ b) = (String.length a + String.length b)%nat.
Proof. induction a as [|x a IH]; [reflexivity | cbn; now rewrite IH]. Qed.

Lemma length_take (n : nat) (s : string) :
  String.length (take n s) = Nat.min n (String.length s).
Proof.
  revert s. induction n as [|n IH]; intros [|x s]; cbn; try reflexivity.
  now rewrite IH.
Qed.

Lemma length_drop (n : nat) (s : string) :
  String.length (drop n s) = (String.length s - n)%nat.
Proof.
  revert s. induction n as [|n IH]; intros [|x s]; cbn; try reflexivity.
  now rewrite IH.
Qed.

Lemma take_drop (n : nat) (s : string) : (take n s ++ drop n s)%string = s.
Proof.
  revert s. induction n as [|n IH]; intros [|x s]; cbn; try reflexivity.
  now rewrite IH.
Qed.

Lemma length_zero (s : string) : String.length s = 0%nat -> s = EmptyString.
Proof. destruct s; [reflexivity | discriminate]. Qed.

(** ** strconv: 64 digits are enough *)

Lemma formatBits_enough (base : N) :
  (2 <= base)%N ->
  forall (n k : nat) (u : N) (acc : string),
    (0 < n)%nat -> (u < 2 ^ N.of_nat n)%N ->
    strconv.formatBits (n + k) u base acc = strconv.formatBits n u base acc.
Proof.
  intros Hbase. induction n as [|n IH]; intros k u acc Hn Hu; [lia|].
  cbn [Nat.add strconv.formatBits].
  destruct (u / base =? 0)%N eqn:Hq; [reflexivity|].
  apply N.eqb_neq in Hq.
  assert (Hdiv : (u / base < 2 ^ N.of_nat n)%N).
  { apply N.Div0.div_lt_upper_bound.
    rewrite Nat2N.inj_succ, N.pow_succ_r' in Hu.
    apply N.lt_le_trans with (2 * 2 ^ N.of_nat n)%N; [exact Hu|].
    apply N.mul_le_mono_r. exact Hbase. }
  destruct n as [|n].
  - change (2 ^ N.of_nat 0)%N with 1%N in Hdiv.
    apply N.lt_1_r in Hdiv. contradiction.
  - apply IH; [lia | exact Hdiv].
Qed.

(** [FormatUint] on a number of 64 bits gives all its digits: more turns
    would give the same string.  The numbers [toString] formats are such:
    a [uint 64], or a [sint 64] or its opposite. *)
Lemma FormatUint_enough (i base : Z) (k : nat) :
  (2 <= base)%Z -> (0 <= i < 2 ^ 64)%Z ->
  strconv.formatBits (64 + k) (Z.to_N i) (Z.to_N base) EmptyString
  = strconv.FormatUint i base.
Proof.
  intros Hbase Hi. unfold strconv.FormatUint.
  apply formatBits_enough; [lia | lia |].
  change (N.of_nat 64) with 64%N. lia.
Qed.

Lemma uint_64_range (i : Z) : (0 <= uint 64 i < 2 ^ 64)%Z.
Proof. unfold uint. apply Z.mod_pos_bound. lia. Qed.

Lemma sint_64_range (i : Z) : (- 2 ^ 63 <= sint 64 i < 2 ^ 63)%Z.
Proof.
  unfold sint. change (64 - 1)%Z with 63%Z.
  pose proof (Z.mod_pos_bound (i + 2 ^ 63) (2 ^ 64) ltac:(lia)). lia.
Qed.

(** ** Bytes as numbers *)

Lemma byte_of_to_N (b : byte) : byte_of_N (Byte.to_N b) = b.
Proof.
  unfold byte_of_N.
  pose proof (Byte.to_N_bounded b) as Hb.
  rewrite N.mod_small by lia.
  now rewrite Byte.of_to_N.
Qed.

Lemma to_N_lt (b : byte) : (Byte.to_N b < 256)%N.
Proof. pose proof (Byte.to_N_bounded b). lia. Qed.

Lemma byte_of_N_mod (n m : N) : (n mod 256 = m mod 256)%N -> byte_of_N n = byte_of_N m.
Proof. unfold byte_of_N. now intros ->. Qed.

(** A number below [2 ^ k] shares no bit with a multiple of [2 ^ k], so that
    their bitwise or is their sum. *)
Lemma land_mul_pow2_low (x y k : N) : (y < 2 ^ k)%N -> N.land (x * 2 ^ k) y = 0%N.
Proof.
  intros Hy. apply N.bits_inj. intros n.
  rewrite N.land_spec, N.bits_0.
  destruct (N.lt_ge_cases n k) as [Hn | Hn].
  - rewrite N.mul_pow2_bits_low by assumption. reflexivity.
  - replace (N.testbit y n) with false; [apply andb_false_r|].
    symmetry. destruct (N.eq_dec y 0) as [-> | Hy0]; [apply N.bits_0|].
    apply N.bits_above_log2. apply N.log2_lt_pow2; [lia|].
    apply N.lt_le_trans with (2 ^ k)%N; [assumption|].
    apply N.pow_le_mono_r; lia.
Qed.

Lemma lor_mul_pow2_add (x y k : N) :
  (y < 2 ^ k)%N -> N.lor (x * 2 ^ k) y = (x * 2 ^ k + y)%N.
Proof.
  intros Hy. rewrite <- N.lxor_lor by (apply land_mul_pow2_low; assumption).
  symmetry. apply N.add_nocarry_lxor. apply land_mul_pow2_low; assumption.
Qed.

Lemma lor_shiftl_add (x y k : N) :
  (y < 2 ^ k)%N -> N.lor (N.shiftl x k) y = (x * 2 ^ k + y)%N.
Proof. intros. rewrite N.shiftl_mul_pow2. now apply lor_mul_pow2_add. Qed.

(** ** base64: the sextets of a group and the bytes of a quantum *)

Lemma sextet_divmod (v k : N) : base64.sextet v k = ((v / 2 ^ k) mod 64)%N.
Proof.
  unfold base64.sextet. rewrite N.shiftr_div_pow2.
  change 63%N with (N.ones 6). now rewrite N.land_ones.
Qed.

Lemma sextet_lt (v k : N) : (base64.sextet v k < 64)%N.
Proof. rewrite sextet_divmod. apply N.mod_upper_bound. discriminate. Qed.

Lemma sextets (v : N) :
  base64.sextet v 18 = ((v / 262144) mod 64)%N /\
  base64.sextet v 12 = ((v / 4096) mod 64)%N /\
  base64.sextet v 6 = ((v / 64) mod 64)%N /\
  base64.sextet v 0 = (v mod 64)%N.
Proof.
  rewrite !sextet_divmod. repeat split.
  change (2 ^ 0)%N with 1%N. now rewrite N.div_1_r.
Qed.

Lemma group_sum (a b c : N) :
  (b < 256)%N -> (c < 256)%N ->
  base64.group a b c = (a * 65536 + b * 256 + c)%N.
Proof.
  intros Hb Hc. unfold base64.group.
  rewrite (N.shiftl_mul_pow2 b).
  replace (N.lor (N.shiftl a 16) (b * 2 ^ 8))%N with (a * 65536 + b * 256)%N.
  - replace (a * 65536 + b * 256)%N with ((a * 256 + b) * 2 ^ 8)%N by lia.
    rewrite lor_mul_pow2_add by (simpl; lia). reflexivity.
  - rewrite lor_shiftl_add by (simpl; lia). reflexivity.
Qed.

Lemma quantum_sum (d0 d1 d2 d3 : N) (dlen : nat) :
  (d1 < 64)%N -> (d2 < 64)%N -> (d3 < 64)%N ->
  base64.quantum d0 d1 d2 d3 dlen =
  let val := (d0 * 262144 + d1 * 4096 + d2 * 64 + d3)%N in
  firstn (dlen - 1)
    [byte_of_N (val / 65536); byte_of_N (val / 256); byte_of_N val].
Proof.
  intros H1 H2 H3. unfold base64.quantum.
  rewrite (N.shiftl_mul_pow2 d1), (N.shiftl_mul_pow2 d2).
  rewrite (lor_shiftl_add d0 (d1 * 2 ^ 12) 18) by (simpl; lia).
  replace (d0 * 2 ^ 18 + d1 * 2 ^ 12)%N with ((d0 * 64 + d1) * 2 ^ 12)%N by (simpl; lia).
  rewrite (lor_mul_pow2_add _ (d2 * 2 ^ 6) 12) by (simpl; lia).
  replace ((d0 * 64 + d1) * 2 ^ 12 + d2 * 2 ^ 6)%N
    with (((d0 * 64 + d1) * 64 + d2) * 2 ^ 6)%N by (simpl; lia).
  rewrite (lor_mul_pow2_add _ d3 6) by (simpl; lia).
  rewrite !N.shiftr_div_pow2. cbv zeta.
  replace ((((d0 * 64 + d1) * 64 + d2) * 2 ^ 6 + d3))%N
    with (d0 * 262144 + d1 * 4096 + d2 * 64 + d3)%N by (simpl; lia).
  reflexivity.
Qed.

Lemma quantum_group3 (a b c : N) :
  (a < 256)%N -> (b < 256)%N -> (c < 256)%N ->
  let val := base64.group a b c in
  base64.quantum (base64.sextet val 18) (base64.sextet val 12)
    (base64.sextet val 6) (base64.sextet val 0) 4
  = [byte_of_N a; byte_of_N b; byte_of_N c].
Proof.
  intros Ha Hb Hc val. subst val.
  rewrite group_sum by assumption.
  set (v := (a * 65536 + b * 256 + c)%N).
  destruct (sextets v) as (-> & -> & -> & ->).
  rewrite quantum_sum by (apply N.mod_upper_bound; discriminate).
  cbv zeta.
  replace (v / 262144 mod 64 * 262144 + v / 4096 mod 64 * 4096
           + v / 64 mod 64 * 64 + v mod 64)%N with v
    by (subst v; divmod).
  simpl firstn.
  f_equal; [|f_equal; [|f_equal]]; apply byte_of_N_mod; subst v; divmod.
Qed.

Lemma quantum_group2 (a b : N) :
  (a < 256)%N -> (b < 256)%N ->
  let val := N.lor (N.shiftl a 16) (N.shiftl b 8) in
  base64.quantum (base64.sextet val 18) (base64.sextet val 12)
    (base64.sextet val 6) 0 3
  = [byte_of_N a; byte_of_N b].
Proof.
  intros Ha Hb val.
  assert (E : val = (a * 65536 + b * 256)%N).
  { subst val. rewrite (N.shiftl_mul_pow2 b).
    rewrite lor_shiftl_add by (simpl; lia). reflexivity. }
  rewrite E. clear E val.
  set (v := (a * 65536 + b * 256)%N).
  destruct (sextets v) as (-> & -> & -> & _).
  rewrite quantum_sum by (try apply N.mod_upper_bound; try discriminate; lia).
  cbv zeta.
  replace (v / 262144 mod 64 * 262144 + v / 4096 mod 64 * 4096
           + v / 64 mod 64 * 64 + 0)%N with v
    by (subst v; divmod).
  simpl firstn.
  f_equal; [|f_equal]; apply byte_of_N_mod; subst v; divmod.
Qed.

Lemma quantum_group1 (a : N) :
  (a < 256)%N ->
  let val := N.shiftl a 16 in
  base64.quantum (base64.sextet val 18) (base64.sextet val 12) 0 0 2
  = [byte_of_N a].
Proof.
  intros Ha val.
  assert (E : val = (a * 65536)%N) by (subst val; now rewrite N.shiftl_mul_pow2).
  rewrite E. clear E val.
  set (v := (a * 65536)%N).
  destruct (sextets v) as (-> & -> & _ & _).
  rewrite quantum_sum by (try apply N.mod_upper_bound; try discriminate; lia).
  cbv zeta.
  replace (v / 262144 mod 64 * 262144 + v / 4096 mod 64 * 4096 + 0 * 64 + 0)%N
    with v by (subst v; divmod).
  simpl firstn.
  f_equal; apply byte_of_N_mod; subst v; divmod.
Qed.

Lemma list_ind3 (A : Type) (P : list A -> Prop) :
  P [] -> (forall a, P [a]) -> (forall a b, P [a; b]) ->
  (forall a b c l, P l -> P (a :: b :: c :: l)) ->
  forall l, P l.
Proof.
  intros H0 H1 H2 H3.
  fix IH 1.
  intros [|a [|b [|c l]]]; [apply H0 | apply H1 | apply H2 | apply H3, IH].
Qed.

(** ** base64: decoding what was encoded *)

Section Roundtrip.
Variable enc : base64.Encoding.
Hypothesis Halphabet : alphabet_ok enc = true.
Hypothesis Hpadding : padding_ok enc = true.

Lemma decodeMap_encode (i : N) :
  (i < 64)%N -> base64.decodeMap enc (char_at (base64.encode enc) i) = Some i.
Proof.
  intros Hi. unfold alphabet_ok in Halphabet.
  rewrite forallb_forall in Halphabet.
  specialize (Halphabet (N.to_nat i)).
  rewrite N2Nat.id in Halphabet.
  destruct (base64.decodeMap enc (char_at (base64.encode enc) i)) as [k|].
  - f_equal. apply N.eqb_eq. apply Halphabet. apply in_seq. lia.
  - discriminate Halphabet. apply in_seq. lia.
Qed.

Lemma decodeFrom_sextet (s : string) (v k : N) (j : nat) (d0 d1 d2 : N) :
  base64.decodeFrom enc
    (String (char_at (base64.encode enc) (base64.sextet v k)) s) j d0 d1 d2
  = let out := base64.sextet v k in
    match j with
    | 0%nat => base64.decodeFrom enc s 1 out 0 0
    | 1%nat => base64.decodeFrom enc s 2 d0 out 0
    | 2%nat => base64.decodeFrom enc s 3 d0 d1 out
    | _ => base64.after (base64.quantum d0 d1 d2 out 4)
             (base64.decodeFrom enc s 0 0 0 0)
    end.
Proof.
  cbn [base64.decodeFrom].
  rewrite decodeMap_encode by apply sextet_lt. reflexivity.
Qed.

(** The decoder at the padding, or at the end of the input when the encoding
    has none, with two and with three sextets read. *)
Lemma decodeFrom_pad2 (d0 d1 : N) :
  base64.decodeFrom enc (base64.pad enc (base64.pad enc EmptyString)) 2 d0 d1 0
  = Ok (base64.quantum d0 d1 0 0 2).
Proof.
  unfold padding_ok in Hpadding. unfold base64.pad.
  destruct (base64.padChar enc) as [p|] eqn:Hp.
  - apply andb_prop in Hpadding. destruct Hpadding as [Hd Hn].
    cbn [base64.decodeFrom].
    destruct (base64.decodeMap enc p); [discriminate|].
    apply negb_true_iff in Hn. rewrite Hn.
    unfold base64.isPad. rewrite Hp, Ascii.eqb_refl.
    cbn [negb base64.skipNewlines]. rewrite Hn, Ascii.eqb_refl. reflexivity.
  - cbn [base64.decodeFrom]. rewrite Hp. reflexivity.
Qed.

Lemma decodeFrom_pad3 (d0 d1 d2 : N) :
  base64.decodeFrom enc (base64.pad enc EmptyString) 3 d0 d1 d2
  = Ok (base64.quantum d0 d1 d2 0 3).
Proof.
  unfold padding_ok in Hpadding. unfold base64.pad.
  destruct (base64.padChar enc) as [p|] eqn:Hp.
  - apply andb_prop in Hpadding. destruct Hpadding as [Hd Hn].
    cbn [base64.decodeFrom].
    destruct (base64.decodeMap enc p); [discriminate|].
    apply negb_true_iff in Hn. rewrite Hn.
    unfold base64.isPad. rewrite Hp, Ascii.eqb_refl. reflexivity.
  - cbn [base64.decodeFrom]. rewrite Hp. reflexivity.
Qed.

Lemma DecodeString_EncodeToString (src : list byte) :
  base64.DecodeString enc (base64.EncodeToString enc src) = Ok src.
Proof.
  unfold base64.DecodeString.
  induction src as [|a|a b|a b c l IH] using list_ind3.
  - reflexivity.
  - cbn [base64.EncodeToString].
    rewrite !decodeFrom_sextet. cbv zeta.
    rewrite decodeFrom_pad2, quantum_group1 by apply to_N_lt.
    now rewrite byte_of_to_N.
  - cbn [base64.EncodeToString].
    rewrite !decodeFrom_sextet. cbv zeta.
    rewrite decodeFrom_pad3, quantum_group2 by apply to_N_lt.
    now rewrite !byte_of_to_N.
  - cbn [base64.EncodeToString].
    rewrite !decodeFrom_sextet. cbv zeta.
    rewrite IH, quantum_group3 by apply to_N_lt.
    now rewrite !byte_of_to_N.
Qed.

End Roundtrip.

(** ** hex *)

Lemma hex_digits (v : byte) :
  let hi := N.shiftr (Byte.to_N v) 4 in
  let lo := N.land (Byte.to_N v) 15 in
  hex.fromHexChar (char_at hex.hextable hi) = Some hi /\
  hex.fromHexChar (char_at hex.hextable lo) = Some lo /\
  byte_of_N (N.lor (N.shiftl hi 4) lo) = v.
Proof. destruct v; vm_compute; auto. Qed.

Lemma hex_DecodeString_EncodeToString (src : list byte) :
  hex.DecodeString (hex.EncodeToString src) = Ok src.
Proof.
  induction src as [|v rest IH]; [reflexivity|].
  destruct (hex_digits v) as (Hhi & Hlo & Hv). cbv zeta in *.
  cbn [hex.EncodeToString hex.DecodeString].
  now rewrite Hhi, Hlo, IH, Hv.
Qed.

Lemma hex_EncodeToString_shape (src : list byte) :
  String.length (hex.EncodeToString src) = (2 * List.length src)%nat /\
  allBytes lowerHexDigit (hex.EncodeToString src) = true.
Proof.
  induction src as [|v rest [IHl IHa]]; [split; reflexivity|].
  cbn [hex.EncodeToString String.length List.length allBytes].
  rewrite IHl, IHa. split; [lia|].
  destruct v; reflexivity.
Qed.

(** ** strings.Trim *)

Lemma trimLeftByte_spec (s : string) (c : ascii) :
  exists n, s = (replicate n c ++ strings.trimLeftByte s c)%string
            /\ firstByte (strings.trimLeftByte s c) <> Some c.
Proof.
  induction s as [|ch s (n & Hs & Hf)].
  - exists 0%nat. split; [reflexivity | discriminate].
  - cbn [strings.trimLeftByte]. destruct (Ascii.eqb ch c) eqn:E.
    + apply Ascii.eqb_eq in E. subst ch.
      exists (S n). split; [cbn; now rewrite <- Hs | assumption].
    + exists 0%nat. split; [reflexivity|].
      cbn. intros [= ->]. now rewrite Ascii.eqb_refl in E.
Qed.

Lemma trimRightByte_spec (s : string) (c : ascii) :
  exists m, s = (strings.trimRightByte s c ++ replicate m c)%string
            /\ lastByte (strings.trimRightByte s c) <> Some c.
Proof.
  induction s as [|ch s (m & Hs & Hl)].
  - exists 0%nat. split; [reflexivity | discriminate].
  - cbn [strings.trimRightByte].
    destruct (strings.trimRightByte s c) as [|x t] eqn:Et.
    + destruct (Ascii.eqb ch c) eqn:E.
      * apply Ascii.eqb_eq in E. subst ch.
        exists (S m). split; [cbn in *; now rewrite <- Hs | discriminate].
      * exists m. split; [cbn in *; now rewrite <- Hs|].
        cbn. intros [= ->]. now rewrite Ascii.eqb_refl in E.
    + exists m. split; [cbn in *; now rewrite <- Hs | exact Hl].
Qed.

Lemma lastByte_trimLeftByte (s : string) (c : ascii) :
  lastByte s <> Some c -> lastByte (strings.trimLeftByte s c) <> Some c.
Proof.
  induction s as [|ch s IH]; [auto|].
  intros Hl. cbn [strings.trimLeftByte].
  destruct (Ascii.eqb ch c) eqn:E; [|exact Hl].
  apply IH. destruct s as [|x t]; [discriminate | exact Hl].
Qed.

(** [Trim] with a cutset of one ASCII byte takes away every such byte at
    both ends, and nothing else. *)
Lemma Trim_byte_spec (s : string) (c : ascii) :
  (N_of_ascii c < 128)%N ->
  let r := strings.Trim s (String c EmptyString) in
  exists n m, s = (replicate n c ++ r ++ replicate m c)%string
              /\ firstByte r <> Some c /\ lastByte r <> Some c.
Proof.
  intros Hc r.
  assert (Er : r = strings.trimLeftByte (strings.trimRightByte s c) c).
  { subst r. unfold strings.Trim. apply N.ltb_lt in Hc. rewrite Hc.
    destruct s; reflexivity. }
  destruct (trimRightByte_spec s c) as (m & Hm & Hl).
  destruct (trimLeftByte_spec (strings.trimRightByte s c) c) as (n & Hn & Hf).
  exists n, m. rewrite Er. repeat split.
  - rewrite <- append_assoc, <- Hn. exact Hm.
  - exact Hf.
  - now apply lastByte_trimLeftByte.
Qed.

(** ** bufio: the loop of WriteString comes to an end *)

Lemma defaultBufSize_pos : (0 < bufio.defaultBufSize)%nat.
Proof. unfold bufio.defaultBufSize. apply Nat.lt_0_succ. Qed.

#[local] Opaque bufio.defaultBufSize.

Section Bufio.
Context {W : Type} `{io.Writer W}.

(** [Flush] on a writer without error that holds bytes: the buffer is empty
    afterwards, or the sticky error is set. *)
Lemma Flush_cases (b : bufio.Writer W) :
  bufio.err b = None -> bufio.Buffered b <> 0%nat ->
  let b' := fst (bufio.Flush b) in
  (bufio.err b' = None /\ bufio.buf b' = EmptyString) \/ bufio.err b' <> None.
Proof.
  intros He Hn. unfold bufio.Flush. rewrite He.
  apply Nat.eqb_neq in Hn. rewrite Hn.
  destruct (io.Write (bufio.wr b) (bufio.buf b)) as [w' [[n e]|]]; cbn.
  - right. discriminate.
  - left. split; reflexivity.
Qed.

Lemma writeStringLoop_fuel (fuel : nat) :
  forall (b : bufio.Writer W) (s : string),
    (turns b s <= fuel)%nat -> bufio.writeStringLoop fuel b s <> None.
Proof.
  induction fuel as [|fuel IH]; intros b s Hf.
  - cbn [bufio.writeStringLoop].
    destruct ((bufio.Available b <? String.length s)%nat && isNil (bufio.err b))
      eqn:Hc; [|discriminate].
    apply andb_prop in Hc. destruct Hc as [Hc _]. apply Nat.ltb_lt in Hc.
    unfold turns in Hf. lia.
  - cbn [bufio.writeStringLoop].
    destruct ((bufio.Available b <? String.length s)%nat && isNil (bufio.err b))
      eqn:Hc; [|discriminate].
    apply andb_prop in Hc. destruct Hc as [Hlt Herr]. apply Nat.ltb_lt in Hlt.
    destruct (bufio.err b) as [e|] eqn:He; [discriminate|].
    destruct ((bufio.Buffered b =? 0)%nat && io.StringWriter) eqn:Hd.
    + destruct (io.Write (bufio.wr b) s) as [w' [[n e]|]].
      * destruct fuel; cbn [bufio.writeStringLoop bufio.err isNil];
          rewrite andb_false_r; discriminate.
      * apply IH. unfold turns. cbn [String.length bufio.buf bufio.Buffered].
        apply andb_prop in Hd. destruct Hd as [Hd _].
        unfold bufio.Buffered in Hd. rewrite Hd. lia.
    + set (n := bufio.Available b).
      set (b1 := {| bufio.err := None;
                    bufio.buf := (bufio.buf b ++ take n s)%string;
                    bufio.wr := bufio.wr b |}).
      assert (Hb1 : bufio.Buffered b1 = (bufio.Buffered b + n)%nat).
      { unfold bufio.Buffered, b1. cbn [bufio.buf].
        rewrite length_append, length_take.
        fold (bufio.Buffered b). subst n. lia. }
      pose proof defaultBufSize_pos as Hsize.
      assert (Hpos : bufio.Buffered b1 <> 0%nat).
      { rewrite Hb1. unfold n, bufio.Available. lia. }
      destruct (Flush_cases b1) as [[He' Hb'] | He']; [reflexivity | exact Hpos | |].
      * apply IH. unfold turns in *. unfold bufio.Buffered at 1.
        rewrite Hb', length_drop. cbn [String.length Nat.eqb].
        unfold n, bufio.Available in *.
        destruct (bufio.Buffered b =? 0)%nat eqn:Hz; [|lia].
        apply Nat.eqb_eq in Hz. lia.
      * destruct fuel; cbn [bufio.writeStringLoop];
          destruct (bufio.err (fst (bufio.Flush b1))); try contradiction;
          cbn [isNil]; rewrite andb_false_r; discriminate.
Qed.

(** The turns [WriteString] allows are enough. *)
Lemma WriteString_fuel (b : bufio.Writer W) (s : string) :
  bufio.writeStringLoop (2 + String.length s) b s <> None.
Proof.
  apply writeStringLoop_fuel. unfold turns.
  destruct (bufio.Buffered b =? 0)%nat; lia.
Qed.

End Bufio.

(** ** What holds of the writer underneath, through a conversion *)

Create HintDb keeps.

Section Underneath.
Context {W : Type} `{io.Writer W}.
Variable P : W -> Prop.
Hypothesis P_Write : forall w p, P w -> P (fst (io.Write w p)).

Lemma Flush_keeps (b : bufio.Writer W) :
  P (bufio.wr b) -> P (bufio.wr (fst (bufio.Flush b))).
Proof.
  intros Hb. unfold bufio.Flush.
  destruct (bufio.err b); [exact Hb|].
  destruct (bufio.Buffered b =? 0)%nat; [exact Hb|].
  specialize (P_Write (bufio.wr b) (bufio.buf b) Hb).
  destruct (io.Write (bufio.wr b) (bufio.buf b)) as [w' [[n e]|]]; exact P_Write.
Qed.

Lemma writeStringLoop_keeps (fuel : nat) :
  forall (b : bufio.Writer W) (s : string) r,
    P (bufio.wr b) -> bufio.writeStringLoop fuel b s = Some r ->
    P (bufio.wr (fst r)).
Proof.
  induction fuel as [|fuel IH]; intros b s r Hb; cbn [bufio.writeStringLoop];
    destruct ((bufio.Available b <? String.length s)%nat && isNil (bufio.err b));
    try discriminate; try (intros [= <-]; exact Hb).
  destruct ((bufio.Buffered b =? 0)%nat && io.StringWriter).
  - specialize (P_Write (bufio.wr b) s Hb).
    destruct (io.Write (bufio.wr b) s) as [w' [[n e]|]]; apply IH; exact P_Write.
  - apply IH. apply Flush_keeps. exact Hb.
Qed.

Lemma WriteString_keeps (b : bufio.Writer W) (s : string) :
  P (bufio.wr b) -> P (bufio.wr (fst (bufio.WriteString b s))).
Proof.
  intros Hb. unfold bufio.WriteString.
  destruct (bufio.writeStringLoop (2 + String.length s) b s) as [[b' s']|] eqn:E;
    [|exact Hb].
  apply writeStringLoop_keeps in E; [|exact Hb].
  destruct (bufio.err b'); exact E.
Qed.

Lemma WriteByte_keeps (b : bufio.Writer W) (c : ascii) :
  P (bufio.wr b) -> P (bufio.wr (fst (bufio.WriteByte b c))).
Proof.
  intros Hb. unfold bufio.WriteByte.
  destruct (bufio.err b); [exact Hb|].
  assert (Hb1 : P (bufio.wr (if (bufio.Available b <=? 0)%nat
                             then fst (bufio.Flush b) else b))).
  { destruct (bufio.Available b <=? 0)%nat; [now apply Flush_keeps | exact Hb]. }
  destruct (bufio.err _); exact Hb1.
Qed.

Lemma WriteRune_keeps (b : bufio.Writer W) (r : Z) :
  P (bufio.wr b) -> P (bufio.wr (fst (bufio.WriteRune b r))).
Proof.
  intros Hb. unfold bufio.WriteRune.
  destruct ((0 <=? r)%Z && (r <? utf8.RuneSelf)%Z); [now apply WriteByte_keeps|].
  destruct (bufio.err b); [exact Hb|].
  destruct (bufio.Available b <? utf8.UTFMax)%nat; [|exact Hb].
  pose proof (Flush_keeps b Hb) as Hb1.
  destruct (bufio.err (fst (bufio.Flush b))); [exact Hb1|].
  destruct (bufio.Available _ <? utf8.UTFMax)%nat;
    [now apply WriteString_keeps | exact Hb1].
Qed.

Lemma done_keeps : keeps P csv.done.
Proof. intros b Hb. exact Hb. Qed.

Lemma andThen_keeps (m1 m2 : csv.step) :
  keeps P m1 -> keeps P m2 -> keeps P (csv.andThen m1 m2).
Proof.
  intros H1 H2 b Hb. unfold csv.andThen.
  specialize (H1 b Hb). destruct (m1 b) as [b1 [e|]]; [exact H1|].
  apply H2. exact H1.
Qed.

Lemma csv_WriteString_keeps s : keeps P (csv.WriteString s).
Proof. intros b. apply WriteString_keeps. Qed.

Lemma csv_WriteByte_keeps c : keeps P (csv.WriteByte c).
Proof. intros b. apply WriteByte_keeps. Qed.

Lemma csv_WriteRune_keeps r : keeps P (csv.WriteRune r).
Proof. intros b. apply WriteRune_keeps. Qed.

Hint Resolve done_keeps andThen_keeps csv_WriteString_keeps csv_WriteByte_keeps
  csv_WriteRune_keeps : keeps.

Lemma writeSpecial_keeps useCRLF ch : keeps P (csv.writeSpecial useCRLF ch).
Proof.
  unfold csv.writeSpecial.
  destruct (Ascii.eqb ch dquote), (Ascii.eqb ch CR), useCRLF; auto with keeps.
Qed.
Hint Resolve writeSpecial_keeps : keeps.

Lemma writeQuoted_keeps useCRLF field :
  forall run, keeps P (csv.writeQuoted useCRLF run field).
Proof.
  induction field as [|ch rest IH]; intros run; cbn [csv.writeQuoted].
  - destruct run; auto with keeps.
  - destruct (csv.isQuoteOrBreak ch); auto with keeps.
Qed.
Hint Resolve writeQuoted_keeps : keeps.

Lemma writeField_keeps comma useCRLF field :
  keeps P (csv.writeField comma useCRLF field).
Proof.
  unfold csv.writeField.
  destruct (negb (csv.fieldNeedsQuotes comma field)); auto with keeps.
Qed.
Hint Resolve writeField_keeps : keeps.

Lemma writeFields_keeps comma useCRLF record :
  forall first, keeps P (csv.writeFields comma useCRLF first record).
Proof.
  induction record as [|field rest IH]; intros first; cbn [csv.writeFields].
  - auto with keeps.
  - destruct first; auto with keeps.
Qed.
Hint Resolve writeFields_keeps : keeps.

Lemma csv_Write_keeps (cw : csv.Writer W) (record : list string) :
  P (under cw) -> P (under (fst (csv.Write cw record))).
Proof.
  intros Hcw. unfold csv.Write.
  destruct (negb (csv.validDelim (csv.Comma cw))); [exact Hcw|].
  match goal with
  | |- context [csv.andThen ?m1 ?m2 (csv.w cw)] =>
      assert (Hk : keeps P (csv.andThen m1 m2))
        by (destruct (csv.UseCRLF cw); auto with keeps);
      specialize (Hk (csv.w cw) Hcw);
      destruct (csv.andThen m1 m2 (csv.w cw)) as [b e]
  end.
  exact Hk.
Qed.

Lemma csv_Flush_keeps (cw : csv.Writer W) :
  P (under cw) -> P (under (csv.Flush cw)).
Proof. intros Hcw. unfold csv.Flush, under. cbn. now apply Flush_keeps. Qed.

Lemma writeRows_keeps (c : Converter) (columnNames : list string) (count : nat) :
  forall pending (cw : csv.Writer W),
    P (under cw) ->
    P (under (snd (fst (Converter.writeRows c columnNames count cw pending)))).
Proof.
  induction pending as [|lastcols pending IH]; intros cw Hcw;
    cbn [Converter.writeRows]; [exact Hcw|].
  destruct (sql.Scan lastcols count) as [values|e]; [|exact Hcw].
  destruct (match rowPreProcessor c with
            | Some f => f (Converter.formatRow c values) columnNames
            | None => (true, Converter.formatRow c values)
            end) as [[|] row].
  - pose proof (csv_Write_keeps cw row Hcw) as Hw.
    destruct (csv.Write cw row) as [cw' [e|]]; [exact Hw | now apply IH].
  - now apply IH.
Qed.

(** What [Write] cannot undo of the writer it is given still holds of it
    when [Write] returns. *)
Lemma Write_keeps (c : Converter) (writer : W) :
  P writer -> P (Converter.writerOf (Converter.Write c writer)).
Proof.
  intros Hw. unfold Converter.Write, Converter.writerOf.
  set (cw0 := if negb (Delimiter c =? 0)%Z
              then csv.withComma (csv.NewWriter writer) (Delimiter c)
              else csv.NewWriter writer).
  assert (H0 : P (under cw0)) by (subst cw0; destruct (negb _); exact Hw).
  destruct (sql.Columns (rows c)) as [columnNames|e]; [|exact H0].
  set (hdr := if WriteHeaders c then _ else _).
  assert (H1 : P (under (fst hdr))).
  { subst hdr. destruct (WriteHeaders c); [now apply csv_Write_keeps | exact H0]. }
  destruct hdr as [cw1 [e|]]; [exact H1|].
  pose proof (writeRows_keeps c columnNames (List.length columnNames)
                (sql.pending (rows c)) cw1 H1) as H2.
  destruct (Converter.writeRows _ _ _ _ _) as [[rest cw2] [e|]]; [exact H2|].
  now apply csv_Flush_keeps.
Qed.

End Underneath.

(** ** The records handed to the csv writer *)

Lemma isPrefix_nil {A : Type} (l : list A) : isPrefix [] l.
Proof. now exists l. Qed.

Lemma isPrefix_cons {A : Type} (a : A) (l1 l2 : list A) :
  isPrefix l1 l2 -> isPrefix (a :: l1) (a :: l2).
Proof. intros [l ->]. now exists l. Qed.

Lemma headers_choice (c : Converter) (columnNames : list string) :
  (if (0 <? List.length (Headers c))%nat then Headers c else columnNames)
  = headerRow c columnNames.
Proof. unfold headerRow. destruct (Headers c); reflexivity. Qed.

(** The pre-processing step of the loop, read through [dataRow]. *)
Lemma dataRow_step (c : Converter) (columnNames : list string) (values : list any) :
  fst (match rowPreProcessor c with
       | Some f => f (Converter.formatRow c values) columnNames
       | None => (true, Converter.formatRow c values)
       end) = true
  /\ dataRow c columnNames values
     = Some (snd (match rowPreProcessor c with
                  | Some f => f (Converter.formatRow c values) columnNames
                  | None => (true, Converter.formatRow c values)
                  end))
  \/ fst (match rowPreProcessor c with
          | Some f => f (Converter.formatRow c values) columnNames
          | None => (true, Converter.formatRow c values)
          end) = false
     /\ dataRow c columnNames values = None.
Proof.
  unfold dataRow, Converter.formatRow.
  destruct (rowPreProcessor c) as [f|]; [|left; split; reflexivity].
  destruct (f (map (Converter.toString c) values) columnNames) as [[|] row];
    [left | right]; split; reflexivity.
Qed.

Section Records.
Context {W : Type} `{io.Writer W}.

(** The history is only written: with another one, [Write] of encoding/csv
    does the same to the writer and returns the same. *)
Lemma csv_Write_ignores_records (cw : csv.Writer W) (log : list (list string))
  (record : list string) :
  csv.w (fst (csv.Write (withRecords cw log) record)) = csv.w (fst (csv.Write cw record))
  /\ snd (csv.Write (withRecords cw log) record) = snd (csv.Write cw record).
Proof.
  unfold csv.Write, withRecords. cbn [csv.Comma csv.UseCRLF csv.w].
  destruct (negb (csv.validDelim (csv.Comma cw))); [split; reflexivity|].
  destruct (csv.andThen _ _ (csv.w cw)). split; reflexivity.
Qed.

Lemma csv_Write_records (cw : csv.Writer W) (record : list string) :
  csv.records (fst (csv.Write cw record)) = csv.records cw ++ [record].
Proof.
  unfold csv.Write. destruct (negb (csv.validDelim (csv.Comma cw))); [reflexivity|].
  destruct (csv.andThen _ _ (csv.w cw)). reflexivity.
Qed.

(** The loop hands to the csv writer the data rows in order; it stops early
    only on an error, and when it returns none it has handed over all of
    them and read all rows. *)
Lemma writeRows_records (c : Converter) (columnNames : list string) :
  forall pending (cw : csv.Writer W),
    let st := Converter.writeRows c columnNames (List.length columnNames) cw pending in
    exists data,
      csv.records (snd (fst st)) = csv.records cw ++ data
      /\ isPrefix data (dataRows c columnNames pending)
      /\ (snd st = None ->
          data = dataRows c columnNames pending /\ fst (fst st) = []).
Proof.
  induction pending as [|lastcols pending IH]; intros cw; cbn zeta.
  - exists []. cbn. rewrite app_nil_r. repeat split. apply isPrefix_nil.
  - cbn [Converter.writeRows dataRows].
    destruct (sql.Scan lastcols (List.length columnNames)) as [values|e].
    + destruct (dataRow_step c columnNames values) as [[Hk ->] | [Hk ->]];
        destruct (match rowPreProcessor c with
                  | Some f => f (Converter.formatRow c values) columnNames
                  | None => (true, Converter.formatRow c values)
                  end) as [keep row]; cbn [fst snd] in *; subst keep; [|apply IH].
      pose proof (csv_Write_records cw row) as Hr.
      destruct (csv.Write cw row) as [cw' [e|]]; cbn [fst] in Hr.
      * exists [row]. cbn [fst snd]. repeat split; try discriminate.
        -- exact Hr.
        -- apply isPrefix_cons, isPrefix_nil.
      * destruct (IH cw') as (data & Hd & Hp & Hn).
        exists (row :: data). repeat split.
        -- rewrite Hd, Hr, <- app_assoc. reflexivity.
        -- now apply isPrefix_cons.
        -- f_equal. now apply Hn.
        -- now apply Hn.
    + exists []. cbn. rewrite app_nil_r. repeat split; try discriminate.
      apply isPrefix_nil.
Qed.

(** A conversion that gets the column names hands to the csv writer the
    header row, when headers are asked for, and then data rows, in order. *)
Lemma Write_records (c : Converter) (writer : W) (columnNames : list string) :
  sql.Columns (rows c) = Ok columnNames ->
  exists data,
    csv.records (snd (fst (Converter.Write c writer)))
    = headerRows c columnNames ++ data
    /\ isPrefix data (dataRows c columnNames (sql.pending (rows c))).
Proof.
  intros Hcols. unfold Converter.Write, headerRows. rewrite Hcols.
  set (cw0 := if negb (Delimiter c =? 0)%Z
              then csv.withComma (csv.NewWriter writer) (Delimiter c)
              else csv.NewWriter writer).
  assert (H0 : csv.records cw0 = []) by (subst cw0; destruct (negb _); reflexivity).
  rewrite headers_choice.
  destruct (WriteHeaders c).
  - pose proof (csv_Write_records cw0 (headerRow c columnNames)) as Hr.
    rewrite H0 in Hr. cbn [app] in Hr.
    destruct (csv.Write cw0 (headerRow c columnNames)) as [cw1 [e|]]; cbn [fst] in Hr.
    + exists []. cbn [fst snd]. rewrite app_nil_r. split; [exact Hr|].
      apply isPrefix_nil.
    + destruct (writeRows_records c columnNames (sql.pending (rows c)) cw1)
        as (data & Hd & Hp & Hn).
      exists data.
      destruct (Converter.writeRows _ _ _ _ _) as [[rest cw2] [e|]];
        cbn [fst snd csv.Flush csv.records] in *; rewrite Hd, Hr; split; auto.
  - destruct (writeRows_records c columnNames (sql.pending (rows c)) cw0)
      as (data & Hd & Hp & Hn).
    exists data.
    destruct (Converter.writeRows _ _ _ _ _) as [[rest cw2] [e|]];
      cbn [fst snd csv.Flush csv.records] in *; rewrite Hd, H0; split; auto.
Qed.

End Records.

(** When the pre-processor drops every row there is no data row. *)
Lemma dataRows_skipped (c : Converter) (p : CsvPreProcessorFunc)
  (columnNames : list string) :
  rowPreProcessor c = Some p ->
  (forall row names, fst (p row names) = false) ->
  forall pending, dataRows c columnNames pending = [].
Proof.
  intros Hp Hskip. induction pending as [|lastcols pending IH]; [reflexivity|].
  cbn [dataRows]. destruct (sql.Scan lastcols (List.length columnNames)); [|reflexivity].
  unfold dataRow. rewrite Hp, Hskip. exact IH.
Qed.

(** ** The text that reaches a buffer in memory *)

Lemma Flush_stream (b : bufio.Writer bytes.Buffer) :
  bufio.err b = None ->
  bufio.err (fst (bufio.Flush b)) = None
  /\ bufio.buf (fst (bufio.Flush b)) = EmptyString
  /\ bufio.wr (fst (bufio.Flush b)) = stream b.
Proof.
  intros He. unfold bufio.Flush, stream. rewrite He.
  destruct (bufio.Buffered b =? 0)%nat eqn:Hz; cbn.
  - apply Nat.eqb_eq, length_zero in Hz. rewrite Hz, append_nil_r. auto.
  - auto.
Qed.

Lemma stream_Flush (b : bufio.Writer bytes.Buffer) :
  bufio.err b = None -> stream (fst (bufio.Flush b)) = stream b.
Proof.
  intros He. destruct (Flush_stream b He) as (_ & Hb & Hw).
  unfold stream at 1. now rewrite Hb, Hw, append_nil_r.
Qed.

Lemma writeStringLoop_stream (fuel : nat) :
  forall (b : bufio.Writer bytes.Buffer) (s : string) b' s',
    bufio.err b = None ->
    bufio.writeStringLoop fuel b s = Some (b', s') ->
    bufio.err b' = None /\ (stream b' ++ s' = stream b ++ s)%string.
Proof.
  induction fuel as [|fuel IH]; intros b s b' s' He; cbn [bufio.writeStringLoop];
    destruct ((bufio.Available b <? String.length s)%nat && isNil (bufio.err b));
    try discriminate; try (intros [= <- <-]; auto).
  destruct (bufio.Buffered b =? 0)%nat eqn:Hz;
    cbn [andb io.StringWriter bytes.Buffer_Writer].
  - cbn [io.Write bytes.Buffer_Writer]. intros Hl.
    apply IH in Hl; [|reflexivity]. destruct Hl as [He' Hs]. split; [exact He'|].
    rewrite Hs. unfold stream. cbn [bufio.wr bufio.buf].
    apply Nat.eqb_eq, length_zero in Hz. rewrite Hz, !append_nil_r. reflexivity.
  - intros Hl.
    set (b1 := {| bufio.err := bufio.err b;
                  bufio.buf := (bufio.buf b ++ take (bufio.Available b) s)%string;
                  bufio.wr := bufio.wr b |}) in *.
    destruct (Flush_stream b1 He) as (He1 & Hb1 & Hw1).
    apply IH in Hl; [|exact He1]. destruct Hl as [He' Hs]. split; [exact He'|].
    rewrite Hs. unfold stream at 1. rewrite Hb1, Hw1, append_nil_r.
    unfold stream, b1. cbn [bufio.wr bufio.buf].
    rewrite !append_assoc, take_drop. reflexivity.
Qed.

Lemma WriteString_appends (s : string) : appends (csv.WriteString s) s.
Proof.
  intros b He. unfold csv.WriteString, bufio.WriteString.
  destruct (bufio.writeStringLoop (2 + String.length s) b s) as [[b' s']|] eqn:E.
  - apply writeStringLoop_stream in E; [|exact He]. destruct E as [He' Hs].
    rewrite He'. cbn [fst snd bufio.err]. repeat split.
    rewrite <- Hs. unfold stream. cbn [bufio.wr bufio.buf].
    now rewrite append_assoc.
  - now apply WriteString_fuel in E.
Qed.

Lemma WriteByte_appends (c : ascii) : appends (csv.WriteByte c) (String c EmptyString).
Proof.
  intros b He. unfold csv.WriteByte, bufio.WriteByte. rewrite He.
  set (b1 := if (bufio.Available b <=? 0)%nat then fst (bufio.Flush b) else b).
  assert (H1 : bufio.err b1 = None /\ stream b1 = stream b).
  { subst b1. destruct (bufio.Available b <=? 0)%nat; [|auto].
    split; [apply (Flush_stream b He) | apply (stream_Flush b He)]. }
  destruct H1 as [He1 Hs1]. rewrite He1. cbn [fst snd bufio.err]. repeat split.
  rewrite <- Hs1. unfold stream. cbn [bufio.wr bufio.buf]. now rewrite append_assoc.
Qed.

Lemma EncodeRune_ascii (r : Z) :
  (0 <=? r)%Z && (r <? utf8.RuneSelf)%Z = true ->
  utf8.EncodeRune r = String (char_of_N (Z.to_N r)) EmptyString.
Proof. intros Hr. unfold utf8.EncodeRune, utf8.RuneSelf in *. now rewrite Hr. Qed.

Lemma WriteRune_appends (r : Z) : appends (csv.WriteRune r) (utf8.EncodeRune r).
Proof.
  intros b He. unfold csv.WriteRune, bufio.WriteRune.
  destruct ((0 <=? r)%Z && (r <? utf8.RuneSelf)%Z) eqn:Hr.
  - rewrite (EncodeRune_ascii r Hr). now apply WriteByte_appends.
  - rewrite He.
    destruct (bufio.Available b <? utf8.UTFMax)%nat.
    + destruct (Flush_stream b He) as (He1 & _ & _). rewrite He1.
      pose proof (stream_Flush b He) as Hs1.
      destruct (bufio.Available _ <? utf8.UTFMax)%nat.
      * destruct (WriteString_appends (utf8.EncodeRune r) _ He1) as (E1 & E2 & E3).
        unfold csv.WriteString in *. now rewrite <- Hs1.
      * cbn [fst snd bufio.err]. repeat split. rewrite <- Hs1.
        unfold stream. cbn [bufio.wr bufio.buf]. now rewrite append_assoc.
    + cbn [fst snd bufio.err]. repeat split.
      unfold stream. cbn [bufio.wr bufio.buf]. now rewrite append_assoc.
Qed.

Lemma done_appends : appends csv.done EmptyString.
Proof. intros b He. cbn. now rewrite append_nil_r. Qed.

Lemma andThen_appends (m1 m2 : csv.step) (t1 t2 : string) :
  appends m1 t1 -> appends m2 t2 -> appends (csv.andThen m1 m2) (t1 ++ t2)%string.
Proof.
  intros H1 H2 b He. unfold csv.andThen.
  destruct (H1 b He) as (E1 & E2 & E3).
  destruct (m1 b) as [b1 e1]. cbn [fst snd] in *. subst e1.
  destruct (H2 b1 E2) as (F1 & F2 & F3).
  repeat split; try assumption. now rewrite F3, E3, append_assoc.
Qed.

Lemma appends_text (m : csv.step) (t1 t2 : string) :
  t1 = t2 -> appends m t1 -> appends m t2.
Proof. now intros ->. Qed.

Lemma writeSpecial_appends useCRLF ch :
  appends (csv.writeSpecial useCRLF ch) (encodeSpecial useCRLF ch).
Proof.
  unfold csv.writeSpecial, encodeSpecial.
  destruct (Ascii.eqb ch dquote), (Ascii.eqb ch CR), useCRLF;
    auto using WriteString_appends, WriteByte_appends, done_appends.
Qed.

Lemma writeQuoted_appends useCRLF field :
  forall run,
    appends (csv.writeQuoted useCRLF run field)
      (run ++ encodeQuoted useCRLF field)%string.
Proof.
  induction field as [|ch rest IH]; intros run; cbn [csv.writeQuoted encodeQuoted].
  - rewrite append_nil_r. destruct run; [apply done_appends | apply WriteString_appends].
  - destruct (csv.isQuoteOrBreak ch).
    + apply andThen_appends; [apply WriteString_appends|].
      apply andThen_appends; [apply writeSpecial_appends|].
      apply (appends_text _ (EmptyString ++ encodeQuoted useCRLF rest)%string);
        [reflexivity | apply IH].
    + eapply appends_text; [|apply IH]. now rewrite append_assoc.
Qed.

Lemma writeField_appends comma useCRLF field :
  appends (csv.writeField comma useCRLF field) (encodeField comma useCRLF field).
Proof.
  unfold csv.writeField, encodeField.
  destruct (csv.fieldNeedsQuotes comma field); cbn [negb].
  - apply (andThen_appends _ _ (String dquote EmptyString)); [apply WriteByte_appends|].
    apply andThen_appends; [|apply WriteByte_appends].
    apply (writeQuoted_appends useCRLF field EmptyString).
  - apply WriteString_appends.
Qed.

Lemma writeFields_appends comma useCRLF record :
  forall first,
    appends (csv.writeFields comma useCRLF first record)
      (encodeFields comma useCRLF first record).
Proof.
  induction record as [|field rest IH]; intros first;
    cbn [csv.writeFields encodeFields]; [apply done_appends|].
  apply andThen_appends.
  - destruct first; [apply done_appends | apply WriteRune_appends].
  - apply andThen_appends; [apply writeField_appends | apply IH].
Qed.

(** [Write] of encoding/csv, with a valid delimiter and over a buffer in
    memory, succeeds and adds the line of the record. *)
Lemma csv_Write_stream (cw : csv.Writer bytes.Buffer) (record : list string) :
  csv.validDelim (csv.Comma cw) = true -> bufio.err (csv.w cw) = None ->
  let cw' := fst (csv.Write cw record) in
  snd (csv.Write cw record) = None
  /\ bufio.err (csv.w cw') = None
  /\ csv.Comma cw' = csv.Comma cw /\ csv.UseCRLF cw' = csv.UseCRLF cw
  /\ csvStream cw'
     = (csvStream cw ++ encodeRecord (csv.Comma cw) (csv.UseCRLF cw) record)%string.
Proof.
  intros Hv He. cbn zeta. unfold csv.Write. rewrite Hv. cbn [negb].
  match goal with
  | |- context [csv.andThen ?m1 ?m2 (csv.w cw)] =>
      assert (Ha : appends (csv.andThen m1 m2)
                     (encodeRecord (csv.Comma cw) (csv.UseCRLF cw) record))
  end.
  { unfold encodeRecord. apply andThen_appends; [apply writeFields_appends|].
    destruct (csv.UseCRLF cw); [apply WriteString_appends | apply WriteByte_appends]. }
  destruct (Ha (csv.w cw) He) as (E1 & E2 & E3).
  destruct (csv.andThen _ _ (csv.w cw)) as [b e]. cbn [fst snd] in *.
  repeat split; assumption.
Qed.

Lemma encodeRecords_app (comma : Z) (useCRLF : bool) (l1 l2 : list (list string)) :
  encodeRecords comma useCRLF (l1 ++ l2)
  = (encodeRecords comma useCRLF l1 ++ encodeRecords comma useCRLF l2)%string.
Proof.
  induction l1 as [|r l1 IH]; [reflexivity|].
  cbn [encodeRecords app]. now rewrite append_assoc, IH.
Qed.

(** The loop over rows that all decode, into memory: it reads every row,
    returns no error and adds the lines of the data rows. *)
Lemma writeRows_stream (c : Converter) (columnNames : list string) :
  forall pending (cw : csv.Writer bytes.Buffer),
    csv.validDelim (csv.Comma cw) = true -> bufio.err (csv.w cw) = None ->
    Forall (decodes (List.length columnNames)) pending ->
    exists cw',
      Converter.writeRows c columnNames (List.length columnNames) cw pending
      = ([], cw', None)
      /\ bufio.err (csv.w cw') = None
      /\ csvStream cw'
         = (csvStream cw
            ++ encodeRecords (csv.Comma cw) (csv.UseCRLF cw)
                 (dataRows c columnNames pending))%string.
Proof.
  induction pending as [|lastcols pending IH]; intros cw Hv He Hall.
  - exists cw. cbn. now rewrite append_nil_r.
  - inversion Hall as [|x l [values Hscan] Hrest]; subst.
    cbn [Converter.writeRows dataRows]. rewrite Hscan.
    destruct (dataRow_step c columnNames values) as [[Hk ->] | [Hk ->]];
      destruct (match rowPreProcessor c with
                | Some f => f (Converter.formatRow c values) columnNames
                | None => (true, Converter.formatRow c values)
                end) as [keep row]; cbn [fst snd] in *; subst keep;
      [|now apply IH].
    destruct (csv_Write_stream cw row Hv He) as (E1 & E2 & E3 & E4 & E5).
    destruct (csv.Write cw row) as [cw1 e]. cbn [fst snd] in *. subst e.
    destruct (IH cw1) as (cw' & Hw & He' & Hs);
      [now rewrite E3 | exact E2 | exact Hrest |].
    exists cw'. rewrite Hw. repeat split; [exact He'|].
    rewrite Hs, E5, E3, E4. cbn [encodeRecords]. now rewrite !append_assoc.
Qed.

(** A conversion into memory in which every row decodes: the text is that of
    the header row, if asked for, and of the data rows, all of it flushed;
    the error is the one the rows report at their end. *)
Lemma WriteString_text (c : Converter) (columnNames : list string) :
  sql.Columns (rows c) = Ok columnNames ->
  csv.validDelim (delimiter c) = true ->
  Forall (decodes (List.length columnNames)) (sql.pending (rows c)) ->
  Converter.WriteString c
  = (encodeRecords (delimiter c) false
       (headerRows c columnNames ++ dataRows c columnNames (sql.pending (rows c))),
     sql.Err (rows c)).
Proof.
  intros Hcols Hv Hall.
  unfold Converter.WriteString, Converter.Write. rewrite Hcols, headers_choice.
  set (cw0 := if negb (Delimiter c =? 0)%Z
              then csv.withComma (csv.NewWriter bytes.empty) (Delimiter c)
              else csv.NewWriter bytes.empty).
  assert (H0 : csv.Comma cw0 = delimiter c /\ csv.UseCRLF cw0 = false
               /\ bufio.err (csv.w cw0) = None /\ csvStream cw0 = EmptyString).
  { subst cw0. unfold delimiter. destruct (Delimiter c =? 0)%Z; cbn; auto. }
  destruct H0 as (HC & HU & HE & HS).
  assert (Hhdr : exists cw1,
             (if WriteHeaders c then csv.Write cw0 (headerRow c columnNames)
              else (cw0, None)) = (cw1, None)
             /\ csv.Comma cw1 = delimiter c /\ csv.UseCRLF cw1 = false
             /\ bufio.err (csv.w cw1) = None
             /\ csvStream cw1
                = encodeRecords (delimiter c) false (headerRows c columnNames)).
  { unfold headerRows. destruct (WriteHeaders c).
    - destruct (csv_Write_stream cw0 (headerRow c columnNames))
        as (E1 & E2 & E3 & E4 & E5); [now rewrite HC | exact HE |].
      destruct (csv.Write cw0 (headerRow c columnNames)) as [cw1 e].
      cbn [fst snd] in *. subst e. exists cw1.
      rewrite E3, E4, E5, HS, HC, HU. cbn [encodeRecords].
      now rewrite append_nil_r.
    - exists cw0. auto. }
  destruct Hhdr as (cw1 & -> & HC1 & HU1 & HE1 & HS1).
  destruct (writeRows_stream c columnNames (sql.pending (rows c)) cw1)
    as (cw2 & -> & HE2 & HS2); [now rewrite HC1 | exact HE1 | exact Hall |].
  unfold Converter.writerOf, Converter.errorOf. cbn [fst snd csv.Flush csv.w].
  destruct (Flush_stream (csv.w cw2) HE2) as (_ & _ & ->).
  f_equal. unfold bytes.String. fold (csvStream cw2).
  now rewrite HS2, HS1, HC1, HU1, encodeRecords_app.
Qed.

(** The scenario of the specification: two rows under the settings of [New]. *)
Example WriteString_two_rows :
  WriteString twoRows
  = ((line "id,name" ++ line "1,Alice" ++ line "2,Bob")%string, None).
Proof. vm_compute. reflexivity. Qed.

(** ** The records and the text agree *)

Section Faithful.
Variable comma : Z.
Hypothesis Hvalid : csv.validDelim comma = true.

Lemma csv_Write_faithful (cw : csv.Writer bytes.Buffer) (record : list string) :
  faithful comma cw -> faithful comma (fst (csv.Write cw record)).
Proof.
  intros (HC & HU & He & Hs).
  destruct (csv_Write_stream cw record) as (_ & E2 & E3 & E4 & E5);
    [now rewrite HC | exact He |].
  repeat split; [congruence | congruence | exact E2 |].
  rewrite E5, csv_Write_records, encodeRecords_app, Hs, HC, HU.
  cbn [encodeRecords]. now rewrite append_nil_r.
Qed.

Lemma csv_Flush_faithful (cw : csv.Writer bytes.Buffer) :
  faithful comma cw -> faithful comma (csv.Flush cw).
Proof.
  intros (HC & HU & He & Hs). repeat split; try assumption.
  - apply (Flush_stream (csv.w cw) He).
  - unfold csvStream, csv.Flush. cbn [csv.w csv.records].
    rewrite (stream_Flush (csv.w cw) He). exact Hs.
Qed.

Lemma writeRows_faithful (c : Converter) (columnNames : list string) (count : nat) :
  forall pending (cw : csv.Writer bytes.Buffer),
    faithful comma cw ->
    faithful comma (snd (fst (Converter.writeRows c columnNames count cw pending))).
Proof.
  induction pending as [|lastcols pending IH]; intros cw Hf;
    cbn [Converter.writeRows]; [exact Hf|].
  destruct (sql.Scan lastcols count) as [values|e]; [|exact Hf].
  destruct (match rowPreProcessor c with
            | Some f => f (Converter.formatRow c values) columnNames
            | None => (true, Converter.formatRow c values)
            end) as [[|] row]; [|now apply IH].
  pose proof (csv_Write_faithful cw row Hf) as Hf'.
  destruct (csv.Write cw row) as [cw' [e|]]; cbn [fst snd] in *; [exact Hf'|].
  now apply IH.
Qed.

End Faithful.

(** In every conversion into memory with a valid delimiter, failed or not,
    what the csv writer has taken is the text of the records handed to it. *)
Lemma Write_faithful (c : Converter) :
  csv.validDelim (delimiter c) = true ->
  faithful (delimiter c) (snd (fst (Converter.Write c bytes.empty))).
Proof.
  intros Hv. unfold Converter.Write.
  set (cw0 := if negb (Delimiter c =? 0)%Z
              then csv.withComma (csv.NewWriter bytes.empty) (Delimiter c)
              else csv.NewWriter bytes.empty).
  assert (H0 : faithful (delimiter c) cw0).
  { subst cw0. unfold delimiter, faithful. destruct (Delimiter c =? 0)%Z; cbn; auto. }
  destruct (sql.Columns (rows c)) as [columnNames|e]; [|exact H0].
  set (hdr := if WriteHeaders c then _ else _).
  assert (H1 : faithful (delimiter c) (fst hdr)).
  { subst hdr. destruct (WriteHeaders c); [now apply csv_Write_faithful | exact H0]. }
  destruct hdr as [cw1 [e|]]; [exact H1|].
  pose proof (writeRows_faithful (delimiter c) Hv c columnNames
                (List.length columnNames) (sql.pending (rows c)) cw1 H1) as H2.
  destruct (Converter.writeRows _ _ _ _ _) as [[rest cw2] [e|]]; [exact H2|].
  now apply csv_Flush_faithful.
Qed.

(** * The claims *)

(** C1 (the code does not do this).  The claim: the csv writer is flushed
    before [Write] returns also when an error occurred, so that a decode
    failure on the second data row leaves the header row and the first data
    row in the output.  The code: the [return] inside the loop comes before
    [csvWriter.Flush()].  With the second of three rows failing to decode,
    [WriteString] returns the decode error and the empty string; the two
    rows written before the failure are still held back in the buffered
    writer, which is dropped. *)
Theorem C1_decode_failure_leaves_rows_unflushed :
  WriteString rowsDecodeFailure = (EmptyString, Some decodeError)
  /\ bufio.buf (csv.w (snd (fst (Write bytes.empty rowsDecodeFailure))))
     = (line "id,name" ++ line "1,Alice")%string
  /\ csv.records (snd (fst (Write bytes.empty rowsDecodeFailure)))
     = [["id"; "name"]; ["1"; "Alice"]]
  /\ WriteString rowsDecodeFailure
     <> ((line "id,name" ++ line "1,Alice")%string, Some decodeError).
Proof. vm_compute. repeat split. discriminate. Qed.

(** The path beside it: when the rows end with an error, [Write] flushes and
    then returns the error. *)
Example WriteString_rows_cut_short :
  WriteString rowsCutShort
  = ((line "id,name" ++ line "1,Alice")%string, Some connectionLost).
Proof. vm_compute. reflexivity. Qed.

(** C2, as claimed, fails: the formatter does not strip exactly one quote at
    each end.  A marshaled text of abc inside two pairs of quotes comes out
    as abc, not as abc inside one pair; and the JSON text of a string that
    ends in a quote loses the escaped quote at its end too. *)
Lemma C2_every_quote_is_stripped :
  string_of_list_byte (list_byte_of_string (quoted (quoted "abc")))
  = quoted (quoted "abc")
  /\ Converter.toString (New noRows) (VOther doublyQuoted) = "abc"
  /\ Converter.toString (New noRows) (VOther doublyQuoted) <> quoted "abc"
  /\ Converter.toString (New noRows) (VOther endsInQuote)
     = ("abc" ++ String backslash EmptyString)%string.
Proof. vm_compute. repeat split. discriminate. Qed.

(** C2, amended.  For every value handled by its [MarshalJSON] method or by
    the [json.Marshal] fallback, the formatter strips every leading and every
    trailing double quote from the marshaled text: the text is the result
    between two runs of quotes, and the result neither starts nor ends with a
    quote. *)
Theorem C2_quotes_trimmed_at_both_ends
  (c : Converter) (val : other) (jsonData : list byte) :
  MarshalJSON val = Some (Ok jsonData)
  \/ ((MarshalJSON val = None \/ exists e, MarshalJSON val = Some (Err e))
      /\ Stringer val = None /\ json.Marshal val = Ok jsonData) ->
  let s := Converter.toString c (VOther val) in
  exists n m,
    string_of_list_byte jsonData = (replicate n dquote ++ s ++ replicate m dquote)%string
    /\ firstByte s <> Some dquote /\ lastByte s <> Some dquote.
Proof.
  intros Hval s.
  assert (Es : s = strings.Trim (string_of_list_byte jsonData) Converter.quoteCutset).
  { subst s. unfold Converter.toString, json.Marshal in *.
    destruct Hval as [-> | ([-> | [e ->]] & -> & ->)]; reflexivity. }
  rewrite Es. apply Trim_byte_spec. vm_compute. reflexivity.
Qed.

Lemma C2_quotes_trimmed_witness :
  MarshalJSON doublyQuoted = Some (Ok (list_byte_of_string (quoted (quoted "abc"))))
  /\ exists n m,
      string_of_list_byte (list_byte_of_string (quoted (quoted "abc")))
      = (replicate n dquote ++ Converter.toString (New noRows) (VOther doublyQuoted)
         ++ replicate m dquote)%string
      /\ firstByte (Converter.toString (New noRows) (VOther doublyQuoted)) <> Some dquote
      /\ lastByte (Converter.toString (New noRows) (VOther doublyQuoted)) <> Some dquote.
Proof.
  split; [reflexivity|].
  apply (C2_quotes_trimmed_at_both_ends (New noRows) doublyQuoted
           (list_byte_of_string (quoted (quoted "abc")))).
  left. reflexivity.
Defined.

(** C3.  In every conversion that gets the column names, the records handed
    to the csv writer are the header rows followed by data rows: with
    [WriteHeaders] exactly one header row, written first, which is [Headers]
    when that is not empty and the column names otherwise; without
    [WriteHeaders] no header row.  Into memory, with a valid delimiter, the
    bytes the csv writer has taken are the text of these records, and when
    the rows all decode that text is what the conversion returns. *)
Theorem C3_header_row_first (c : Converter) (columnNames : list string) :
  sql.Columns (rows c) = Ok columnNames ->
  (forall (W : Type) (IO : io.Writer W) (writer : W),
      exists data,
        csv.records (snd (fst (Converter.Write c writer)))
        = headerRows c columnNames ++ data
        /\ isPrefix data (dataRows c columnNames (sql.pending (rows c))))
  /\ headerRows c columnNames
     = (if WriteHeaders c
        then [match Headers c with [] => columnNames | _ :: _ => Headers c end]
        else [])
  /\ (csv.validDelim (delimiter c) = true ->
      csvStream (snd (fst (Converter.Write c bytes.empty)))
      = encodeRecords (delimiter c) false
          (csv.records (snd (fst (Converter.Write c bytes.empty)))))
  /\ (csv.validDelim (delimiter c) = true ->
      Forall (decodes (List.length columnNames)) (sql.pending (rows c)) ->
      Converter.WriteString c
      = (encodeRecords (delimiter c) false
           (headerRows c columnNames
            ++ dataRows c columnNames (sql.pending (rows c))),
         sql.Err (rows c))).
Proof.
  intros Hcols. split; [|split; [|split]].
  - intros W IO writer. now apply Write_records.
  - reflexivity.
  - intros Hv. apply (Write_faithful c Hv).
  - intros Hv Hall. now apply WriteString_text.
Qed.

Lemma C3_header_row_first_witness :
  sql.Columns (rows (New twoRows)) = Ok ["id"; "name"]
  /\ csv.records (snd (fst (Converter.Write (New twoRows) bytes.empty)))
     = [["id"; "name"]; ["1"; "Alice"]; ["2"; "Bob"]]
  /\ Converter.WriteString (New twoRows)
     = ((line "id,name" ++ line "1,Alice" ++ line "2,Bob")%string, None).
Proof.
  split; [reflexivity|].
  destruct (C3_header_row_first (New twoRows) ["id"; "name"] eq_refl)
    as (Hrecords & _ & _ & Htext).
  split.
  - destruct (Hrecords bytes.Buffer _ bytes.empty) as (data & Hr & _).
    vm_compute. reflexivity.
  - rewrite Htext.
    + reflexivity.
    + reflexivity.
    + repeat constructor; eexists; reflexivity.
Defined.

(** C5.  For every byte sequence and each of the four base64 settings of
    [ByteArrayConverter], decoding the formatted text with the decoder of the
    same encoding gives the bytes back; so does the hex setting, whose text
    has two characters per byte, all of them lower-case hexadecimal digits,
    and renders the bytes AB CD as abcd. *)
Theorem C5_encodings_round_trip (c : Converter) (val : list byte) :
  base64.DecodeString base64.StdEncoding
    (Converter.toString (withByteArrayConverter c StdBase64) (VBytes val)) = Ok val
  /\ base64.DecodeString base64.URLEncoding
       (Converter.toString (withByteArrayConverter c URLBase64) (VBytes val)) = Ok val
  /\ base64.DecodeString base64.RawStdEncoding
       (Converter.toString (withByteArrayConverter c RawStdBase64) (VBytes val)) = Ok val
  /\ base64.DecodeString base64.RawURLEncoding
       (Converter.toString (withByteArrayConverter c RawURLBase64) (VBytes val)) = Ok val
  /\ hex.DecodeString
       (Converter.toString (withByteArrayConverter c Hex) (VBytes val)) = Ok val
  /\ String.length (Converter.toString (withByteArrayConverter c Hex) (VBytes val))
     = (2 * List.length val)%nat
  /\ allBytes lowerHexDigit
       (Converter.toString (withByteArrayConverter c Hex) (VBytes val)) = true
  /\ Converter.toString (withByteArrayConverter c Hex) (VBytes [xab; xcd]) = "abcd".
Proof.
  cbn [Converter.toString withByteArrayConverter ByteArrayConverter].
  repeat split;
    try (apply DecodeString_EncodeToString; vm_compute; reflexivity).
  - apply hex_DecodeString_EncodeToString.
  - apply hex_EncodeToString_shape.
  - apply hex_EncodeToString_shape.
Qed.

(** C6.  Under every configuration, formatting [nil] gives the empty
    string. *)
Theorem C6_nil_formats_to_empty (c : Converter) :
  Converter.toString c VNil = EmptyString.
Proof. reflexivity. Qed.

(** C7.  When the row pre-processor answers false for every row, no data
    row is handed to the csv writer, whatever the rows and the writer: the
    records are the header row alone if [WriteHeaders] is set (and the column
    names were to be had), and none otherwise.  A row that decodes is dropped
    with the csv writer untouched, and the loop goes on with the next row.
    Into memory, with a valid delimiter and rows that all decode, the text is
    the header line alone, empty without [WriteHeaders]. *)
Theorem C7_skipped_rows_are_not_written (c : Converter) (p : CsvPreProcessorFunc) :
  rowPreProcessor c = Some p ->
  (forall row names, fst (p row names) = false) ->
  (forall (W : Type) (IO : io.Writer W) (writer : W),
      csv.records (snd (fst (Converter.Write c writer)))
      = match sql.Columns (rows c) with
        | Ok columnNames => headerRows c columnNames
        | Err _ => []
        end)
  /\ (forall (W : Type) (IO : io.Writer W) (csvWriter : csv.Writer W)
             columnNames values pending,
         List.length values = List.length columnNames ->
         Converter.writeRows c columnNames (List.length columnNames) csvWriter
           (Ok values :: pending)
         = Converter.writeRows c columnNames (List.length columnNames) csvWriter pending)
  /\ (forall columnNames,
         sql.Columns (rows c) = Ok columnNames ->
         csv.validDelim (delimiter c) = true ->
         Forall (decodes (List.length columnNames)) (sql.pending (rows c)) ->
         Converter.WriteString c
         = (encodeRecords (delimiter c) false (headerRows c columnNames),
            sql.Err (rows c))
         /\ (WriteHeaders c = false -> fst (Converter.WriteString c) = EmptyString)).
Proof.
  intros Hp Hskip. split; [|split].
  - intros W IO writer.
    destruct (sql.Columns (rows c)) as [columnNames|e] eqn:Hcols.
    + destruct (Write_records c writer columnNames Hcols) as (data & Hr & [l Hl]).
      rewrite (dataRows_skipped c p columnNames Hp Hskip) in Hl.
      symmetry in Hl. apply app_eq_nil in Hl. destruct Hl as [-> _].
      now rewrite app_nil_r in Hr.
    + unfold Converter.Write. rewrite Hcols. cbn [fst snd].
      destruct (negb (Delimiter c =? 0)%Z); reflexivity.
  - intros W IO csvWriter columnNames values pending Hlen.
    cbn [Converter.writeRows]. unfold sql.Scan.
    rewrite Hlen, Nat.eqb_refl, Hp.
    specialize (Hskip (Converter.formatRow c values) columnNames).
    destruct (p (Converter.formatRow c values) columnNames) as [keep row].
    cbn [fst] in Hskip. now rewrite Hskip.
  - intros columnNames Hcols Hv Hall.
    assert (Ht := WriteString_text c columnNames Hcols Hv Hall).
    rewrite (dataRows_skipped c p columnNames Hp Hskip), app_nil_r in Ht.
    split; [exact Ht|].
    intros Hh. rewrite Ht. unfold headerRows. now rewrite Hh.
Qed.

Lemma C7_skipped_rows_witness :
  rowPreProcessor (Converter.SetRowPreProcessor (New twoRows) skipAll) = Some skipAll
  /\ sql.Columns (rows (Converter.SetRowPreProcessor (New twoRows) skipAll))
     = Ok ["id"; "name"]
  /\ Converter.WriteString (Converter.SetRowPreProcessor (New twoRows) skipAll)
     = (line "id,name", None).
Proof.
  split; [reflexivity|]. split; [reflexivity|].
  destruct (C7_skipped_rows_are_not_written
              (Converter.SetRowPreProcessor (New twoRows) skipAll) skipAll
              eq_refl (fun _ _ => eq_refl)) as (_ & _ & Htext).
  destruct (Htext ["id"; "name"]) as [Ht _].
  - reflexivity.
  - reflexivity.
  - repeat constructor; eexists; reflexivity.
  - rewrite Ht. reflexivity.
Defined.

(** C8.  No value of the supported types makes [toString] panic: for [nil]
    and every type of the type switch the call returns, under every
    configuration, and returns the string of [toString]; a value of another
    type, as long as its own methods return, is resolved too, through the
    fallbacks and not by a failure, down to what [fmt.Sprintf] prints when
    [MarshalJSON] is missing or returns an error, there is no [String]
    method and [json.Marshal] returns an error.  The string is a function of
    the value and of [ByteArrayConverter], [TimeFormat] and [FloatFormat]
    alone: a configuration that agrees on these three gives the same
    outcome. *)
Theorem C8_toString_total_and_deterministic
  (methods : other -> foreign) (c c' : Converter) (v : any) :
  ByteArrayConverter c = ByteArrayConverter c' ->
  TimeFormat c = TimeFormat c' ->
  FloatFormat c = FloatFormat c' ->
  (supported v = true \/ exists val, v = VOther val /\ methods val = returning val) ->
  Converter.toStringOrPanic methods c v = Returns (Converter.toString c v)
  /\ Converter.toStringOrPanic methods c' v = Returns (Converter.toString c v)
  /\ (forall val : other,
         v = VOther val ->
         (MarshalJSON val = None \/ exists e, MarshalJSON val = Some (Err e)) ->
         Stringer val = None ->
         (exists e, json.Marshal val = Err e) ->
         Converter.toStringOrPanic methods c v = Returns (fmt.Sprint val)).
Proof.
  intros Hb Ht Hf Hv.
  assert (Hc : forall k : Converter,
             ByteArrayConverter c = ByteArrayConverter k ->
             TimeFormat c = TimeFormat k ->
             FloatFormat c = FloatFormat k ->
             Converter.toStringOrPanic methods k v = Returns (Converter.toString c v)).
  { intros k Kb Kt Kf. destruct Hv as [Hs | (val & -> & Hm)].
    - destruct v; try discriminate Hs;
        cbn [Converter.toStringOrPanic Converter.toString];
        rewrite <- ?Kb, <- ?Kt, <- ?Kf; try reflexivity;
        destruct (negb (String.eqb (FloatFormat c) "")); reflexivity.
    - cbn [Converter.toStringOrPanic Converter.toString]. rewrite Hm.
      unfold returning, json.Marshal. cbn [callMarshalJSON callString callMarshal].
      destruct (MarshalJSON val) as [[jsonData|e]|], (Stringer val) as [s|],
        (marshal val) as [jsonData'|e']; reflexivity. }
  split; [now apply Hc|]. split; [now apply Hc|].
  intros val -> Hm Hs [e He].
  rewrite (Hc c eq_refl eq_refl eq_refl). f_equal.
  cbn [Converter.toString]. rewrite Hs, He.
  destruct Hm as [-> | [e' ->]]; reflexivity.
Qed.

Lemma C8_toString_witness :
  supported (VInt64 (-42)) = true
  /\ Converter.toStringOrPanic panicking (withByteArrayConverter (New twoRows) Hex)
       (VInt64 (-42)) = Returns "-42"
  /\ Converter.toStringOrPanic panicking
       (Converter.SetRowPreProcessor (withByteArrayConverter (New noRows) Hex) skipAll)
       (VInt64 (-42)) = Returns "-42".
Proof.
  split; [reflexivity|].
  destruct (C8_toString_total_and_deterministic panicking
              (withByteArrayConverter (New twoRows) Hex)
              (Converter.SetRowPreProcessor (withByteArrayConverter (New noRows) Hex) skipAll)
              (VInt64 (-42)) eq_refl eq_refl eq_refl (or_introl eq_refl))
    as (H1 & H2 & _).
  split; [exact H1 | exact H2].
Defined.

(** What the hypothesis on the methods is for: a value of another type whose
    [String] method panics takes [toString] down with it, and an illegal
    base would do the same to a number. *)
Example toString_panics_with_the_method :
  Converter.toStringOrPanic panicking (New noRows) (VOther brokenStringer)
  = Panics nilDereference
  /\ strconv.FormatIntOrPanic 42 1 = Panics "strconv: illegal AppendInt/FormatInt base".
Proof. split; reflexivity. Qed.

(** C9.  Whenever [os.Create] opened the file, [WriteFile] leaves the handle
    closed, whether the conversion succeeded or failed; it returns the error
    of the conversion when there is one and what closing the file reports
    otherwise.  What the conversion wrote to the file is still there. *)
Theorem C9_WriteFile_closes_the_file
  (fs : os.FileSystem) (c : Converter) (csvFileName : string) (f : os.File) :
  os.Create fs csvFileName = Ok f ->
  exists f',
    Converter.WriteFile fs c csvFileName
    = (Some f',
       match Converter.errorOf (Converter.Write c f) with
       | Some err => Some err
       | None => os.closeErr f
       end)
    /\ os.closed f' = true
    /\ os.data f' = os.data (Converter.writerOf (Converter.Write c f)).
Proof.
  intros Hcreate. unfold Converter.WriteFile. rewrite Hcreate.
  assert (Hopen : os.closed f = false).
  { unfold os.Create in Hcreate. destruct (fs csvFileName); [|discriminate].
    now injection Hcreate as <-. }
  destruct (Write_keeps (fun g => os.closed g = false /\ os.closeErr g = os.closeErr f))
    with (c := c) (writer := f) as [Hc He]; [|auto|].
  { intros w p [Hw1 Hw2]. cbn [io.Write os.File_Writer]. unfold os.Write.
    rewrite Hw1. destruct (os.room w) as [r|]; [|auto].
    destruct (String.length p <=? r)%nat; auto. }
  unfold os.Close. rewrite Hc.
  destruct (Converter.errorOf (Converter.Write c f)); eexists; rewrite ?He; repeat split.
Qed.

Lemma C9_WriteFile_witness :
  os.Create fullDisk "out.csv"
  = Ok {| os.name := "out.csv"; os.data := EmptyString; os.closed := false;
          os.room := Some 0%nat; os.closeErr := Some quotaExceeded |}
  /\ exists f',
      Converter.WriteFile fullDisk (New rowsDecodeFailure) "out.csv"
      = (Some f', Some decodeError)
      /\ os.closed f' = true.
Proof.
  split; [reflexivity|].
  destruct (C9_WriteFile_closes_the_file fullDisk (New rowsDecodeFailure) "out.csv"
              _ eq_refl) as (f' & Hw & Hc & _).
  exists f'. split; [|exact Hc].
  rewrite Hw. vm_compute. reflexivity.
Defined.

(** A conversion that succeeds, into a file that cannot be closed cleanly:
    the error of [Close] is what [WriteFile] returns. *)
Example WriteFile_returns_the_close_error :
  exists f',
    WriteFile fullDisk "out.csv" noRows = (Some f', Some quotaExceeded)
    /\ os.closed f' = true.
Proof. eexists. vm_compute. split; reflexivity. Qed.

(** C10.  When the conversion fails, [String] returns the empty string: the
    error is dropped, and with it whatever text had been produced before the
    failure. *)
Theorem C10_String_swallows_the_error (c : Converter) (err : error) :
  snd (Converter.WriteString c) = Some err -> Converter.String c = EmptyString.
Proof.
  intros Herr. unfold Converter.String.
  destruct (Converter.WriteString c) as [csv e]. cbn [snd] in Herr. now rewrite Herr.
Qed.

Lemma C10_String_witness :
  snd (Converter.WriteString (New rowsCutShort)) = Some connectionLost
  /\ fst (Converter.WriteString (New rowsCutShort))
     = (line "id,name" ++ line "1,Alice")%string
  /\ Converter.String (New rowsCutShort) = EmptyString.
Proof.
  split; [vm_compute; reflexivity|]. split; [vm_compute; reflexivity|].
  apply (C10_String_swallows_the_error (New rowsCutShort) connectionLost).
  vm_compute. reflexivity.
Defined.

(** * More on the conversion *)

(** ** Rows that decode, and the rows after them *)

Lemma dataRows_app (c : Converter) (columnNames : list string) :
  forall before rest,
    Forall (decodes (List.length columnNames)) before ->
    dataRows c columnNames (before ++ rest)
    = dataRows c columnNames before ++ dataRows c columnNames rest.
Proof.
  induction before as [|lastcols before IH]; intros rest Hall; [reflexivity|].
  inversion Hall as [|x l [values Hscan] Hrest]; subst.
  cbn [app dataRows]. rewrite Hscan, (IH rest Hrest).
  destruct (dataRow c columnNames values); reflexivity.
Qed.

Lemma length_encodeRecords_app (comma : Z) (useCRLF : bool)
  (l1 l2 : list (list string)) :
  String.length (encodeRecords comma useCRLF (l1 ++ l2))
  = (String.length (encodeRecords comma useCRLF l1)
     + String.length (encodeRecords comma useCRLF l2))%nat.
Proof. now rewrite encodeRecords_app, length_append. Qed.

(** ** A conversion that fits the buffer *)

Lemma UTFMax_le_defaultBufSize : (utf8.UTFMax <= bufio.defaultBufSize)%nat.
Proof. apply Nat.leb_le. vm_compute. reflexivity. Qed.

Section Buffers.
Context {W : Type} `{io.Writer W}.

Lemma writeStringLoop_fits (fuel : nat) (b : bufio.Writer W) (s : string) :
  (String.length s <= bufio.Available b)%nat ->
  bufio.writeStringLoop fuel b s = Some (b, s).
Proof.
  intros Hfit. apply Nat.ltb_ge in Hfit.
  destruct fuel; cbn [bufio.writeStringLoop]; now rewrite Hfit.
Qed.

Lemma WriteString_buffers (s : string) : buffers (csv.WriteString s) s.
Proof.
  intros b He Hroom. unfold csv.WriteString, bufio.WriteString.
  rewrite writeStringLoop_fits.
  - rewrite He. cbn. auto.
  - unfold roomFor, bufio.Available in *. lia.
Qed.

Lemma WriteByte_buffers (c : ascii) : buffers (csv.WriteByte c) (String c EmptyString).
Proof.
  intros b He Hroom. unfold csv.WriteByte, bufio.WriteByte. rewrite He.
  assert (Hc : (bufio.Available b <=? 0)%nat = false).
  { apply Nat.leb_gt. unfold roomFor, bufio.Available in *.
    cbn [String.length] in Hroom. lia. }
  rewrite Hc, He. cbn. auto.
Qed.

Lemma WriteRune_buffers (r : Z) : buffers (csv.WriteRune r) (utf8.EncodeRune r).
Proof.
  intros b He Hroom. unfold csv.WriteRune, bufio.WriteRune.
  destruct ((0 <=? r)%Z && (r <? utf8.RuneSelf)%Z) eqn:Hr.
  - rewrite (EncodeRune_ascii r Hr) in *. now apply WriteByte_buffers.
  - rewrite He.
    assert (Hc : (bufio.Available b <? utf8.UTFMax)%nat = false).
    { apply Nat.ltb_ge. unfold roomFor, bufio.Available in *. lia. }
    rewrite Hc. cbn. auto.
Qed.

Lemma done_buffers : buffers (@csv.done W) EmptyString.
Proof. intros b He _. cbn. now rewrite append_nil_r. Qed.

Lemma andThen_buffers (m1 m2 : @csv.step W) (t1 t2 : string) :
  buffers m1 t1 -> buffers m2 t2 -> buffers (csv.andThen m1 m2) (t1 ++ t2)%string.
Proof.
  intros H1 H2 b He Hroom. unfold csv.andThen.
  unfold roomFor, bufio.Buffered in Hroom. rewrite length_append in Hroom.
  destruct (H1 b He) as (E1 & E2 & E3 & E4);
    [unfold roomFor, bufio.Buffered; lia|].
  destruct (m1 b) as [b1 e1]. cbn [fst snd] in *. subst e1.
  destruct (H2 b1 E2) as (F1 & F2 & F3 & F4).
  { unfold roomFor, bufio.Buffered. rewrite E4, length_append. lia. }
  repeat split; try assumption.
  - now rewrite F3.
  - now rewrite F4, E4, append_assoc.
Qed.

Lemma buffers_text (m : @csv.step W) (t1 t2 : string) :
  t1 = t2 -> buffers m t1 -> buffers m t2.
Proof. now intros ->. Qed.

Lemma writeSpecial_buffers useCRLF ch :
  buffers (csv.writeSpecial useCRLF ch) (encodeSpecial useCRLF ch).
Proof.
  unfold csv.writeSpecial, encodeSpecial.
  destruct (Ascii.eqb ch dquote), (Ascii.eqb ch CR), useCRLF;
    auto using WriteString_buffers, WriteByte_buffers, done_buffers.
Qed.

Lemma writeQuoted_buffers useCRLF field :
  forall run,
    buffers (csv.writeQuoted useCRLF run field)
      (run ++ encodeQuoted useCRLF field)%string.
Proof.
  induction field as [|ch rest IH]; intros run; cbn [csv.writeQuoted encodeQuoted].
  - rewrite append_nil_r. destruct run; [apply done_buffers | apply WriteString_buffers].
  - destruct (csv.isQuoteOrBreak ch).
    + apply andThen_buffers; [apply WriteString_buffers|].
      apply andThen_buffers; [apply writeSpecial_buffers|].
      apply (buffers_text _ (EmptyString ++ encodeQuoted useCRLF rest)%string);
        [reflexivity | apply IH].
    + eapply buffers_text; [|apply IH]. now rewrite append_assoc.
Qed.

Lemma writeField_buffers comma useCRLF field :
  buffers (csv.writeField comma useCRLF field) (encodeField comma useCRLF field).
Proof.
  unfold csv.writeField, encodeField.
  destruct (csv.fieldNeedsQuotes comma field); cbn [negb].
  - apply (andThen_buffers _ _ (String dquote EmptyString)); [apply WriteByte_buffers|].
    apply andThen_buffers; [|apply WriteByte_buffers].
    apply (writeQuoted_buffers useCRLF field EmptyString).
  - apply WriteString_buffers.
Qed.

Lemma writeFields_buffers comma useCRLF record :
  forall first,
    buffers (csv.writeFields comma useCRLF first record)
      (encodeFields comma useCRLF first record).
Proof.
  induction record as [|field rest IH]; intros first;
    cbn [csv.writeFields encodeFields]; [apply done_buffers|].
  apply andThen_buffers.
  - destruct first; [apply done_buffers | apply WriteRune_buffers].
  - apply andThen_buffers; [apply writeField_buffers | apply IH].
Qed.

(** [Write] of encoding/csv, with a valid delimiter and room in the buffer
    for the line of the record: the line is held back and the writer
    underneath is not called. *)
Lemma csv_Write_buffers (cw : csv.Writer W) (record : list string) :
  csv.validDelim (csv.Comma cw) = true -> bufio.err (csv.w cw) = None ->
  roomFor (csv.w cw) (encodeRecord (csv.Comma cw) (csv.UseCRLF cw) record) ->
  let cw' := fst (csv.Write cw record) in
  snd (csv.Write cw record) = None
  /\ csv.Comma cw' = csv.Comma cw /\ csv.UseCRLF cw' = csv.UseCRLF cw
  /\ csv.records cw' = csv.records cw ++ [record]
  /\ bufio.err (csv.w cw') = None
  /\ bufio.wr (csv.w cw') = bufio.wr (csv.w cw)
  /\ bufio.buf (csv.w cw')
     = (bufio.buf (csv.w cw)
        ++ encodeRecord (csv.Comma cw) (csv.UseCRLF cw) record)%string.
Proof.
  intros Hv He Hroom. cbn zeta. unfold csv.Write. rewrite Hv. cbn [negb].
  match goal with
  | |- context [csv.andThen ?m1 ?m2 (csv.w cw)] =>
      assert (Ha : buffers (csv.andThen m1 m2)
                     (encodeRecord (csv.Comma cw) (csv.UseCRLF cw) record))
  end.
  { unfold encodeRecord. apply andThen_buffers; [apply writeFields_buffers|].
    destruct (csv.UseCRLF cw); [apply WriteString_buffers | apply WriteByte_buffers]. }
  destruct (Ha (csv.w cw) He Hroom) as (E1 & E2 & E3 & E4).
  destruct (csv.andThen _ _ (csv.w cw)) as [b e]. cbn [fst snd] in *.
  repeat split; assumption.
Qed.

(** The loop over rows that decode, as long as their lines fit the buffer:
    the lines are held back, and the loop goes on with the rows that
    follow. *)
Lemma writeRows_buffers (c : Converter) (columnNames : list string) :
  forall (before rest : list (result (list any))) (cw : csv.Writer W),
    csv.validDelim (csv.Comma cw) = true -> bufio.err (csv.w cw) = None ->
    Forall (decodes (List.length columnNames)) before ->
    roomFor (csv.w cw)
      (encodeRecords (csv.Comma cw) (csv.UseCRLF cw) (dataRows c columnNames before)) ->
    exists cw',
      Converter.writeRows c columnNames (List.length columnNames) cw (before ++ rest)
      = Converter.writeRows c columnNames (List.length columnNames) cw' rest
      /\ csv.Comma cw' = csv.Comma cw /\ csv.UseCRLF cw' = csv.UseCRLF cw
      /\ csv.records cw' = csv.records cw ++ dataRows c columnNames before
      /\ bufio.err (csv.w cw') = None
      /\ bufio.wr (csv.w cw') = bufio.wr (csv.w cw)
      /\ bufio.buf (csv.w cw')
         = (bufio.buf (csv.w cw)
            ++ encodeRecords (csv.Comma cw) (csv.UseCRLF cw)
                 (dataRows c columnNames before))%string.
Proof.
  induction before as [|lastcols before IH]; intros rest cw Hv He Hall Hroom.
  - exists cw. cbn. now rewrite app_nil_r, append_nil_r.
  - inversion Hall as [|x l [values Hscan] Hrest]; subst.
    cbn [app Converter.writeRows dataRows] in *. rewrite Hscan in *.
    destruct (dataRow_step c columnNames values) as [[Hk Hd] | [Hk Hd]];
      rewrite Hd in *;
      destruct (match rowPreProcessor c with
                | Some f => f (Converter.formatRow c values) columnNames
                | None => (true, Converter.formatRow c values)
                end) as [keep row]; cbn [fst snd] in *; subst keep;
      [|now apply IH].
    cbn [encodeRecords] in Hroom.
    unfold roomFor, bufio.Buffered in Hroom. rewrite length_append in Hroom.
    destruct (csv_Write_buffers cw row Hv He) as (E1 & E2 & E3 & E4 & E5 & E6 & E7);
      [unfold roomFor, bufio.Buffered; lia|].
    destruct (csv.Write cw row) as [cw1 e]. cbn [fst snd] in *. subst e.
    destruct (IH rest cw1) as (cw' & Hw & F2 & F3 & F4 & F5 & F6 & F7);
      [now rewrite E2 | exact E5 | exact Hrest | |].
    { unfold roomFor, bufio.Buffered. rewrite E7, E2, E3, length_append. lia. }
    exists cw'. rewrite Hw. repeat split; try congruence.
    + rewrite F4, E4, <- app_assoc. reflexivity.
    + rewrite F7, E7, E2, E3. cbn [encodeRecords]. now rewrite !append_assoc.
Qed.

(** [Write] up to the first row that may fail to decode, when the text so
    far fits the buffer: the text is held back, the writer has not been
    called, and what is left is the loop over the other rows, with the flush
    only on the path without error. *)
Lemma Write_buffers (c : Converter) (writer : W) (columnNames : list string)
  (before rest : list (result (list any))) :
  sql.Columns (rows c) = Ok columnNames ->
  csv.validDelim (delimiter c) = true ->
  sql.pending (rows c) = before ++ rest ->
  Forall (decodes (List.length columnNames)) before ->
  roomFor (bufio.NewWriter writer)
    (encodeRecords (delimiter c) false
       (headerRows c columnNames ++ dataRows c columnNames before)) ->
  exists cw,
    Converter.Write c writer
    = match Converter.writeRows c columnNames (List.length columnNames) cw rest with
      | (pending, csvWriter, Some err) => (pending, csvWriter, Some err)
      | (pending, csvWriter, None) => (pending, csv.Flush csvWriter, sql.Err (rows c))
      end
    /\ csv.records cw = headerRows c columnNames ++ dataRows c columnNames before
    /\ bufio.err (csv.w cw) = None
    /\ bufio.wr (csv.w cw) = writer
    /\ bufio.buf (csv.w cw)
       = encodeRecords (delimiter c) false
           (headerRows c columnNames ++ dataRows c columnNames before).
Proof.
  intros Hcols Hv Hpending Hall Hroom.
  unfold Converter.Write. rewrite Hcols, headers_choice, Hpending.
  set (cw0 := if negb (Delimiter c =? 0)%Z
              then csv.withComma (csv.NewWriter writer) (Delimiter c)
              else csv.NewWriter writer).
  assert (H0 : csv.Comma cw0 = delimiter c /\ csv.UseCRLF cw0 = false
               /\ csv.records cw0 = []
               /\ bufio.err (csv.w cw0) = None /\ bufio.wr (csv.w cw0) = writer
               /\ bufio.buf (csv.w cw0) = EmptyString).
  { subst cw0. unfold delimiter. destruct (Delimiter c =? 0)%Z; cbn; auto 7. }
  destruct H0 as (HC & HU & HR & HE & HW & HB).
  unfold roomFor, bufio.Buffered in Hroom. cbn [bufio.NewWriter bufio.buf] in Hroom.
  rewrite length_encodeRecords_app in Hroom. cbn [String.length Nat.add] in Hroom.
  assert (Hhdr : exists cw1,
             (if WriteHeaders c then csv.Write cw0 (headerRow c columnNames)
              else (cw0, None)) = (cw1, None)
             /\ csv.Comma cw1 = delimiter c /\ csv.UseCRLF cw1 = false
             /\ csv.records cw1 = headerRows c columnNames
             /\ bufio.err (csv.w cw1) = None /\ bufio.wr (csv.w cw1) = writer
             /\ bufio.buf (csv.w cw1)
                = encodeRecords (delimiter c) false (headerRows c columnNames)).
  { unfold headerRows in *. destruct (WriteHeaders c).
    - cbn [encodeRecords] in Hroom. rewrite append_nil_r in Hroom.
      destruct (csv_Write_buffers cw0 (headerRow c columnNames))
        as (E1 & E2 & E3 & E4 & E5 & E6 & E7);
        [now rewrite HC | exact HE | |].
      { unfold roomFor, bufio.Buffered. rewrite HB, HC, HU. cbn [String.length Nat.add].
        lia. }
      destruct (csv.Write cw0 (headerRow c columnNames)) as [cw1 e].
      cbn [fst snd] in *. subst e. exists cw1.
      rewrite E2, E3, E4, E6, E7, HB, HC, HU, HR. cbn [encodeRecords app append].
      rewrite append_nil_r. auto 7.
    - exists cw0. auto 7. }
  destruct Hhdr as (cw1 & -> & HC1 & HU1 & HR1 & HE1 & HW1 & HB1).
  destruct (writeRows_buffers c columnNames before rest cw1)
    as (cw2 & Hw & HC2 & HU2 & HR2 & HE2 & HW2 & HB2);
    [now rewrite HC1 | exact HE1 | exact Hall | |].
  { unfold roomFor, bufio.Buffered. rewrite HB1, HC1, HU1. lia. }
  exists cw2. rewrite Hw. split; [|repeat split].
  - destruct (Converter.writeRows _ _ _ cw2 rest) as [[pending cw3] [e|]]; reflexivity.
  - now rewrite HR2, HR1.
  - exact HE2.
  - now rewrite HW2.
  - now rewrite HB2, HB1, HC1, HU1, encodeRecords_app.
Qed.

End Buffers.

(** ** What holds of the buffered writer through a conversion *)

Create HintDb preserves.

Section Invariant.
Context {W : Type} `{io.Writer W}.
Variable I : bufio.Writer W -> Prop.
Hypothesis I_Flush : forall b, I b -> I (fst (bufio.Flush b)).
Hypothesis I_WriteString : forall b s, I b -> I (fst (bufio.WriteString b s)).
Hypothesis I_WriteByte : forall b c, I b -> I (fst (bufio.WriteByte b c)).
Hypothesis I_WriteRune : forall b r, I b -> I (fst (bufio.WriteRune b r)).

Lemma done_preserves : preserves I csv.done.
Proof. intros b Hb. exact Hb. Qed.

Lemma andThen_preserves (m1 m2 : @csv.step W) :
  preserves I m1 -> preserves I m2 -> preserves I (csv.andThen m1 m2).
Proof.
  intros H1 H2 b Hb. unfold csv.andThen.
  specialize (H1 b Hb). destruct (m1 b) as [b1 [e|]]; [exact H1|].
  apply H2. exact H1.
Qed.

Lemma csv_WriteString_preserves s : preserves I (csv.WriteString s).
Proof. intros b. apply I_WriteString. Qed.

Lemma csv_WriteByte_preserves c : preserves I (csv.WriteByte c).
Proof. intros b. apply I_WriteByte. Qed.

Lemma csv_WriteRune_preserves r : preserves I (csv.WriteRune r).
Proof. intros b. apply I_WriteRune. Qed.

Hint Resolve done_preserves andThen_preserves csv_WriteString_preserves
  csv_WriteByte_preserves csv_WriteRune_preserves : preserves.

Lemma writeSpecial_preserves useCRLF ch : preserves I (csv.writeSpecial useCRLF ch).
Proof.
  unfold csv.writeSpecial.
  destruct (Ascii.eqb ch dquote), (Ascii.eqb ch CR), useCRLF; auto with preserves.
Qed.
Hint Resolve writeSpecial_preserves : preserves.

Lemma writeQuoted_preserves useCRLF field :
  forall run, preserves I (csv.writeQuoted useCRLF run field).
Proof.
  induction field as [|ch rest IH]; intros run; cbn [csv.writeQuoted].
  - destruct run; auto with preserves.
  - destruct (csv.isQuoteOrBreak ch); auto with preserves.
Qed.
Hint Resolve writeQuoted_preserves : preserves.

Lemma writeField_preserves comma useCRLF field :
  preserves I (csv.writeField comma useCRLF field).
Proof.
  unfold csv.writeField.
  destruct (negb (csv.fieldNeedsQuotes comma field)); auto with preserves.
Qed.
Hint Resolve writeField_preserves : preserves.

Lemma writeFields_preserves comma useCRLF record :
  forall first, preserves I (csv.writeFields comma useCRLF first record).
Proof.
  induction record as [|field rest IH]; intros first; cbn [csv.writeFields].
  - auto with preserves.
  - destruct first; auto with preserves.
Qed.
Hint Resolve writeFields_preserves : preserves.

Lemma csv_Write_preserves (cw : csv.Writer W) (record : list string) :
  I (csv.w cw) -> I (csv.w (fst (csv.Write cw record))).
Proof.
  intros Hcw. unfold csv.Write.
  destruct (negb (csv.validDelim (csv.Comma cw))); [exact Hcw|].
  match goal with
  | |- context [csv.andThen ?m1 ?m2 (csv.w cw)] =>
      assert (Hk : preserves I (csv.andThen m1 m2))
        by (destruct (csv.UseCRLF cw); auto with preserves);
      specialize (Hk (csv.w cw) Hcw);
      destruct (csv.andThen m1 m2 (csv.w cw)) as [b e]
  end.
  exact Hk.
Qed.

Lemma csv_Flush_preserves (cw : csv.Writer W) :
  I (csv.w cw) -> I (csv.w (csv.Flush cw)).
Proof. intros Hcw. unfold csv.Flush. cbn. now apply I_Flush. Qed.

Lemma writeRows_preserves (c : Converter) (columnNames : list string) (count : nat) :
  forall pending (cw : csv.Writer W),
    I (csv.w cw) ->
    I (csv.w (snd (fst (Converter.writeRows c columnNames count cw pending)))).
Proof.
  induction pending as [|lastcols pending IH]; intros cw Hcw;
    cbn [Converter.writeRows]; [exact Hcw|].
  destruct (sql.Scan lastcols count) as [values|e]; [|exact Hcw].
  destruct (match rowPreProcessor c with
            | Some f => f (Converter.formatRow c values) columnNames
            | None => (true, Converter.formatRow c values)
            end) as [[|] row].
  - pose proof (csv_Write_preserves cw row Hcw) as Hw.
    destruct (csv.Write cw row) as [cw' [e|]]; [exact Hw | now apply IH].
  - now apply IH.
Qed.

(** What holds of a new buffered writer and is kept by its operations holds
    of the buffered writer [Write] leaves behind. *)
Lemma Write_preserves (c : Converter) (writer : W) :
  I (bufio.NewWriter writer) -> I (csv.w (snd (fst (Converter.Write c writer)))).
Proof.
  intros Hw. unfold Converter.Write.
  set (cw0 := if negb (Delimiter c =? 0)%Z
              then csv.withComma (csv.NewWriter writer) (Delimiter c)
              else csv.NewWriter writer).
  assert (H0 : I (csv.w cw0)) by (subst cw0; destruct (negb _); exact Hw).
  destruct (sql.Columns (rows c)) as [columnNames|e]; [|exact H0].
  set (hdr := if WriteHeaders c then _ else _).
  assert (H1 : I (csv.w (fst hdr))).
  { subst hdr. destruct (WriteHeaders c); [now apply csv_Write_preserves | exact H0]. }
  destruct hdr as [cw1 [e|]]; [exact H1|].
  pose proof (writeRows_preserves c columnNames (List.length columnNames)
                (sql.pending (rows c)) cw1 H1) as H2.
  destruct (Converter.writeRows _ _ _ _ _) as [[rest cw2] [e|]]; [exact H2|].
  now apply csv_Flush_preserves.
Qed.

End Invariant.

(** ** The buffer is never overrun *)

Lemma EncodeRune_length (r : Z) : (String.length (utf8.EncodeRune r) <= utf8.UTFMax)%nat.
Proof.
  unfold utf8.EncodeRune, utf8.UTFMax.
  repeat match goal with
         | |- context [if ?b then _ else _] => destruct b
         end; cbn [String.length]; lia.
Qed.

Section Within.
Context {W : Type} `{io.Writer W}.

Lemma Flush_within (b : bufio.Writer W) :
  withinBuffer b -> withinBuffer (fst (bufio.Flush b)).
Proof.
  intros Hb. unfold bufio.Flush.
  destruct (bufio.err b); [exact Hb|].
  destruct (bufio.Buffered b =? 0)%nat; [exact Hb|].
  destruct (io.Write (bufio.wr b) (bufio.buf b)) as [w' [[n e]|]];
    unfold withinBuffer, bufio.Buffered in *; cbn [fst bufio.buf String.length].
  - rewrite length_drop. lia.
  - lia.
Qed.

Lemma writeStringLoop_within (fuel : nat) :
  forall (b : bufio.Writer W) (s : string) b' s',
    withinBuffer b -> bufio.writeStringLoop fuel b s = Some (b', s') ->
    withinBuffer b'
    /\ (bufio.err b' = None -> (String.length s' <= bufio.Available b')%nat).
Proof.
  induction fuel as [|fuel IH]; intros b s b' s' Hb; cbn [bufio.writeStringLoop];
    destruct ((bufio.Available b <? String.length s)%nat && isNil (bufio.err b))
      eqn:Hc; try discriminate;
    try (intros [= <- <-]; split; [exact Hb|]; intros He; rewrite He in Hc;
         cbn [isNil] in Hc; rewrite andb_true_r in Hc; now apply Nat.ltb_ge in Hc).
  destruct ((bufio.Buffered b =? 0)%nat && io.StringWriter).
  - destruct (io.Write (bufio.wr b) s) as [w' [[n e]|]]; apply IH; exact Hb.
  - apply IH. apply Flush_within.
    unfold withinBuffer, bufio.Buffered in *. cbn [bufio.buf].
    rewrite length_append, length_take. unfold bufio.Available, bufio.Buffered. lia.
Qed.

Lemma WriteString_within (b : bufio.Writer W) (s : string) :
  withinBuffer b -> withinBuffer (fst (bufio.WriteString b s)).
Proof.
  intros Hb. unfold bufio.WriteString.
  destruct (bufio.writeStringLoop (2 + String.length s) b s) as [[b' s']|] eqn:E;
    [|exact Hb].
  apply writeStringLoop_within in E; [|exact Hb]. destruct E as [Hw Hs].
  destruct (bufio.err b') eqn:He; [exact Hw|].
  specialize (Hs eq_refl).
  unfold withinBuffer, bufio.Available, bufio.Buffered in *. cbn [fst bufio.buf].
  rewrite length_append. lia.
Qed.

Lemma WriteByte_within (b : bufio.Writer W) (c : ascii) :
  withinBuffer b -> withinBuffer (fst (bufio.WriteByte b c)).
Proof.
  intros Hb. unfold bufio.WriteByte.
  destruct (bufio.err b) eqn:He; [exact Hb|].
  set (b1 := if (bufio.Available b <=? 0)%nat then fst (bufio.Flush b) else b).
  assert (H1 : withinBuffer b1
               /\ (bufio.err b1 = None -> (bufio.Buffered b1 < bufio.defaultBufSize)%nat)).
  { subst b1. pose proof defaultBufSize_pos as Hsize.
    destruct (bufio.Available b <=? 0)%nat eqn:Ha.
    - split; [now apply Flush_within|]. intros He1.
      apply Nat.leb_le in Ha. unfold bufio.Available in Ha.
      destruct (Flush_cases b He) as [[_ Hbuf] | Herr].
      + unfold withinBuffer in Hb. lia.
      + unfold bufio.Buffered. rewrite Hbuf. exact Hsize.
      + contradiction.
    - split; [exact Hb|]. intros _.
      apply Nat.leb_gt in Ha. unfold bufio.Available in Ha. lia. }
  destruct H1 as [Hw Hlt].
  destruct (bufio.err b1); [exact Hw|].
  specialize (Hlt eq_refl).
  unfold withinBuffer, bufio.Buffered in *. cbn [fst bufio.buf].
  rewrite length_append. cbn [String.length]. lia.
Qed.

Lemma WriteRune_within (b : bufio.Writer W) (r : Z) :
  withinBuffer b -> withinBuffer (fst (bufio.WriteRune b r)).
Proof.
  intros Hb. unfold bufio.WriteRune.
  destruct ((0 <=? r)%Z && (r <? utf8.RuneSelf)%Z); [now apply WriteByte_within|].
  destruct (bufio.err b); [exact Hb|].
  pose proof (EncodeRune_length r) as Hlen.
  destruct (bufio.Available b <? utf8.UTFMax)%nat eqn:Ha.
  - pose proof (Flush_within b Hb) as Hb1.
    destruct (bufio.err (fst (bufio.Flush b))); [exact Hb1|].
    destruct (bufio.Available (fst (bufio.Flush b)) <? utf8.UTFMax)%nat eqn:Ha1;
      [now apply WriteString_within|].
    apply Nat.ltb_ge in Ha1.
    unfold withinBuffer, bufio.Available, bufio.Buffered in *. cbn [fst bufio.buf].
    rewrite length_append. lia.
  - apply Nat.ltb_ge in Ha.
    unfold withinBuffer, bufio.Available, bufio.Buffered in *. cbn [fst bufio.buf].
    rewrite length_append. lia.
Qed.

(** The buffered writer [Write] leaves behind holds no more than the
    buffer takes. *)
Lemma Write_within (c : Converter) (writer : W) :
  withinBuffer (csv.w (snd (fst (Converter.Write c writer)))).
Proof.
  apply Write_preserves.
  - apply Flush_within.
  - apply WriteString_within.
  - apply WriteByte_within.
  - apply WriteRune_within.
  - unfold withinBuffer, bufio.Buffered. cbn. lia.
Qed.

End Within.

(** ** The conversion does not look into the writer *)

Create HintDb similar.

Section Simulation.
Context {W1 W2 : Type} {IO1 : io.Writer W1} {IO2 : io.Writer W2}.
Variable R : W1 -> W2 -> Prop.
Hypothesis R_Write : forall w1 w2 p,
  R w1 w2 ->
  R (fst (io.Write w1 p)) (fst (io.Write w2 p))
  /\ snd (io.Write w1 p) = snd (io.Write w2 p).
Hypothesis R_StringWriter : @io.StringWriter W1 IO1 = @io.StringWriter W2 IO2.

Lemma Flush_similar (b1 : bufio.Writer W1) (b2 : bufio.Writer W2) :
  alike R b1 b2 ->
  alike R (fst (bufio.Flush b1)) (fst (bufio.Flush b2))
  /\ snd (bufio.Flush b1) = snd (bufio.Flush b2).
Proof.
  intros Ha. pose proof Ha as (He & Hb & Hr).
  unfold bufio.Flush, bufio.Buffered. rewrite He, Hb.
  destruct (bufio.err b2); [split; [exact Ha | reflexivity]|].
  destruct (String.length (bufio.buf b2) =? 0)%nat; [split; [exact Ha | reflexivity]|].
  destruct (R_Write (bufio.wr b1) (bufio.wr b2) (bufio.buf b2) Hr) as [Hr' Hs].
  destruct (io.Write (bufio.wr b1) (bufio.buf b2)) as [w1' r1].
  destruct (io.Write (bufio.wr b2) (bufio.buf b2)) as [w2' r2].
  cbn [fst snd] in *. subst r2.
  destruct r1 as [[n e]|]; cbn [fst snd]; unfold alike; cbn; auto.
Qed.

Lemma writeStringLoop_similar (fuel : nat) :
  forall (b1 : bufio.Writer W1) (b2 : bufio.Writer W2) (s : string),
    alike R b1 b2 ->
    match bufio.writeStringLoop fuel b1 s, bufio.writeStringLoop fuel b2 s with
    | Some (b1', s1), Some (b2', s2) => alike R b1' b2' /\ s1 = s2
    | None, None => True
    | _, _ => False
    end.
Proof.
  induction fuel as [|fuel IH]; intros b1 b2 s Ha; pose proof Ha as (He & Hb & Hr);
    cbn [bufio.writeStringLoop]; unfold bufio.Available, bufio.Buffered;
    rewrite He, Hb;
    destruct ((bufio.defaultBufSize - String.length (bufio.buf b2)
               <? String.length s)%nat && isNil (bufio.err b2));
    try exact I; try (split; [exact Ha | reflexivity]).
  rewrite R_StringWriter.
  destruct ((String.length (bufio.buf b2) =? 0)%nat && io.StringWriter).
  - destruct (R_Write (bufio.wr b1) (bufio.wr b2) s Hr) as [Hr' Hs].
    destruct (io.Write (bufio.wr b1) s) as [w1' r1].
    destruct (io.Write (bufio.wr b2) s) as [w2' r2].
    cbn [fst snd] in *. subst r2.
    destruct r1 as [[n e]|]; apply IH; unfold alike; cbn; auto.
  - apply IH. apply Flush_similar. unfold alike. cbn. auto.
Qed.

Lemma WriteString_similar (b1 : bufio.Writer W1) (b2 : bufio.Writer W2) (s : string) :
  alike R b1 b2 ->
  alike R (fst (bufio.WriteString b1 s)) (fst (bufio.WriteString b2 s))
  /\ snd (bufio.WriteString b1 s) = snd (bufio.WriteString b2 s).
Proof.
  intros Ha. unfold bufio.WriteString.
  pose proof (writeStringLoop_similar (2 + String.length s) b1 b2 s Ha) as Hl.
  destruct (bufio.writeStringLoop (2 + String.length s) b1 s) as [[b1' s1]|];
    destruct (bufio.writeStringLoop (2 + String.length s) b2 s) as [[b2' s2]|];
    try contradiction.
  - destruct Hl as [(He' & Hb' & Hr') ->]. rewrite He'.
    destruct (bufio.err b2') eqn:E; cbn [fst snd]; unfold alike; cbn;
      rewrite ?E, ?Hb'; auto.
  - destruct Ha as (He & Hb & Hr). cbn [fst snd]. unfold alike. auto.
Qed.

Lemma WriteByte_similar (b1 : bufio.Writer W1) (b2 : bufio.Writer W2) (c : ascii) :
  alike R b1 b2 ->
  alike R (fst (bufio.WriteByte b1 c)) (fst (bufio.WriteByte b2 c))
  /\ snd (bufio.WriteByte b1 c) = snd (bufio.WriteByte b2 c).
Proof.
  intros Ha. pose proof Ha as (He & Hb & Hr).
  unfold bufio.WriteByte, bufio.Available, bufio.Buffered. rewrite He, Hb.
  destruct (bufio.err b2); [split; [exact Ha | reflexivity]|].
  set (x1 := if (bufio.defaultBufSize - String.length (bufio.buf b2) <=? 0)%nat
             then fst (bufio.Flush b1) else b1).
  set (x2 := if (bufio.defaultBufSize - String.length (bufio.buf b2) <=? 0)%nat
             then fst (bufio.Flush b2) else b2).
  assert (Hx : alike R x1 x2).
  { subst x1 x2. destruct (_ <=? 0)%nat; [now apply Flush_similar | exact Ha]. }
  destruct Hx as (He' & Hb' & Hr'). rewrite He'.
  destruct (bufio.err x2) eqn:E; cbn [fst snd]; unfold alike; cbn;
    rewrite ?E, ?Hb'; auto.
Qed.

Lemma WriteRune_similar (b1 : bufio.Writer W1) (b2 : bufio.Writer W2) (r : Z) :
  alike R b1 b2 ->
  alike R (fst (bufio.WriteRune b1 r)) (fst (bufio.WriteRune b2 r))
  /\ snd (bufio.WriteRune b1 r) = snd (bufio.WriteRune b2 r).
Proof.
  intros Ha. unfold bufio.WriteRune.
  destruct ((0 <=? r)%Z && (r <? utf8.RuneSelf)%Z); [now apply WriteByte_similar|].
  pose proof Ha as (He & Hb & Hr).
  unfold bufio.Available, bufio.Buffered. cbv zeta. rewrite He, Hb.
  destruct (bufio.err b2); [split; [exact Ha | reflexivity]|].
  destruct (bufio.defaultBufSize - String.length (bufio.buf b2) <? utf8.UTFMax)%nat.
  - destruct (Flush_similar b1 b2 Ha) as [Hf _].
    pose proof Hf as (He' & Hb' & Hr').
    rewrite He', Hb'.
    destruct (bufio.err (fst (bufio.Flush b2))) eqn:E;
      [split; [exact Hf | reflexivity]|].
    destruct (_ <? utf8.UTFMax)%nat; [now apply WriteString_similar|].
    cbn [fst snd]. unfold alike. cbn. rewrite ?Hb'. auto.
  - cbn [fst snd]. unfold alike. cbn. rewrite ?Hb. auto.
Qed.

Lemma done_similar : similar R (@csv.done W1) (@csv.done W2).
Proof. intros b1 b2 Ha. split; [exact Ha | reflexivity]. Qed.

Lemma andThen_similar (m1 m2 : @csv.step W1) (n1 n2 : @csv.step W2) :
  similar R m1 n1 -> similar R m2 n2 ->
  similar R (csv.andThen m1 m2) (csv.andThen n1 n2).
Proof.
  intros H1 H2 b1 b2 Ha. unfold csv.andThen.
  destruct (H1 b1 b2 Ha) as [Ha' Hs].
  destruct (m1 b1) as [x1 e1], (n1 b2) as [x2 e2]. cbn [fst snd] in *. subst e2.
  destruct e1; [split; [exact Ha' | reflexivity]|].
  now apply H2.
Qed.

Lemma csv_WriteString_similar s : similar R (csv.WriteString s) (csv.WriteString s).
Proof. intros b1 b2. apply WriteString_similar. Qed.

Lemma csv_WriteByte_similar c : similar R (csv.WriteByte c) (csv.WriteByte c).
Proof. intros b1 b2. apply WriteByte_similar. Qed.

Lemma csv_WriteRune_similar r : similar R (csv.WriteRune r) (csv.WriteRune r).
Proof. intros b1 b2. apply WriteRune_similar. Qed.

Hint Resolve done_similar andThen_similar csv_WriteString_similar
  csv_WriteByte_similar csv_WriteRune_similar : similar.

Lemma writeSpecial_similar useCRLF ch :
  similar R (csv.writeSpecial useCRLF ch) (csv.writeSpecial useCRLF ch).
Proof.
  unfold csv.writeSpecial.
  destruct (Ascii.eqb ch dquote), (Ascii.eqb ch CR), useCRLF; auto with similar.
Qed.
Hint Resolve writeSpecial_similar : similar.

Lemma writeQuoted_similar useCRLF field :
  forall run,
    similar R (csv.writeQuoted useCRLF run field) (csv.writeQuoted useCRLF run field).
Proof.
  induction field as [|ch rest IH]; intros run; cbn [csv.writeQuoted].
  - destruct run; auto with similar.
  - destruct (csv.isQuoteOrBreak ch); auto with similar.
Qed.
Hint Resolve writeQuoted_similar : similar.

Lemma writeField_similar comma useCRLF field :
  similar R (csv.writeField comma useCRLF field) (csv.writeField comma useCRLF field).
Proof.
  unfold csv.writeField.
  destruct (negb (csv.fieldNeedsQuotes comma field)); auto with similar.
Qed.
Hint Resolve writeField_similar : similar.

Lemma writeFields_similar comma useCRLF record :
  forall first,
    similar R (csv.writeFields comma useCRLF first record)
      (csv.writeFields comma useCRLF first record).
Proof.
  induction record as [|field rest IH]; intros first; cbn [csv.writeFields].
  - auto with similar.
  - destruct first; auto with similar.
Qed.
Hint Resolve writeFields_similar : similar.

Lemma csv_Write_similar (cw1 : csv.Writer W1) (cw2 : csv.Writer W2)
  (record : list string) :
  alikeCsv R cw1 cw2 ->
  alikeCsv R (fst (csv.Write cw1 record)) (fst (csv.Write cw2 record))
  /\ snd (csv.Write cw1 record) = snd (csv.Write cw2 record).
Proof.
  intros (HC & HU & HR & Ha). unfold csv.Write. rewrite HC, HU, HR.
  destruct (negb (csv.validDelim (csv.Comma cw2)));
    [split; [repeat split; solve [auto | apply Ha] | reflexivity]|].
  assert (Hs : similar R
                 (csv.andThen (csv.writeFields (csv.Comma cw2) (csv.UseCRLF cw2) true record)
                    (if csv.UseCRLF cw2
                     then csv.WriteString (String CR (String LF EmptyString))
                     else csv.WriteByte LF))
                 (csv.andThen (csv.writeFields (csv.Comma cw2) (csv.UseCRLF cw2) true record)
                    (if csv.UseCRLF cw2
                     then csv.WriteString (String CR (String LF EmptyString))
                     else csv.WriteByte LF)))
    by (destruct (csv.UseCRLF cw2); auto with similar).
  destruct (Hs (csv.w cw1) (csv.w cw2) Ha) as [Ha' He].
  destruct (csv.andThen _ _ (csv.w cw1)) as [x1 e1].
  destruct (csv.andThen _ _ (csv.w cw2)) as [x2 e2].
  cbn [fst snd] in *. subst e2. split; [|reflexivity].
  repeat split; solve [auto | apply Ha'].
Qed.

Lemma csv_Flush_similar (cw1 : csv.Writer W1) (cw2 : csv.Writer W2) :
  alikeCsv R cw1 cw2 -> alikeCsv R (csv.Flush cw1) (csv.Flush cw2).
Proof.
  intros (HC & HU & HR & Ha). unfold csv.Flush, alikeCsv. cbn.
  repeat split; try assumption; apply (Flush_similar _ _ Ha).
Qed.

Lemma writeRows_similar (c : Converter) (columnNames : list string) (count : nat) :
  forall pending (cw1 : csv.Writer W1) (cw2 : csv.Writer W2),
    alikeCsv R cw1 cw2 ->
    let st1 := Converter.writeRows c columnNames count cw1 pending in
    let st2 := Converter.writeRows c columnNames count cw2 pending in
    fst (fst st1) = fst (fst st2)
    /\ alikeCsv R (snd (fst st1)) (snd (fst st2))
    /\ snd st1 = snd st2.
Proof.
  induction pending as [|lastcols pending IH]; intros cw1 cw2 Ha; cbn zeta;
    cbn [Converter.writeRows]; [auto|].
  destruct (sql.Scan lastcols count) as [values|e]; [|auto].
  destruct (match rowPreProcessor c with
            | Some f => f (Converter.formatRow c values) columnNames
            | None => (true, Converter.formatRow c values)
            end) as [[|] row]; [|now apply IH].
  destruct (csv_Write_similar cw1 cw2 row Ha) as [Ha' He].
  destruct (csv.Write cw1 row) as [x1 e1], (csv.Write cw2 row) as [x2 e2].
  cbn [fst snd] in *. subst e2.
  destruct e1; [auto | now apply IH].
Qed.

(** [Write] on two writers that answer alike does the same to both: the
    same rows are read, the same records are handed over, the same error is
    returned, and the writers are alike afterwards. *)
Lemma Write_similar (c : Converter) (w1 : W1) (w2 : W2) :
  R w1 w2 ->
  let st1 := Converter.Write c w1 in
  let st2 := Converter.Write c w2 in
  fst (fst st1) = fst (fst st2)
  /\ alikeCsv R (snd (fst st1)) (snd (fst st2))
  /\ snd st1 = snd st2.
Proof.
  intros Hr. cbn zeta. unfold Converter.Write.
  set (x1 := if negb (Delimiter c =? 0)%Z
             then csv.withComma (csv.NewWriter w1) (Delimiter c)
             else csv.NewWriter w1).
  set (x2 := if negb (Delimiter c =? 0)%Z
             then csv.withComma (csv.NewWriter w2) (Delimiter c)
             else csv.NewWriter w2).
  assert (H0 : alikeCsv R x1 x2).
  { subst x1 x2. destruct (negb _); unfold alikeCsv, alike; cbn; auto 7. }
  destruct (sql.Columns (rows c)) as [columnNames|e]; [|auto].
  set (h1 := if WriteHeaders c then csv.Write x1 _ else _).
  set (h2 := if WriteHeaders c then csv.Write x2 _ else _).
  assert (H1 : alikeCsv R (fst h1) (fst h2) /\ snd h1 = snd h2).
  { subst h1 h2. destruct (WriteHeaders c); [now apply csv_Write_similar | auto]. }
  destruct h1 as [y1 e1], h2 as [y2 e2]. cbn [fst snd] in H1.
  destruct H1 as [H1 <-]. destruct e1; [auto|].
  destruct (writeRows_similar c columnNames (List.length columnNames)
              (sql.pending (rows c)) y1 y2 H1) as (Hp & Hw & He).
  destruct (Converter.writeRows _ _ _ y1 _) as [[p1 z1] r1].
  destruct (Converter.writeRows _ _ _ y2 _) as [[p2 z2] r2].
  cbn [fst snd] in *. subst r2 p2.
  destruct r1; cbn [fst snd]; [auto|].
  repeat split; solve [auto | apply csv_Flush_similar, Hw].
Qed.

End Simulation.

(** ** A delimiter that encoding/csv refuses *)

Section InvalidDelimiter.
Context {W : Type} `{io.Writer W}.

Lemma csv_Write_invalid (cw : csv.Writer W) (record : list string) :
  csv.validDelim (csv.Comma cw) = false ->
  csv.w (fst (csv.Write cw record)) = csv.w cw
  /\ snd (csv.Write cw record) = Some csv.errInvalidDelim.
Proof. intros Hv. unfold csv.Write. rewrite Hv. cbn. auto. Qed.

Lemma writeRows_invalid (c : Converter) (columnNames : list string) :
  forall pending (cw : csv.Writer W),
    csv.validDelim (csv.Comma cw) = false ->
    let st := Converter.writeRows c columnNames (List.length columnNames) cw pending in
    csv.w (snd (fst st)) = csv.w cw
    /\ (dataRows c columnNames pending <> [] ->
        snd st = Some (fmt.Errorf "failed to write data row to csv " csv.errInvalidDelim)).
Proof.
  induction pending as [|lastcols pending IH]; intros cw Hv; cbn zeta;
    cbn [Converter.writeRows dataRows]; [split; [reflexivity | contradiction]|].
  destruct (sql.Scan lastcols (List.length columnNames)) as [values|e];
    [|split; [reflexivity | contradiction]].
  destruct (dataRow_step c columnNames values) as [[Hk ->] | [Hk ->]];
    destruct (match rowPreProcessor c with
              | Some f => f (Converter.formatRow c values) columnNames
              | None => (true, Converter.formatRow c values)
              end) as [keep row]; cbn [fst snd] in *; subst keep;
    [|now apply IH].
  destruct (csv_Write_invalid cw row Hv) as [Hw He].
  destruct (csv.Write cw row) as [cw' e]. cbn [fst snd] in *. subst e.
  split; [exact Hw | reflexivity].
Qed.

Lemma Write_invalid (c : Converter) (writer : W) :
  csv.validDelim (delimiter c) = false ->
  csv.w (snd (fst (Converter.Write c writer))) = bufio.NewWriter writer
  /\ forall columnNames,
      sql.Columns (rows c) = Ok columnNames ->
      (WriteHeaders c = true ->
       Converter.errorOf (Converter.Write c writer)
       = Some (fmt.Errorf "failed to write headers: " csv.errInvalidDelim))
      /\ (WriteHeaders c = false ->
          dataRows c columnNames (sql.pending (rows c)) <> [] ->
          Converter.errorOf (Converter.Write c writer)
          = Some (fmt.Errorf "failed to write data row to csv " csv.errInvalidDelim)).
Proof.
  intros Hv. unfold Converter.Write, Converter.errorOf.
  set (cw0 := if negb (Delimiter c =? 0)%Z
              then csv.withComma (csv.NewWriter writer) (Delimiter c)
              else csv.NewWriter writer).
  assert (H0 : csv.Comma cw0 = delimiter c /\ csv.w cw0 = bufio.NewWriter writer).
  { subst cw0. unfold delimiter. destruct (Delimiter c =? 0)%Z; cbn; auto. }
  destruct H0 as [HC HW]. rewrite <- HC in Hv.
  destruct (sql.Columns (rows c)) as [cols|e]; [|split; [exact HW | discriminate]].
  destruct (WriteHeaders c).
  - destruct (csv_Write_invalid cw0
                (if (0 <? List.length (Headers c))%nat then Headers c else cols) Hv)
      as [Hw He].
    destruct (csv.Write cw0 _) as [cw1 e]. cbn [fst snd] in *. subst e.
    cbn [fst snd]. split; [now rewrite Hw|].
    intros columnNames _. split; [reflexivity | discriminate].
  - destruct (writeRows_invalid c cols (sql.pending (rows c)) cw0 Hv) as [Hw He].
    destruct (Converter.writeRows _ _ _ _ _) as [[pending cw2] err].
    cbn [fst snd] in *.
    split.
    + destruct err; cbn [fst snd csv.Flush csv.w]; rewrite Hw, HW; reflexivity.
    + intros columnNames [= <-]. split; [discriminate|].
      intros _ Hdata. rewrite (He Hdata). reflexivity.
Qed.

End InvalidDelimiter.

(** ** A conversion that returns no error *)

Section Complete.
Context {W : Type} `{io.Writer W}.

(** A conversion that returns no error has handed over every row, and has
    ended with the flush. *)
Lemma Write_complete (c : Converter) (writer : W) (columnNames : list string) :
  sql.Columns (rows c) = Ok columnNames ->
  Converter.errorOf (Converter.Write c writer) = None ->
  csv.records (snd (fst (Converter.Write c writer)))
  = headerRows c columnNames ++ dataRows c columnNames (sql.pending (rows c))
  /\ exists cw, snd (fst (Converter.Write c writer)) = csv.Flush cw.
Proof.
  intros Hcols. unfold Converter.Write, Converter.errorOf, headerRows.
  rewrite Hcols, headers_choice.
  set (cw0 := if negb (Delimiter c =? 0)%Z
              then csv.withComma (csv.NewWriter writer) (Delimiter c)
              else csv.NewWriter writer).
  assert (H0 : csv.records cw0 = []) by (subst cw0; destruct (negb _); reflexivity).
  set (hdr := if WriteHeaders c then csv.Write cw0 _ else _).
  assert (H1 : csv.records (fst hdr)
               = if WriteHeaders c then [headerRow c columnNames] else []).
  { subst hdr. destruct (WriteHeaders c); [|exact H0].
    now rewrite csv_Write_records, H0. }
  destruct hdr as [cw1 [e|]]; [discriminate|]. cbn [fst] in H1.
  destruct (writeRows_records c columnNames (sql.pending (rows c)) cw1)
    as (data & Hd & _ & Hn).
  destruct (Converter.writeRows _ _ _ _ _) as [[rest cw2] [e|]]; [discriminate|].
  cbn [fst snd csv.Flush csv.records] in *. intros _.
  destruct (Hn eq_refl) as [-> _]. split; [now rewrite Hd, H1 | now exists cw2].
Qed.

End Complete.

Lemma Flush_err (cw : csv.Writer bytes.Buffer) :
  bufio.err (csv.w (csv.Flush cw)) = None ->
  bufio.buf (csv.w (csv.Flush cw)) = EmptyString.
Proof.
  unfold csv.Flush. cbn [csv.w]. intros He.
  destruct (bufio.err (csv.w cw)) eqn:E.
  - unfold bufio.Flush in He. rewrite E in He. cbn [fst] in He. congruence.
  - apply (Flush_stream (csv.w cw) E).
Qed.

(** Into memory, with a valid delimiter: no error means the whole text. *)
Lemma WriteString_complete (c : Converter) (columnNames : list string) :
  sql.Columns (rows c) = Ok columnNames ->
  csv.validDelim (delimiter c) = true ->
  snd (Converter.WriteString c) = None ->
  fst (Converter.WriteString c)
  = encodeRecords (delimiter c) false
      (headerRows c columnNames ++ dataRows c columnNames (sql.pending (rows c))).
Proof.
  intros Hcols Hv Herr. unfold Converter.WriteString in *. cbn [fst snd] in *.
  destruct (Write_complete c bytes.empty columnNames Hcols Herr) as [Hr [cw Hcw]].
  destruct (Write_faithful c Hv) as (_ & _ & He & Hs).
  rewrite <- Hr, <- Hs.
  unfold Converter.writerOf, bytes.String, csvStream, stream.
  rewrite Hcw in *. now rewrite (Flush_err cw He), append_nil_r.
Qed.

(** ** Rows without a pre-processor *)

Lemma Scan_Ok (lastcols : result (list any)) (ndest : nat) (values : list any) :
  sql.Scan lastcols ndest = Ok values ->
  lastcols = Ok values /\ List.length values = ndest.
Proof.
  unfold sql.Scan. destruct lastcols as [vals|e]; [|discriminate].
  destruct (List.length vals =? ndest)%nat eqn:E; [|discriminate].
  intros [= <-]. split; [reflexivity | now apply Nat.eqb_eq].
Qed.

Lemma dataRows_width (c : Converter) (columnNames : list string) :
  rowPreProcessor c = None ->
  forall pending,
    Forall (fun row => List.length row = List.length columnNames)
      (dataRows c columnNames pending).
Proof.
  intros Hp. induction pending as [|lastcols pending IH]; cbn [dataRows]; [constructor|].
  destruct (sql.Scan lastcols (List.length columnNames)) as [values|e] eqn:Hscan;
    [|constructor].
  apply Scan_Ok in Hscan. destruct Hscan as [_ Hlen].
  unfold dataRow. rewrite Hp. constructor; [|exact IH].
  now rewrite length_map.
Qed.

Lemma Forall_isPrefix {A : Type} (P : A -> Prop) (l1 l2 : list A) :
  isPrefix l1 l2 -> Forall P l2 -> Forall P l1.
Proof. intros [l ->] Hall. now apply Forall_app in Hall. Qed.

Lemma dataRows_values (c : Converter) (columnNames : list string) :
  rowPreProcessor c = None ->
  forall values,
    Forall (fun vs => List.length vs = List.length columnNames) values ->
    dataRows c columnNames (map Ok values) = map (Converter.formatRow c) values
    /\ Forall (decodes (List.length columnNames)) (map Ok values).
Proof.
  intros Hp. induction values as [|vs values IH]; intros Hall;
    [split; [reflexivity | constructor]|].
  inversion Hall as [|x l Hlen Hrest]; subst.
  destruct (IH Hrest) as [IH1 IH2].
  assert (Hscan : sql.Scan (Ok vs) (List.length columnNames) = Ok vs).
  { unfold sql.Scan. now rewrite Hlen, Nat.eqb_refl. }
  cbn [map dataRows]. rewrite Hscan. unfold dataRow. rewrite Hp, IH1.
  split; [reflexivity|]. constructor; [now exists vs | exact IH2].
Qed.

(** ** Integers in decimal *)

Lemma digits_ok (d : N) :
  (d < 10)%N ->
  plainByte (char_at strconv.digits d) = true
  /\ digitValue (char_at strconv.digits d) = Some d.
Proof.
  intros Hd.
  assert (Hall : digits_plain = true) by (vm_compute; reflexivity).
  unfold digits_plain in Hall. rewrite forallb_forall in Hall.
  specialize (Hall (N.to_nat d)). rewrite N2Nat.id in Hall. cbv zeta in Hall.
  assert (Hin : In (N.to_nat d) (seq 0 10)) by (apply in_seq; lia).
  apply Hall in Hin. apply andb_prop in Hin. destruct Hin as [Hp Hv].
  split; [exact Hp|].
  destruct (digitValue (char_at strconv.digits d)) as [k|]; [|discriminate].
  f_equal. now apply N.eqb_eq.
Qed.

Lemma formatBits_nonempty (n : nat) :
  forall (u base : N) (acc : string),
    acc <> EmptyString -> strconv.formatBits n u base acc <> EmptyString.
Proof.
  induction n as [|n IH]; intros u base acc Hacc; cbn [strconv.formatBits];
    [exact Hacc|].
  destruct (u / base =? 0)%N; [discriminate|]. apply IH. discriminate.
Qed.

Lemma formatBits_succ_nonempty (n : nat) (u base : N) (acc : string) :
  strconv.formatBits (S n) u base acc <> EmptyString.
Proof.
  cbn [strconv.formatBits]. destruct (u / base =? 0)%N; [discriminate|].
  apply formatBits_nonempty. discriminate.
Qed.

(** The digits [formatBits] puts in front of [acc] are those of [u]. *)
Lemma formatBits_decimal (n : nat) :
  forall (u : N) (acc : string) (v w : N),
    decimal acc = Some (v, w) -> (u < 10 ^ N.of_nat n)%N -> (0 < n)%nat ->
    exists w', decimal (strconv.formatBits n u 10 acc) = Some (u * w + v, w')%N.
Proof.
  induction n as [|n IH]; intros u acc v w Hacc Hu Hn; [lia|].
  cbn [strconv.formatBits].
  assert (Hd : (u mod 10 < 10)%N) by (apply N.mod_lt; discriminate).
  destruct (digits_ok (u mod 10) Hd) as [_ Hdigit].
  assert (Hacc' : decimal (String (char_at strconv.digits (u mod 10)) acc)
                  = Some (u mod 10 * w + v, 10 * w)%N).
  { cbn [decimal]. now rewrite Hdigit, Hacc. }
  pose proof (N.div_mod' u 10) as Hdm.
  destruct (u / 10 =? 0)%N eqn:Hq.
  - apply N.eqb_eq in Hq. exists (10 * w)%N. rewrite Hacc'.
    do 2 f_equal. rewrite Hq, N.mul_0_r, N.add_0_l in Hdm. now rewrite <- Hdm.
  - apply N.eqb_neq in Hq.
    assert (Hdiv : (u / 10 < 10 ^ N.of_nat n)%N).
    { apply N.Div0.div_lt_upper_bound.
      now rewrite Nat2N.inj_succ, N.pow_succ_r' in Hu. }
    destruct n as [|n].
    + change (10 ^ N.of_nat 0)%N with 1%N in Hdiv.
      apply N.lt_1_r in Hdiv. contradiction.
    + destruct (IH (u / 10)%N _ _ _ Hacc' Hdiv ltac:(lia)) as [w' Hw'].
      exists w'. rewrite Hw'. do 2 f_equal.
      rewrite Hdm at 3. ring.
Qed.

(** A string that reads as an unsigned number does not start with a
    sign. *)
Lemma readInt_unsigned (s : string) (v : Z) :
  readUint s = Some v -> readInt s = Some v.
Proof.
  destruct s as [|ch s']; [discriminate|].
  intros Hr. rewrite <- Hr.
  destruct ch as [[] [] [] [] [] [] [] []]; try reflexivity.
  vm_compute in Hr. discriminate.
Qed.

Lemma FormatUint_readUint (i : Z) :
  (0 <= i < 2 ^ 64)%Z -> readUint (strconv.FormatUint i 10) = Some i.
Proof.
  intros Hi. unfold strconv.FormatUint. change (Z.to_N 10) with 10%N.
  destruct (formatBits_decimal 64 (Z.to_N i) EmptyString 0 1 eq_refl) as [w' Hw'];
    [change (N.of_nat 64) with 64%N; lia | lia |].
  unfold readUint. rewrite Hw'.
  destruct (strconv.formatBits 64 (Z.to_N i) 10 EmptyString) eqn:E.
  - now apply (formatBits_succ_nonempty 63) in E.
  - f_equal. lia.
Qed.

Lemma FormatInt_readInt (i : Z) :
  (- 2 ^ 63 <= i < 2 ^ 63)%Z -> readInt (strconv.FormatInt i 10) = Some i.
Proof.
  intros Hi. unfold strconv.FormatInt.
  destruct (i <? 0)%Z eqn:Hneg.
  - apply Z.ltb_lt in Hneg. cbn [readInt].
    rewrite FormatUint_readUint by lia. f_equal. lia.
  - apply Z.ltb_ge in Hneg.
    apply readInt_unsigned, FormatUint_readUint. lia.
Qed.

Lemma sint_range (w : Z) (z : Z) :
  (0 < w)%Z -> (- 2 ^ (w - 1) <= sint w z < 2 ^ (w - 1))%Z.
Proof.
  intros Hw. unfold sint.
  assert (Hp : (2 ^ w = 2 * 2 ^ (w - 1))%Z).
  { rewrite <- Z.pow_succ_r by lia. f_equal. lia. }
  assert (Hpos : (0 < 2 ^ (w - 1))%Z) by (apply Z.pow_pos_nonneg; lia).
  pose proof (Z.mod_pos_bound (z + 2 ^ (w - 1)) (2 ^ w) ltac:(lia)). lia.
Qed.

Lemma uint_range (w : Z) (z : Z) : (0 <= w)%Z -> (0 <= uint w z < 2 ^ w)%Z.
Proof.
  intros Hw. unfold uint. apply Z.mod_pos_bound. apply Z.pow_pos_nonneg; lia.
Qed.

(** [int64(x)] and [uint64(x)] keep a number that is in range. *)
Lemma int64_small (z : Z) : (- 2 ^ 63 <= z < 2 ^ 63)%Z -> int64 z = z.
Proof.
  intros Hz. unfold int64, sint. change (64 - 1)%Z with 63%Z.
  rewrite Z.mod_small by lia. lia.
Qed.

Lemma uint64_small (z : Z) : (0 <= z < 2 ^ 64)%Z -> uint64 z = z.
Proof. intros Hz. unfold uint64, uint. now apply Z.mod_small. Qed.

(** ** Plain bytes need no quotes *)

Lemma plainByte_harmless (ch : ascii) : plainByte ch = true -> harmless ch = true.
Proof.
  destruct ch as [[] [] [] [] [] [] [] []]; vm_compute; intros Hp;
    solve [reflexivity | discriminate Hp].
Qed.

Lemma lowerHexDigit_plain (ch : ascii) : lowerHexDigit ch = true -> plainByte ch = true.
Proof.
  destruct ch as [[] [] [] [] [] [] [] []]; vm_compute; intros Hp;
    solve [reflexivity | discriminate Hp].
Qed.

Lemma allBytes_impl (p q : ascii -> bool) (s : string) :
  (forall ch, p ch = true -> q ch = true) ->
  allBytes p s = true -> allBytes q s = true.
Proof.
  intros Hpq. induction s as [|ch s IH]; [reflexivity|].
  cbn [allBytes]. intros Hs. apply andb_prop in Hs. destruct Hs as [Hc Hs].
  now rewrite (Hpq ch Hc), IH.
Qed.

Lemma anyByte_none (p q : ascii -> bool) (s : string) :
  (forall ch, p ch = true -> q ch = false) ->
  allBytes p s = true -> csv.anyByte q s = false.
Proof.
  intros Hpq. induction s as [|ch s IH]; [reflexivity|].
  cbn [allBytes csv.anyByte]. intros Hs. apply andb_prop in Hs.
  destruct Hs as [Hc Hs]. now rewrite (Hpq ch Hc), IH.
Qed.

(** A field of plain bytes is written as it is under the comma. *)
Lemma fieldNeedsQuotes_plain (s : string) :
  allBytes plainByte s = true -> csv.fieldNeedsQuotes 44 s = false.
Proof.
  intros Hs. destruct s as [|ch s']; [reflexivity|].
  assert (Hany : csv.anyByte
                   (fun c => csv.isQuoteOrBreak c || Ascii.eqb c ","%char)
                   (String ch s') = false).
  { apply (anyByte_none plainByte); [|exact Hs].
    intros x Hx. apply plainByte_harmless in Hx. unfold harmless in Hx.
    repeat (apply andb_prop in Hx; destruct Hx as [Hx ?]).
    apply negb_true_iff in Hx. rewrite Hx.
    match goal with Hc : negb (Ascii.eqb x ","%char) = true |- _ =>
      apply negb_true_iff in Hc; now rewrite Hc end. }
  cbn [allBytes] in Hs. apply andb_prop in Hs. destruct Hs as [Hc _].
  apply plainByte_harmless in Hc. unfold harmless in Hc.
  repeat (apply andb_prop in Hc; destruct Hc as [Hc ?]).
  match goal with
  | Hb : negb (Ascii.eqb ch "092"%char) = true,
    Ha : (N_of_ascii ch <? 128)%N = true,
    Hw : negb (unicode.IsSpace (Z.of_N (N_of_ascii ch))) = true |- _ =>
      apply negb_true_iff in Hb; apply negb_true_iff in Hw; apply N.ltb_lt in Ha;
      unfold csv.fieldNeedsQuotes;
      change (String.eqb (String ch s') "\.")
        with (if Ascii.eqb ch "092"%char then String.eqb s' "." else false);
      rewrite Hb;
      change (44 <? utf8.RuneSelf)%Z with true;
      change (char_of_N (Z.to_N (44 mod 256))) with ","%char;
      rewrite Hany;
      unfold utf8.DecodeRuneInString;
      assert (Hlt : (Z.of_N (N_of_ascii ch) <? 128)%Z = true) by (apply Z.ltb_lt; lia);
      rewrite Hlt; exact Hw
  end.
Qed.

Lemma formatBits_plain (n : nat) :
  forall (u : N) (acc : string),
    allBytes plainByte acc = true ->
    allBytes plainByte (strconv.formatBits n u 10 acc) = true.
Proof.
  induction n as [|n IH]; intros u acc Hacc; cbn [strconv.formatBits]; [exact Hacc|].
  assert (Hd : (u mod 10 < 10)%N) by (apply N.mod_lt; discriminate).
  destruct (digits_ok (u mod 10) Hd) as [Hp _].
  assert (Hacc' : allBytes plainByte (String (char_at strconv.digits (u mod 10)) acc)
                  = true) by (cbn [allBytes]; now rewrite Hp, Hacc).
  destruct (u / 10 =? 0)%N; [exact Hacc' | now apply IH].
Qed.

Lemma FormatUint_plain (i : Z) : allBytes plainByte (strconv.FormatUint i 10) = true.
Proof.
  unfold strconv.FormatUint. change (Z.to_N 10) with 10%N.
  now apply formatBits_plain.
Qed.

Lemma FormatInt_plain (i : Z) : allBytes plainByte (strconv.FormatInt i 10) = true.
Proof.
  unfold strconv.FormatInt. destruct (i <? 0)%Z; [|apply FormatUint_plain].
  cbn [allBytes]. now rewrite FormatUint_plain.
Qed.

(** ** The shape of a base64 text *)

Lemma paddingOf_step (n : nat) : paddingOf (S (S (S n))) = paddingOf n.
Proof.
  unfold paddingOf. replace (S (S (S n))) with (n + 1 * 3)%nat by lia.
  now rewrite Nat.Div0.mod_add.
Qed.

Section Alphabet.
Variable alphabet : string.
Let padded : base64.Encoding :=
  {| base64.encode := alphabet; base64.padChar := Some base64.StdPadding |}.
Let raw : base64.Encoding :=
  {| base64.encode := alphabet; base64.padChar := None |}.
Hypothesis Hplain : alphabet_plain raw = true.

Lemma alphabet_char (i : N) :
  (i < 64)%N ->
  plainByte (char_at alphabet i) = true
  /\ Ascii.eqb (char_at alphabet i) base64.StdPadding = false.
Proof.
  intros Hi. unfold alphabet_plain in Hplain. rewrite forallb_forall in Hplain.
  specialize (Hplain (N.to_nat i)). rewrite N2Nat.id in Hplain. cbv zeta in Hplain.
  assert (Hin : In (N.to_nat i) (seq 0 64)) by (apply in_seq; lia).
  apply Hplain in Hin. apply andb_prop in Hin. destruct Hin as [Hp Hn].
  split; [exact Hp | now apply negb_true_iff].
Qed.

Lemma EncodeToString_plain (src : list byte) :
  allBytes plainByte (base64.EncodeToString padded src) = true
  /\ allBytes plainByte (base64.EncodeToString raw src) = true.
Proof.
  induction src as [|a|a b|a b c l [IH1 IH2]] using list_ind3;
    cbn [base64.EncodeToString base64.pad base64.padChar base64.encode padded raw
         allBytes];
    rewrite ?(proj1 (alphabet_char _ (sextet_lt _ _))), ?IH1, ?IH2;
    split; reflexivity.
Qed.

Lemma EncodeToString_shape (src : list byte) :
  base64.EncodeToString padded src
  = (base64.EncodeToString raw src
     ++ replicate (paddingOf (List.length src)) base64.StdPadding)%string
  /\ contains_byte (base64.EncodeToString raw src) base64.StdPadding = false
  /\ String.length (base64.EncodeToString padded src)
     = (4 * ((List.length src + 2) / 3))%nat.
Proof.
  induction src as [|a|a b|a b c l (IH1 & IH2 & IH3)] using list_ind3.
  - repeat split.
  - cbn [base64.EncodeToString base64.pad base64.padChar base64.encode padded raw
         contains_byte].
    rewrite !(proj2 (alphabet_char _ (sextet_lt _ _))). repeat split.
  - cbn [base64.EncodeToString base64.pad base64.padChar base64.encode padded raw
         contains_byte].
    rewrite !(proj2 (alphabet_char _ (sextet_lt _ _))). repeat split.
  - cbn [base64.EncodeToString base64.encode padded raw contains_byte List.length
         String.length append].
    split; [|split].
    + now rewrite paddingOf_step, IH1.
    + now rewrite !(proj2 (alphabet_char _ (sextet_lt _ _))), IH2.
    + rewrite IH3.
      replace (S (S (S (List.length l))) + 2)%nat with ((List.length l + 2) + 1 * 3)%nat
        by lia.
      rewrite Nat.div_add by lia. lia.
Qed.

End Alphabet.

(** ** The flush at the end *)

Lemma take_all (n : nat) (s : string) : (String.length s <= n)%nat -> take n s = s.
Proof.
  revert s. induction n as [|n IH]; intros [|x s] Hs; cbn in *; try reflexivity;
    [lia|]. rewrite IH; [reflexivity | lia].
Qed.

(** [Flush] on a writer without error hands the bytes held back to the
    writer underneath in one call, and makes no call when there are none. *)
Lemma Flush_held {W : Type} `{io.Writer W} (b : bufio.Writer W) :
  bufio.err b = None ->
  bufio.wr (fst (bufio.Flush b))
  = if (String.length (bufio.buf b) =? 0)%nat then bufio.wr b
    else fst (io.Write (bufio.wr b) (bufio.buf b)).
Proof.
  intros He. unfold bufio.Flush, bufio.Buffered. rewrite He.
  destruct (String.length (bufio.buf b) =? 0)%nat; [reflexivity|].
  destruct (io.Write (bufio.wr b) (bufio.buf b)) as [w' [[n e]|]]; reflexivity.
Qed.

(** A conversion in which every row decodes and whose text fits the buffer,
    up to the flush: the text is held back and the writer has not been
    called. *)
Lemma Write_fits {W : Type} `{io.Writer W} (c : Converter) (writer : W)
  (columnNames : list string) :
  sql.Columns (rows c) = Ok columnNames ->
  csv.validDelim (delimiter c) = true ->
  Forall (decodes (List.length columnNames)) (sql.pending (rows c)) ->
  roomFor (bufio.NewWriter writer)
    (encodeRecords (delimiter c) false
       (headerRows c columnNames ++ dataRows c columnNames (sql.pending (rows c)))) ->
  exists cw,
    Converter.Write c writer = ([], csv.Flush cw, sql.Err (rows c))
    /\ bufio.err (csv.w cw) = None
    /\ bufio.wr (csv.w cw) = writer
    /\ bufio.buf (csv.w cw)
       = encodeRecords (delimiter c) false
           (headerRows c columnNames ++ dataRows c columnNames (sql.pending (rows c))).
Proof.
  intros Hcols Hv Hall Hroom.
  destruct (Write_buffers c writer columnNames (sql.pending (rows c)) [] Hcols Hv)
    as (cw & Hw & _ & He & Hwr & Hb); [now rewrite app_nil_r | exact Hall | exact Hroom |].
  exists cw. cbn [Converter.writeRows] in Hw. auto.
Qed.

Lemma roomFor_NewWriter {W : Type} (writer : W) (text : string) :
  (String.length text + utf8.UTFMax <= bufio.defaultBufSize)%nat ->
  roomFor (bufio.NewWriter writer) text.
Proof. intros Hlen. unfold roomFor, bufio.Buffered. cbn. exact Hlen. Qed.

Lemma Create_Ok (fs : os.FileSystem) (name : string) (f : os.File) :
  os.Create fs name = Ok f -> os.data f = EmptyString /\ os.closed f = false.
Proof.
  unfold os.Create. destruct (fs name); [|discriminate].
  intros [= <-]. split; reflexivity.
Qed.

Lemma Write_Columns_error {W : Type} `{io.Writer W} (c : Converter) (writer : W)
  (err : error) :
  sql.Columns (rows c) = Err err ->
  Converter.errorOf (Converter.Write c writer) = Some err
  /\ Converter.writerOf (Converter.Write c writer) = writer
  /\ csv.records (snd (fst (Converter.Write c writer))) = [].
Proof.
  intros Hcols. unfold Converter.Write, Converter.errorOf, Converter.writerOf.
  rewrite Hcols. destruct (negb (Delimiter c =? 0)%Z); cbn; auto.
Qed.

(** A file that takes every write ends up holding what a buffer in memory
    holds, and the conversion returns the same error. *)
Lemma Write_file_like_memory (c : Converter) (f : os.File) :
  os.data f = EmptyString -> os.closed f = false -> os.room f = None ->
  fileHolds (os.closeErr f) (Converter.writerOf (Converter.Write c f))
    (Converter.writerOf (Converter.Write c bytes.empty))
  /\ Converter.errorOf (Converter.Write c f)
     = Converter.errorOf (Converter.Write c bytes.empty).
Proof.
  intros Hd Hc Hr.
  destruct (Write_similar (fileHolds (os.closeErr f))) with (c := c) (w1 := f)
    (w2 := bytes.empty) as (_ & (_ & _ & _ & _ & _ & Hw) & He).
  - intros w1 w2 p (H1 & H2 & H3 & H4).
    cbn [io.Write os.File_Writer bytes.Buffer_Writer]. unfold os.Write.
    rewrite H2, H3. cbn. unfold fileHolds. cbn. rewrite H1. auto.
  - reflexivity.
  - unfold fileHolds. auto.
  - split; [exact Hw | exact He].
Qed.

(** ** No error means every row *)

Lemma Scan_same (values : list any) (ndest : nat) :
  List.length values = ndest -> sql.Scan (Ok values) ndest = Ok values.
Proof. intros Hlen. unfold sql.Scan. now rewrite Hlen, Nat.eqb_refl. Qed.

Section Decoded.
Context {W : Type} `{io.Writer W}.

(** The loop returns no error only when every row was decoded: the data rows
    are then those of all the rows. *)
Lemma writeRows_decoded (c : Converter) (columnNames : list string) :
  forall pending (cw : csv.Writer W),
    snd (Converter.writeRows c columnNames (List.length columnNames) cw pending) = None ->
    exists values,
      pending = map Ok values
      /\ Forall (fun vs => List.length vs = List.length columnNames) values
      /\ dataRows c columnNames pending = keptRows c columnNames values.
Proof.
  induction pending as [|lastcols pending IH]; intros cw Hnone.
  - exists []. repeat split. constructor.
  - cbn [Converter.writeRows] in Hnone.
    destruct (sql.Scan lastcols (List.length columnNames)) as [values|e] eqn:Hscan;
      [|discriminate Hnone].
    apply Scan_Ok in Hscan. destruct Hscan as [-> Hlen].
    assert (Hrest : exists cw',
               snd (Converter.writeRows c columnNames (List.length columnNames) cw'
                      pending) = None).
    { destruct (match rowPreProcessor c with
                | Some f => f (Converter.formatRow c values) columnNames
                | None => (true, Converter.formatRow c values)
                end) as [[|] row]; [|now exists cw].
      destruct (csv.Write cw row) as [cw' [e|]]; [discriminate Hnone | now exists cw']. }
    destruct Hrest as [cw' Hrest].
    destruct (IH cw' Hrest) as (rest & -> & Hall & Hd).
    exists (values :: rest). split; [reflexivity|]. split; [now constructor|].
    cbn [map dataRows keptRows]. rewrite (Scan_same values _ Hlen), Hd. reflexivity.
Qed.

Lemma Write_decoded (c : Converter) (writer : W) (columnNames : list string) :
  sql.Columns (rows c) = Ok columnNames ->
  Converter.errorOf (Converter.Write c writer) = None ->
  exists values,
    sql.pending (rows c) = map Ok values
    /\ Forall (fun vs => List.length vs = List.length columnNames) values
    /\ dataRows c columnNames (sql.pending (rows c)) = keptRows c columnNames values.
Proof.
  intros Hcols. unfold Converter.Write, Converter.errorOf. rewrite Hcols.
  set (hdr := if WriteHeaders c then csv.Write _ _ else _).
  destruct hdr as [cw1 [e|]]; [discriminate|].
  pose proof (writeRows_decoded c columnNames (sql.pending (rows c)) cw1) as Hd.
  destruct (Converter.writeRows _ _ _ _ _) as [[rest cw2] [e|]]; [discriminate|].
  intros _. now apply Hd.
Qed.

(** The conversion up to a row that fails to decode, when the text before
    it fits the buffer. *)
Lemma Write_stops_at_the_row (c : Converter) (writer : W)
  (columnNames : list string) (before after : list (result (list any)))
  (bad : result (list any)) (err : error) :
  sql.Columns (rows c) = Ok columnNames ->
  csv.validDelim (delimiter c) = true ->
  sql.pending (rows c) = before ++ bad :: after ->
  Forall (decodes (List.length columnNames)) before ->
  sql.Scan bad (List.length columnNames) = Err err ->
  (String.length
     (encodeRecords (delimiter c) false
        (headerRows c columnNames ++ dataRows c columnNames before))
   + utf8.UTFMax <= bufio.defaultBufSize)%nat ->
  Converter.errorOf (Converter.Write c writer) = Some err
  /\ Converter.writerOf (Converter.Write c writer) = writer
  /\ csv.records (snd (fst (Converter.Write c writer)))
     = headerRows c columnNames ++ dataRows c columnNames before.
Proof.
  intros Hcols Hv Hpending Hall Hbad Hlen.
  destruct (Write_buffers c writer columnNames before (bad :: after) Hcols Hv Hpending
              Hall (roomFor_NewWriter _ _ Hlen)) as (cw & Hw & Hr & He & Hwr & Hb).
  cbn [Converter.writeRows] in Hw. rewrite Hbad in Hw.
  unfold Converter.errorOf, Converter.writerOf. rewrite Hw. cbn [fst snd]. auto.
Qed.

End Decoded.

Lemma delimiter_nonzero (c : Converter) : Delimiter c <> 0%Z -> delimiter c = Delimiter c.
Proof. intros Hnz. unfold delimiter. apply Z.eqb_neq in Hnz. now rewrite Hnz. Qed.

(** * Further properties of the conversion *)

(** X1.  A conversion in which every row decodes and whose text leaves four
    bytes of the buffer free, into a writer of the caller's own that is no
    buffered writer: the writer gets the whole text in one call of its
    [Write], made by the flush at the end (no call for an empty text), and
    the conversion returns what [rows.Err()] returns, whatever the writer
    answered to that call. *)
Theorem small_output_is_written_in_one_call
  (c : Converter) (probe : Probe) (columnNames : list string) :
  sql.Columns (rows c) = Ok columnNames ->
  csv.validDelim (delimiter c) = true ->
  Forall (decodes (List.length columnNames)) (sql.pending (rows c)) ->
  let text :=
    encodeRecords (delimiter c) false
      (headerRows c columnNames ++ dataRows c columnNames (sql.pending (rows c))) in
  (String.length text + utf8.UTFMax <= bufio.defaultBufSize)%nat ->
  Converter.errorOf (Converter.Write c probe) = sql.Err (rows c)
  /\ calls (Converter.writerOf (Converter.Write c probe))
     = calls probe ++ (if (String.length text =? 0)%nat then [] else [text])
  /\ answer (Converter.writerOf (Converter.Write c probe)) = answer probe.
Proof.
  intros Hcols Hv Hall text Hlen.
  destruct (Write_fits c probe columnNames Hcols Hv Hall (roomFor_NewWriter _ _ Hlen))
    as (cw & Hw & He & Hwr & Hb).
  unfold Converter.errorOf, Converter.writerOf. rewrite Hw. cbn [fst snd csv.Flush csv.w].
  split; [reflexivity|].
  rewrite (Flush_held _ He), Hb, Hwr. fold text.
  destruct (String.length text =? 0)%nat; cbn; [now rewrite app_nil_r | auto].
Qed.

Lemma small_output_witness :
  sql.Columns (rows (New twoRows)) = Ok ["id"; "name"]
  /\ Converter.errorOf
       (Converter.Write (New twoRows)
          {| calls := []; answer := fun _ _ => Some (0%nat, os.ENOSPC) |}) = None
  /\ calls (Converter.writerOf
              (Converter.Write (New twoRows)
                 {| calls := []; answer := fun _ _ => Some (0%nat, os.ENOSPC) |}))
     = [(line "id,name" ++ line "1,Alice" ++ line "2,Bob")%string].
Proof.
  split; [reflexivity|].
  destruct (small_output_is_written_in_one_call (New twoRows)
              {| calls := []; answer := fun _ _ => Some (0%nat, os.ENOSPC) |}
              ["id"; "name"] eq_refl eq_refl) as (He & Hc & _).
  - repeat constructor; eexists; reflexivity.
  - apply Nat.leb_le. vm_compute. reflexivity.
  - split; [rewrite He; reflexivity | rewrite Hc; vm_compute; reflexivity].
Defined.

(** X2.  When a row fails to decode and the text of the header row and of
    the rows before it leaves four bytes of the buffer free, the conversion
    returns the error of [Scan] as it is and nothing has left the csv
    writer: a writer of the caller's own that is no buffered writer has not
    been called, [WriteString] returns the empty string and [WriteFile]
    leaves the file empty.  The records handed to the csv writer until then
    are lost with its buffer. *)
Theorem failed_row_leaves_the_writer_untouched
  (c : Converter) (columnNames : list string)
  (before after : list (result (list any))) (bad : result (list any)) (err : error) :
  sql.Columns (rows c) = Ok columnNames ->
  csv.validDelim (delimiter c) = true ->
  sql.pending (rows c) = before ++ bad :: after ->
  Forall (decodes (List.length columnNames)) before ->
  sql.Scan bad (List.length columnNames) = Err err ->
  (String.length
     (encodeRecords (delimiter c) false
        (headerRows c columnNames ++ dataRows c columnNames before))
   + utf8.UTFMax <= bufio.defaultBufSize)%nat ->
  (forall probe : Probe,
      Converter.errorOf (Converter.Write c probe) = Some err
      /\ Converter.writerOf (Converter.Write c probe) = probe)
  /\ Converter.WriteString c = (EmptyString, Some err)
  /\ (forall (fs : os.FileSystem) (csvFileName : string) (f : os.File),
         os.Create fs csvFileName = Ok f ->
         exists f',
           Converter.WriteFile fs c csvFileName = (Some f', Some err)
           /\ os.data f' = EmptyString /\ os.closed f' = true)
  /\ csv.records (snd (fst (Converter.Write c bytes.empty)))
     = headerRows c columnNames ++ dataRows c columnNames before.
Proof.
  intros Hcols Hv Hpending Hall Hbad Hlen. split; [|split; [|split]].
  - intros probe.
    destruct (Write_stops_at_the_row c probe columnNames before after bad err
                Hcols Hv Hpending Hall Hbad Hlen) as (He & Hw & _).
    split; assumption.
  - destruct (Write_stops_at_the_row c bytes.empty columnNames before after bad err
                Hcols Hv Hpending Hall Hbad Hlen) as (He & Hw & _).
    unfold Converter.WriteString. now rewrite He, Hw.
  - intros fs csvFileName f Hcreate.
    destruct (Create_Ok fs csvFileName f Hcreate) as [Hd Hc].
    destruct (Write_stops_at_the_row c f columnNames before after bad err
                Hcols Hv Hpending Hall Hbad Hlen) as (He & Hw & _).
    unfold Converter.WriteFile. rewrite Hcreate, He, Hw.
    unfold os.Close. rewrite Hc. eexists. repeat split. exact Hd.
  - apply (Write_stops_at_the_row c bytes.empty columnNames before after bad err
             Hcols Hv Hpending Hall Hbad Hlen).
Qed.

Lemma failed_row_witness :
  sql.pending (rows (New rowsDecodeFailure))
  = [Ok [VInt64 1; VString "Alice"]] ++ Err decodeError :: [Ok [VInt64 3; VString "Carol"]]
  /\ Converter.WriteString (New rowsDecodeFailure) = (EmptyString, Some decodeError)
  /\ csv.records (snd (fst (Converter.Write (New rowsDecodeFailure) bytes.empty)))
     = [["id"; "name"]; ["1"; "Alice"]]
  /\ exists f',
      Converter.WriteFile roomy (New rowsDecodeFailure) "out.csv"
      = (Some f', Some decodeError)
      /\ os.data f' = EmptyString /\ os.closed f' = true.
Proof.
  split; [reflexivity|].
  destruct (failed_row_leaves_the_writer_untouched
              (New rowsDecodeFailure) ["id"; "name"]
              [Ok [VInt64 1; VString "Alice"]] [Ok [VInt64 3; VString "Carol"]]
              (Err decodeError) decodeError eq_refl eq_refl eq_refl)
    as (_ & Hs & Hf & Hr).
  - repeat constructor; eexists; reflexivity.
  - reflexivity.
  - apply Nat.leb_le. vm_compute. reflexivity.
  - split; [exact Hs|]. split; [rewrite Hr; reflexivity|].
    apply (Hf roomy "out.csv" _ eq_refl).
Defined.

(** X3.  [WriteFile] does not report a write that fails in the flush at the
    end.  For a conversion in which every row decodes, whose rows end
    without error and whose text leaves four bytes of the buffer free, into
    a file that takes [r] more bytes: the file is left closed with the first
    [r] bytes of the text (all of it when there is room), and [WriteFile]
    returns what [Close] reports, also when the text was cut. *)
Theorem WriteFile_does_not_report_a_failed_flush
  (fs : os.FileSystem) (c : Converter) (csvFileName : string) (f : os.File)
  (r : nat) (columnNames : list string) :
  os.Create fs csvFileName = Ok f ->
  os.room f = Some r ->
  sql.Columns (rows c) = Ok columnNames ->
  csv.validDelim (delimiter c) = true ->
  Forall (decodes (List.length columnNames)) (sql.pending (rows c)) ->
  sql.Err (rows c) = None ->
  let text :=
    encodeRecords (delimiter c) false
      (headerRows c columnNames ++ dataRows c columnNames (sql.pending (rows c))) in
  (String.length text + utf8.UTFMax <= bufio.defaultBufSize)%nat ->
  exists f',
    Converter.WriteFile fs c csvFileName = (Some f', os.closeErr f)
    /\ os.data f' = take r text
    /\ os.closed f' = true.
Proof.
  intros Hcreate Hroom Hcols Hv Hall Herr text Hlen.
  destruct (Create_Ok fs csvFileName f Hcreate) as [Hd Hc].
  destruct (Write_fits c f columnNames Hcols Hv Hall (roomFor_NewWriter _ _ Hlen))
    as (cw & Hw & He & Hwr & Hb).
  unfold Converter.WriteFile, Converter.errorOf, Converter.writerOf.
  rewrite Hcreate, Hw, Herr. cbn [fst snd csv.Flush csv.w].
  rewrite (Flush_held _ He), Hb, Hwr. fold text.
  destruct (String.length text =? 0)%nat eqn:Hz.
  - apply Nat.eqb_eq, length_zero in Hz. rewrite Hz.
    unfold os.Close. rewrite Hc. eexists. repeat split.
    cbn [os.data]. rewrite Hd. now destruct r.
  - cbn [io.Write os.File_Writer]. unfold os.Write. rewrite Hc, Hroom.
    destruct (String.length text <=? r)%nat eqn:Hfit; cbn [fst]; unfold os.Close;
      cbn [os.closed os.closeErr os.data os.name os.room]; eexists; repeat split;
      cbn [os.data]; rewrite Hd; cbn [append]; [|reflexivity].
    apply Nat.leb_le in Hfit. now rewrite take_all.
Qed.

Lemma WriteFile_failed_flush_witness :
  os.Create noRoom "out.csv"
  = Ok {| os.name := "out.csv"; os.data := EmptyString; os.closed := false;
          os.room := Some 0%nat; os.closeErr := None |}
  /\ exists f',
      Converter.WriteFile noRoom (New twoRows) "out.csv" = (Some f', None)
      /\ os.data f' = EmptyString
      /\ os.closed f' = true.
Proof.
  split; [reflexivity|].
  destruct (WriteFile_does_not_report_a_failed_flush noRoom (New twoRows) "out.csv"
              _ 0%nat ["id"; "name"] eq_refl eq_refl eq_refl eq_refl)
    as (f' & Hw & Hd & Hc).
  - repeat constructor; eexists; reflexivity.
  - reflexivity.
  - apply Nat.leb_le. vm_compute. reflexivity.
  - exists f'. rewrite Hw. repeat split; assumption.
Defined.

(** X4.  What a conversion into memory returns, failed or not, is the
    beginning of the text of the records handed to the csv writer, which are
    the header row, if asked for, and data rows in order: the rest of that
    text is what the buffered writer still held, at most the size of its
    buffer.  When no error is returned nothing is held back, every row was
    decoded, and the data rows are those of all the rows: each row formatted
    and, unless the pre-processor dropped it, written. *)
Theorem WriteString_loses_at_most_the_buffer
  (c : Converter) (columnNames : list string) :
  sql.Columns (rows c) = Ok columnNames ->
  csv.validDelim (delimiter c) = true ->
  exists data held,
    csv.records (snd (fst (Converter.Write c bytes.empty)))
    = headerRows c columnNames ++ data
    /\ isPrefix data (dataRows c columnNames (sql.pending (rows c)))
    /\ encodeRecords (delimiter c) false (headerRows c columnNames ++ data)
       = (fst (Converter.WriteString c) ++ held)%string
    /\ (String.length held <= bufio.defaultBufSize)%nat
    /\ (snd (Converter.WriteString c) = None ->
        held = EmptyString
        /\ exists values,
            sql.pending (rows c) = map Ok values
            /\ Forall (fun vs => List.length vs = List.length columnNames) values
            /\ data = keptRows c columnNames values).
Proof.
  intros Hcols Hv.
  destruct (Write_records c bytes.empty columnNames Hcols) as (data & Hr & Hp).
  destruct (Write_faithful c Hv) as (_ & _ & He & Hs).
  pose proof (Write_within c bytes.empty) as Hin.
  exists data, (bufio.buf (csv.w (snd (fst (Converter.Write c bytes.empty))))).
  split; [exact Hr|]. split; [exact Hp|]. split; [|split].
  - rewrite <- Hr, <- Hs. reflexivity.
  - exact Hin.
  - unfold Converter.WriteString. cbn [snd]. intros Herr.
    destruct (Write_complete c bytes.empty columnNames Hcols Herr) as [Hall [cw Hcw]].
    destruct (Write_decoded c bytes.empty columnNames Hcols Herr)
      as (values & Hpending & Hlen & Hd).
    split.
    + rewrite Hcw in *. now apply Flush_err.
    + exists values. split; [exact Hpending|]. split; [exact Hlen|].
      rewrite Hr in Hall. apply app_inv_head in Hall. now rewrite Hall.
Qed.

Lemma WriteString_loses_witness :
  sql.Columns (rows (New twoRows)) = Ok ["id"; "name"]
  /\ csv.validDelim (delimiter (New twoRows)) = true
  /\ exists data held,
      csv.records (snd (fst (Converter.Write (New twoRows) bytes.empty)))
      = headerRows (New twoRows) ["id"; "name"] ++ data
      /\ isPrefix data
           (dataRows (New twoRows) ["id"; "name"] (sql.pending (rows (New twoRows))))
      /\ encodeRecords (delimiter (New twoRows)) false
           (headerRows (New twoRows) ["id"; "name"] ++ data)
         = (fst (Converter.WriteString (New twoRows)) ++ held)%string
      /\ (String.length held <= bufio.defaultBufSize)%nat
      /\ (snd (Converter.WriteString (New twoRows)) = None ->
          held = EmptyString
          /\ exists values,
              sql.pending (rows (New twoRows)) = map Ok values
              /\ Forall (fun vs => List.length vs = 2%nat) values
              /\ data = keptRows (New twoRows) ["id"; "name"] values).
Proof.
  split; [reflexivity|]. split; [reflexivity|].
  apply (WriteString_loses_at_most_the_buffer (New twoRows) ["id"; "name"]);
    reflexivity.
Defined.

(** X5.  [String] gives all of the text or nothing.  Either the conversion
    failed, and [String] returns the empty string; or it did not, every row
    was decoded, and [String] returns the text of the header row, if asked
    for, and of all the rows, each formatted and, unless the pre-processor
    dropped it, written. *)
Theorem String_is_all_or_nothing (c : Converter) :
  (exists err,
      snd (Converter.WriteString c) = Some err /\ Converter.String c = EmptyString)
  \/ (snd (Converter.WriteString c) = None
      /\ exists columnNames values,
          sql.Columns (rows c) = Ok columnNames
          /\ sql.pending (rows c) = map Ok values
          /\ Forall (fun vs => List.length vs = List.length columnNames) values
          /\ Converter.String c
             = encodeRecords (delimiter c) false
                 (headerRows c columnNames ++ keptRows c columnNames values)).
Proof.
  unfold Converter.String.
  destruct (Converter.WriteString c) as [text err] eqn:Hw.
  destruct err as [e|]; [left; exists e; split; reflexivity|].
  right. split; [reflexivity|].
  assert (Herr : Converter.errorOf (Converter.Write c bytes.empty) = None).
  { unfold Converter.WriteString in Hw. now injection Hw as _ ->. }
  destruct (sql.Columns (rows c)) as [columnNames|e] eqn:Hcols.
  - destruct (Write_decoded c bytes.empty columnNames Hcols Herr)
      as (values & Hpending & Hlen & Hd).
    exists columnNames, values.
    split; [reflexivity|]. split; [exact Hpending|]. split; [exact Hlen|].
    rewrite <- Hd.
    destruct (csv.validDelim (delimiter c)) eqn:Hv.
    + pose proof (WriteString_complete c columnNames Hcols Hv) as Hc.
      rewrite Hw in Hc. now apply Hc.
    + destruct (Write_invalid c bytes.empty Hv) as [Hb Hi].
      destruct (Hi columnNames Hcols) as [Hh Hr].
      assert (Ht : text = EmptyString).
      { unfold Converter.WriteString, Converter.writerOf in Hw. rewrite Hb in Hw.
        now injection Hw as <- _. }
      unfold headerRows.
      destruct (WriteHeaders c); [rewrite (Hh eq_refl) in Herr; discriminate|].
      destruct (dataRows c columnNames (sql.pending (rows c))) as [|row more] eqn:Hrows;
        [exact Ht|].
      rewrite (Hr eq_refl) in Herr; discriminate.
  - destruct (Write_Columns_error c bytes.empty e Hcols) as (He & _).
    rewrite He in Herr. discriminate.
Qed.

(** X6.  With a delimiter that encoding/csv refuses (a quote, a line break,
    the replacement character, no code point) nothing leaves the csv writer:
    a writer of the caller's own that is no buffered writer is not called,
    [WriteString] returns the empty string and [WriteFile] leaves the file
    empty.  With [WriteHeaders] the conversion fails on the header row,
    without it on the first data row to be written, with the error of
    encoding/csv wrapped under the message of the step. *)
Theorem invalid_delimiter_is_refused
  (c : Converter) (columnNames : list string) :
  Delimiter c <> 0%Z ->
  csv.validDelim (Delimiter c) = false ->
  sql.Columns (rows c) = Ok columnNames ->
  (forall probe : Probe, Converter.writerOf (Converter.Write c probe) = probe)
  /\ fst (Converter.WriteString c) = EmptyString
  /\ (forall (fs : os.FileSystem) (csvFileName : string) (f : os.File),
         os.Create fs csvFileName = Ok f ->
         exists f' e,
           Converter.WriteFile fs c csvFileName = (Some f', e)
           /\ os.data f' = EmptyString /\ os.closed f' = true)
  /\ (WriteHeaders c = true ->
      snd (Converter.WriteString c)
      = Some (wrapError "failed to write headers: csv: invalid field or comment delimiter"
                csv.errInvalidDelim)
      /\ forall probe : Probe,
          Converter.errorOf (Converter.Write c probe)
          = Some (wrapError
                    "failed to write headers: csv: invalid field or comment delimiter"
                    csv.errInvalidDelim))
  /\ (WriteHeaders c = false ->
      dataRows c columnNames (sql.pending (rows c)) <> [] ->
      snd (Converter.WriteString c)
      = Some (wrapError
                "failed to write data row to csv csv: invalid field or comment delimiter"
                csv.errInvalidDelim)
      /\ forall probe : Probe,
          Converter.errorOf (Converter.Write c probe)
          = Some (wrapError
                    "failed to write data row to csv csv: invalid field or comment delimiter"
                    csv.errInvalidDelim)).
Proof.
  intros Hnz Hv Hcols.
  rewrite <- (delimiter_nonzero c Hnz) in Hv.
  split; [|split; [|split; [|split]]].
  - intros probe. destruct (Write_invalid c probe Hv) as [Hw _].
    unfold Converter.writerOf. now rewrite Hw.
  - destruct (Write_invalid c bytes.empty Hv) as [Hw _].
    unfold Converter.WriteString, Converter.writerOf. cbn [fst]. now rewrite Hw.
  - intros fs csvFileName f Hcreate.
    destruct (Create_Ok fs csvFileName f Hcreate) as [Hd Hc].
    destruct (Write_invalid c f Hv) as [Hw _].
    unfold Converter.WriteFile, Converter.writerOf. rewrite Hcreate, Hw.
    cbn [bufio.wr bufio.NewWriter]. unfold os.Close. rewrite Hc.
    destruct (Converter.errorOf (Converter.Write c f)); do 2 eexists;
      repeat split; exact Hd.
  - intros Hh. split.
    + destruct (Write_invalid c bytes.empty Hv) as [_ He].
      unfold Converter.WriteString. cbn [snd]. now apply (He columnNames Hcols).
    + intros probe. destruct (Write_invalid c probe Hv) as [_ He].
      now apply (He columnNames Hcols).
  - intros Hh Hrows. split.
    + destruct (Write_invalid c bytes.empty Hv) as [_ He].
      unfold Converter.WriteString. cbn [snd]. now apply (He columnNames Hcols).
    + intros probe. destruct (Write_invalid c probe Hv) as [_ He].
      now apply (He columnNames Hcols).
Qed.

Lemma invalid_delimiter_witness :
  csv.validDelim (Delimiter (withDelimiter (New twoRows) 34)) = false
  /\ Converter.WriteString (withDelimiter (New twoRows) 34)
     = (EmptyString,
        Some (wrapError "failed to write headers: csv: invalid field or comment delimiter"
                csv.errInvalidDelim))
  /\ snd (Converter.WriteString (withoutHeaders (withDelimiter (New twoRows) 34)))
     = Some (wrapError
               "failed to write data row to csv csv: invalid field or comment delimiter"
               csv.errInvalidDelim).
Proof.
  split; [reflexivity|]. split.
  - destruct (invalid_delimiter_is_refused (withDelimiter (New twoRows) 34)
                ["id"; "name"]) as (_ & Hw & _ & He & _);
      [discriminate | reflexivity | reflexivity |].
    destruct (He eq_refl) as [Hs _].
    rewrite (surjective_pairing (Converter.WriteString (withDelimiter (New twoRows) 34))).
    now rewrite Hw, Hs.
  - vm_compute. reflexivity.
Defined.

(** X7.  When [rows.Columns()] fails, the conversion returns that error as
    it is, hands no record to the csv writer and does not call the writer;
    [WriteFile] has created the file by then, and leaves it empty and
    closed. *)
Theorem unknown_columns_end_the_conversion (c : Converter) (err : error) :
  sql.Columns (rows c) = Err err ->
  (forall (W : Type) (IO : io.Writer W) (writer : W),
      Converter.errorOf (Converter.Write c writer) = Some err
      /\ Converter.writerOf (Converter.Write c writer) = writer
      /\ csv.records (snd (fst (Converter.Write c writer))) = [])
  /\ (forall (fs : os.FileSystem) (csvFileName : string) (f : os.File),
         os.Create fs csvFileName = Ok f ->
         exists f',
           Converter.WriteFile fs c csvFileName = (Some f', Some err)
           /\ os.data f' = EmptyString /\ os.closed f' = true).
Proof.
  intros Hcols. split.
  - intros W IO writer. now apply Write_Columns_error.
  - intros fs csvFileName f Hcreate.
    destruct (Create_Ok fs csvFileName f Hcreate) as [Hd Hc].
    destruct (Write_Columns_error c f err Hcols) as (He & Hw & _).
    unfold Converter.WriteFile. rewrite Hcreate, He, Hw.
    unfold os.Close. rewrite Hc. eexists. repeat split. exact Hd.
Qed.

Lemma unknown_columns_witness :
  sql.Columns (rows (New closedRows)) = Err columnsUnknown
  /\ Converter.WriteString (New closedRows) = (EmptyString, Some columnsUnknown)
  /\ exists f',
      Converter.WriteFile roomy (New closedRows) "out.csv" = (Some f', Some columnsUnknown)
      /\ os.data f' = EmptyString /\ os.closed f' = true.
Proof.
  split; [reflexivity|].
  destruct (unknown_columns_end_the_conversion (New closedRows) columnsUnknown eq_refl)
    as [Hw Hf].
  split.
  - destruct (Hw bytes.Buffer _ bytes.empty) as (He & Hb & _).
    unfold Converter.WriteString. now rewrite He, Hb.
  - apply (Hf roomy "out.csv" _ eq_refl).
Defined.

(** X8.  Into a file that takes every write, [WriteFile] leaves exactly the
    bytes that [WriteString] returns, and fails exactly when [WriteString]
    fails, with the same error; when the conversion succeeds it returns what
    [Close] reports. *)
Theorem WriteFile_writes_what_WriteString_returns
  (fs : os.FileSystem) (c : Converter) (csvFileName : string) (f : os.File) :
  os.Create fs csvFileName = Ok f ->
  os.room f = None ->
  exists f',
    Converter.WriteFile fs c csvFileName
    = (Some f',
       match snd (Converter.WriteString c) with
       | Some err => Some err
       | None => os.closeErr f
       end)
    /\ os.data f' = fst (Converter.WriteString c)
    /\ os.closed f' = true.
Proof.
  intros Hcreate Hroom.
  destruct (Create_Ok fs csvFileName f Hcreate) as [Hd Hc].
  destruct (Write_file_like_memory c f Hd Hc Hroom) as [(H1 & H2 & H3 & H4) He].
  unfold Converter.WriteFile, Converter.WriteString. rewrite Hcreate, He.
  cbn [fst snd]. unfold os.Close. rewrite H2, H4.
  destruct (Converter.errorOf (Converter.Write c bytes.empty));
    eexists; repeat split; exact H1.
Qed.

Lemma WriteFile_WriteString_witness :
  os.Create roomy "out.csv"
  = Ok {| os.name := "out.csv"; os.data := EmptyString; os.closed := false;
          os.room := None; os.closeErr := None |}
  /\ exists f',
      Converter.WriteFile roomy (New twoRows) "out.csv" = (Some f', None)
      /\ os.data f' = (line "id,name" ++ line "1,Alice" ++ line "2,Bob")%string
      /\ os.closed f' = true.
Proof.
  split; [reflexivity|].
  destruct (WriteFile_writes_what_WriteString_returns roomy (New twoRows) "out.csv"
              _ eq_refl eq_refl) as (f' & Hw & Hd & Hc).
  exists f'. rewrite Hw, Hd.
  split; [vm_compute; reflexivity | split; [vm_compute; reflexivity | exact Hc]].
Defined.

(** X9.  [Write] into a buffer in memory adds to what the buffer holds: the
    buffer ends up with its bytes followed by what [WriteString] returns,
    and the error is that of [WriteString]. *)
Theorem Write_appends_to_the_buffer (c : Converter) (buffer : bytes.Buffer) :
  Converter.writerOf (Converter.Write c buffer)
  = (buffer ++ fst (Converter.WriteString c))%string
  /\ Converter.errorOf (Converter.Write c buffer) = snd (Converter.WriteString c).
Proof.
  destruct (Write_similar (fun s1 s2 : bytes.Buffer => s1 = (buffer ++ s2)%string))
    with (c := c) (w1 := buffer) (w2 := bytes.empty)
    as (_ & (_ & _ & _ & _ & _ & Hw) & He).
  - intros w1 w2 p ->. cbn. split; [apply append_assoc | reflexivity].
  - reflexivity.
  - unfold bytes.empty. now rewrite append_nil_r.
  - split; [exact Hw | exact He].
Qed.

(** X10.  A signed integer is rendered in decimal, with a minus sign in
    front when it is negative and no other character: read back, the text
    of a value of type [int], [int8], [int16], [int32] or [int64] gives the
    value. *)
Theorem signed_integers_read_back (c : Converter) (val : Z) :
  readInt (Converter.toString c (VInt val)) = Some (sint 64 val)
  /\ readInt (Converter.toString c (VInt8 val)) = Some (sint 8 val)
  /\ readInt (Converter.toString c (VInt16 val)) = Some (sint 16 val)
  /\ readInt (Converter.toString c (VInt32 val)) = Some (sint 32 val)
  /\ readInt (Converter.toString c (VInt64 val)) = Some (sint 64 val).
Proof.
  pose proof (sint_range 8 val ltac:(lia)) as H8.
  pose proof (sint_range 16 val ltac:(lia)) as H16.
  pose proof (sint_range 32 val ltac:(lia)) as H32.
  pose proof (sint_range 64 val ltac:(lia)) as H64.
  change (8 - 1)%Z with 7%Z in H8. change (16 - 1)%Z with 15%Z in H16.
  change (32 - 1)%Z with 31%Z in H32. change (64 - 1)%Z with 63%Z in H64.
  cbn [Converter.toString]. unfold strconv.Itoa.
  rewrite (int64_small (sint 8 val)), (int64_small (sint 16 val)),
    (int64_small (sint 32 val)) by lia.
  repeat split; apply FormatInt_readInt; lia.
Qed.

(** X11.  An unsigned integer is rendered in decimal digits alone: read
    back, the text of a value of type [uint], [uint8], [uint16], [uint32] or
    [uint64] gives the value. *)
Theorem unsigned_integers_read_back (c : Converter) (val : Z) :
  readUint (Converter.toString c (VUint val)) = Some (uint 64 val)
  /\ readUint (Converter.toString c (VUint8 val)) = Some (uint 8 val)
  /\ readUint (Converter.toString c (VUint16 val)) = Some (uint 16 val)
  /\ readUint (Converter.toString c (VUint32 val)) = Some (uint 32 val)
  /\ readUint (Converter.toString c (VUint64 val)) = Some (uint 64 val).
Proof.
  pose proof (uint_range 8 val ltac:(lia)) as H8.
  pose proof (uint_range 16 val ltac:(lia)) as H16.
  pose proof (uint_range 32 val ltac:(lia)) as H32.
  pose proof (uint_range 64 val ltac:(lia)) as H64.
  cbn [Converter.toString].
  rewrite (uint64_small (uint 8 val)), (uint64_small (uint 16 val)),
    (uint64_small (uint 32 val)), (uint64_small (uint 64 val)) by lia.
  repeat split; apply FormatUint_readUint; lia.
Qed.

(** X12.  The text of [nil], of a boolean, of an integer and of a byte array
    under a base64 or the hex setting is made of letters, digits and the
    signs + / - _ = alone; under the comma it needs no quotes, and the csv
    writer writes it as it is. *)
Theorem plain_values_are_written_as_they_are (c : Converter) (v : any) :
  plainValue c v = true ->
  allBytes plainByte (Converter.toString c v) = true
  /\ csv.fieldNeedsQuotes 44 (Converter.toString c v) = false
  /\ encodeField 44 false (Converter.toString c v) = Converter.toString c v.
Proof.
  intros Hv.
  assert (Hplain : allBytes plainByte (Converter.toString c v) = true).
  { destruct v; try discriminate Hv; cbn [Converter.toString];
      unfold strconv.Itoa;
      try apply FormatInt_plain; try apply FormatUint_plain; try reflexivity.
    - cbn [plainValue] in Hv. apply andb_prop in Hv. destruct Hv as [Hlo Hhi].
      apply Z.leb_le in Hlo. apply Z.leb_le in Hhi.
      unfold String_, StdBase64, URLBase64, RawStdBase64, RawURLBase64, Hex in *.
      destruct (ByteArrayConverter c =? 0)%Z eqn:E0; [apply Z.eqb_eq in E0; lia|].
      destruct (ByteArrayConverter c =? 1)%Z eqn:E1;
        [apply (EncodeToString_plain base64.encodeStd); vm_compute; reflexivity|].
      destruct (ByteArrayConverter c =? 2)%Z eqn:E2;
        [apply (EncodeToString_plain base64.encodeURL); vm_compute; reflexivity|].
      destruct (ByteArrayConverter c =? 3)%Z eqn:E3;
        [apply (EncodeToString_plain base64.encodeStd); vm_compute; reflexivity|].
      destruct (ByteArrayConverter c =? 4)%Z eqn:E4;
        [apply (EncodeToString_plain base64.encodeURL); vm_compute; reflexivity|].
      destruct (ByteArrayConverter c =? 5)%Z eqn:E5.
      + apply (allBytes_impl lowerHexDigit); [apply lowerHexDigit_plain|].
        apply hex_EncodeToString_shape.
      + apply Z.eqb_neq in E0, E1, E2, E3, E4, E5. lia.
    - destruct val; reflexivity. }
  pose proof (fieldNeedsQuotes_plain _ Hplain) as Hq.
  split; [exact Hplain|]. split; [exact Hq|]. unfold encodeField. now rewrite Hq.
Qed.

Lemma plain_values_witness :
  plainValue (withByteArrayConverter (New noRows) StdBase64) (VBytes [xab; xcd]) = true
  /\ Converter.toString (withByteArrayConverter (New noRows) StdBase64)
       (VBytes [xab; xcd]) = "q80="
  /\ allBytes plainByte "q80=" = true
  /\ csv.fieldNeedsQuotes 44 "q80=" = false
  /\ encodeField 44 false "q80=" = "q80=".
Proof.
  split; [reflexivity|]. split; [reflexivity|].
  apply (plain_values_are_written_as_they_are
           (withByteArrayConverter (New noRows) StdBase64) (VBytes [xab; xcd])).
  reflexivity.
Defined.

(** X13.  The raw base64 settings give the text of the padded setting of the
    same alphabet without its padding: the padded text is the raw text, which
    holds no padding character, followed by as many padding characters as
    bring the bytes to a multiple of three; it has four characters for every
    three bytes begun. *)
Theorem raw_base64_omits_the_padding (c : Converter) (val : list byte) :
  let text k := Converter.toString (withByteArrayConverter c k) (VBytes val) in
  text StdBase64
  = (text RawStdBase64 ++ replicate (paddingOf (List.length val)) "="%char)%string
  /\ text URLBase64
     = (text RawURLBase64 ++ replicate (paddingOf (List.length val)) "="%char)%string
  /\ contains_byte (text RawStdBase64) "="%char = false
  /\ contains_byte (text RawURLBase64) "="%char = false
  /\ String.length (text StdBase64) = (4 * ((List.length val + 2) / 3))%nat
  /\ String.length (text URLBase64) = (4 * ((List.length val + 2) / 3))%nat.
Proof.
  cbv zeta. cbn [Converter.toString withByteArrayConverter ByteArrayConverter].
  change (StdBase64 =? String_)%Z with false. change (StdBase64 =? StdBase64)%Z with true.
  change (URLBase64 =? String_)%Z with false. change (URLBase64 =? StdBase64)%Z with false.
  change (URLBase64 =? URLBase64)%Z with true.
  change (RawStdBase64 =? String_)%Z with false.
  change (RawStdBase64 =? StdBase64)%Z with false.
  change (RawStdBase64 =? URLBase64)%Z with false.
  change (RawStdBase64 =? RawStdBase64)%Z with true.
  change (RawURLBase64 =? String_)%Z with false.
  change (RawURLBase64 =? StdBase64)%Z with false.
  change (RawURLBase64 =? URLBase64)%Z with false.
  change (RawURLBase64 =? RawStdBase64)%Z with false.
  change (RawURLBase64 =? RawURLBase64)%Z with true.
  cbv iota.
  destruct (EncodeToString_shape base64.encodeStd ltac:(vm_compute; reflexivity) val)
    as (S1 & S2 & S3).
  destruct (EncodeToString_shape base64.encodeURL ltac:(vm_compute; reflexivity) val)
    as (U1 & U2 & U3).
  repeat split; assumption.
Qed.

(** X14.  Without a pre-processor every data row handed to the csv writer
    has one field for each column; with no headers configured the header row
    has as many, so that all the records have the same number of fields. *)
Theorem data_rows_have_one_field_per_column
  (c : Converter) (columnNames : list string) :
  rowPreProcessor c = None ->
  sql.Columns (rows c) = Ok columnNames ->
  forall (W : Type) (IO : io.Writer W) (writer : W),
    exists data,
      csv.records (snd (fst (Converter.Write c writer)))
      = headerRows c columnNames ++ data
      /\ Forall (fun row => List.length row = List.length columnNames) data
      /\ (Headers c = [] ->
          Forall (fun row => List.length row = List.length columnNames)
            (csv.records (snd (fst (Converter.Write c writer))))).
Proof.
  intros Hp Hcols W IO writer.
  destruct (Write_records c writer columnNames Hcols) as (data & Hr & Hpre).
  assert (Hdata : Forall (fun row => List.length row = List.length columnNames) data).
  { apply (Forall_isPrefix _ _ _ Hpre). now apply dataRows_width. }
  exists data. split; [exact Hr|]. split; [exact Hdata|].
  intros Hh. rewrite Hr. apply Forall_app. split; [|exact Hdata].
  unfold headerRows, headerRow. rewrite Hh.
  destruct (WriteHeaders c); repeat constructor.
Qed.

Lemma data_rows_witness :
  rowPreProcessor (New twoRows) = None
  /\ sql.Columns (rows (New twoRows)) = Ok ["id"; "name"]
  /\ exists data,
      csv.records (snd (fst (Converter.Write (New twoRows) bytes.empty)))
      = headerRows (New twoRows) ["id"; "name"] ++ data
      /\ Forall (fun row => List.length row = 2%nat) data
      /\ (Headers (New twoRows) = [] ->
          Forall (fun row => List.length row = 2%nat)
            (csv.records (snd (fst (Converter.Write (New twoRows) bytes.empty))))).
Proof.
  split; [reflexivity|]. split; [reflexivity|].
  apply (data_rows_have_one_field_per_column (New twoRows) ["id"; "name"]
           eq_refl eq_refl bytes.Buffer _ bytes.empty).
Defined.

(** X15.  The three functions of the package convert with the settings of
    [New].  On rows that hold one value for each column the text is the line
    of the column names and one line for each row, each value rendered by
    [toString], the fields separated by commas.  [WriteString] returns it
    with what [rows.Err()] returns; [Write] adds it to a buffer in memory;
    [WriteFile] leaves it in a file that takes every write, and returns what
    [rows.Err()] returns or else what [Close] reports. *)
Theorem package_functions_write_the_rows
  (rs : sql.Rows) (columnNames : list string) (values : list (list any)) :
  sql.columns rs = Ok columnNames ->
  sql.pending rs = map Ok values ->
  Forall (fun vs => List.length vs = List.length columnNames) values ->
  let text :=
    encodeRecords 44 false
      (columnNames :: map (map (Converter.toString (New rs))) values) in
  WriteString rs = (text, sql.lasterr rs)
  /\ (forall buffer : bytes.Buffer,
         Converter.writerOf (Write buffer rs) = (buffer ++ text)%string
         /\ Converter.errorOf (Write buffer rs) = sql.lasterr rs)
  /\ (forall (fs : os.FileSystem) (csvFileName : string) (f : os.File),
         os.Create fs csvFileName = Ok f ->
         os.room f = None ->
         exists f',
           WriteFile fs csvFileName rs
           = (Some f',
              match sql.lasterr rs with
              | Some err => Some err
              | None => os.closeErr f
              end)
           /\ os.data f' = text /\ os.closed f' = true).
Proof.
  intros Hcols Hpending Hlen text.
  destruct (dataRows_values (New rs) columnNames eq_refl values Hlen) as [Hd Hall].
  assert (Hs : Converter.WriteString (New rs) = (text, sql.lasterr rs)).
  { rewrite (WriteString_text (New rs) columnNames Hcols eq_refl).
    - cbn [rows New]. rewrite Hpending, Hd. reflexivity.
    - cbn [rows New]. now rewrite Hpending. }
  split; [exact Hs|]. split.
  - intros buffer. unfold Write.
    destruct (Write_similar (fun s1 s2 : bytes.Buffer => s1 = (buffer ++ s2)%string))
      with (c := New rs) (w1 := buffer) (w2 := bytes.empty)
      as (_ & (_ & _ & _ & _ & _ & Hw) & He).
    + intros w1 w2 p ->. cbn. split; [apply append_assoc | reflexivity].
    + reflexivity.
    + unfold bytes.empty. now rewrite append_nil_r.
    + unfold Converter.WriteString in Hs. injection Hs as Hs1 Hs2.
      unfold Converter.writerOf, Converter.errorOf, bytes.String in *.
      split; [now rewrite Hw, Hs1 | now rewrite He].
  - intros fs csvFileName f Hcreate Hroom. unfold WriteFile.
    destruct (Create_Ok fs csvFileName f Hcreate) as [Hdata Hc].
    destruct (Write_file_like_memory (New rs) f Hdata Hc Hroom)
      as [(H1 & H2 & H3 & H4) He].
    unfold Converter.WriteString in Hs. injection Hs as Hs1 Hs2.
    unfold Converter.WriteFile. rewrite Hcreate, He, Hs2.
    unfold os.Close. rewrite H2, H4.
    destruct (sql.lasterr rs); eexists; repeat split;
      cbn [os.data]; now rewrite H1.
Qed.

Lemma package_functions_witness :
  sql.columns twoRows = Ok ["id"; "name"]
  /\ sql.pending twoRows
     = map Ok [[VInt64 1; VString "Alice"]; [VInt64 2; VString "Bob"]]
  /\ WriteString twoRows
     = ((line "id,name" ++ line "1,Alice" ++ line "2,Bob")%string, None)
  /\ exists f',
      WriteFile roomy "out.csv" twoRows = (Some f', None)
      /\ os.data f' = (line "id,name" ++ line "1,Alice" ++ line "2,Bob")%string
      /\ os.closed f' = true.
Proof.
  split; [reflexivity|]. split; [reflexivity|].
  destruct (package_functions_write_the_rows twoRows ["id"; "name"]
              [[VInt64 1; VString "Alice"]; [VInt64 2; VString "Bob"]] eq_refl eq_refl)
    as (Hs & _ & Hf); [repeat constructor|].
  split; [rewrite Hs; reflexivity|].
  destruct (Hf roomy "out.csv" _ eq_refl eq_refl) as (f' & Hw & Hd & Hc).
  exists f'. rewrite Hw, Hd. split; [reflexivity | split; [reflexivity | exact Hc]].
Defined.
